(** * Project Prometheus: the coordination runtime, embedded and verified

    A shallow embedding of the coordination core of the repository
    (prometheus/core, prometheus/infrastructure, prometheus/services and the
    safety overseer of prometheus/agents), followed by the properties proved
    about it.

    Conventions of the embedding.
    - Python objects that are mutated in place become values that are passed
      in and returned.
    - An identifier (a UUID) is represented by its canonical text, the string
      that [str] yields and under which every dictionary of the program files
      it.
    - [datetime.utcnow()] and [uuid4()] read the outside world; they are
      modelled by an oracle indexed by the number of readings taken so far.
    - A coroutine is modelled by the function it computes; the logging calls
      are left out. *)

From Stdlib Require Import QArith.
From stdpp Require Import gmap strings list fin_maps pretty.

Set Warnings "-register-all".
Close Scope Q_scope.
Open Scope string_scope.
Open Scope list_scope.

(* ===================================================================== *)
(** * Part I: the program *)
(* ===================================================================== *)

(** ** prometheus/core/domain.py *)

Module Domain.

Inductive AgentType := PROMETHEUS | DAEDALUS | LOGOS | ODYSSEUS | THEMIS.

Inductive TaskStatus := PENDING | IN_PROGRESS | COMPLETED | FAILED | CANCELLED.

Inductive Priority := LOW | MEDIUM | HIGH | CRITICAL.

#[export] Instance AgentType_eq_dec : EqDecision AgentType.
Proof. solve_decision. Defined.

#[export] Instance TaskStatus_eq_dec : EqDecision TaskStatus.
Proof. solve_decision. Defined.

#[export] Instance Priority_eq_dec : EqDecision Priority.
Proof. solve_decision. Defined.

(** [AgentType.value] *)
Definition AgentType_value (t : AgentType) : string :=
  match t with
  | PROMETHEUS => "prometheus"
  | DAEDALUS => "daedalus"
  | LOGOS => "logos"
  | ODYSSEUS => "odysseus"
  | THEMIS => "themis"
  end.

(** [str(t)] for a member of the enumeration, which is its qualified name. *)
Definition str_AgentType (t : AgentType) : string :=
  match t with
  | PROMETHEUS => "AgentType.PROMETHEUS"
  | DAEDALUS => "AgentType.DAEDALUS"
  | LOGOS => "AgentType.LOGOS"
  | ODYSSEUS => "AgentType.ODYSSEUS"
  | THEMIS => "AgentType.THEMIS"
  end.

(** [Priority.value] *)
Definition Priority_value (p : Priority) : Z :=
  match p with LOW => 1 | MEDIUM => 2 | HIGH => 3 | CRITICAL => 4 end%Z.

(** [TaskStatus.value] *)
Definition TaskStatus_value (s : TaskStatus) : string :=
  match s with
  | PENDING => "pending"
  | IN_PROGRESS => "in_progress"
  | COMPLETED => "completed"
  | FAILED => "failed"
  | CANCELLED => "cancelled"
  end.

(** The canonical text of a UUID. *)
Definition UUID := string.

(** A point in time, as [datetime.utcnow()] returns it. *)
Definition datetime := Z.

Record AgentId := mkAgentId { agent_value : UUID }.

Record TaskId := mkTaskId { task_value : UUID }.

#[export] Instance AgentId_eq_dec : EqDecision AgentId.
Proof. solve_decision. Defined.

#[export] Instance TaskId_eq_dec : EqDecision TaskId.
Proof. solve_decision. Defined.

(** [AgentId.__str__] and [TaskId.__str__] *)
Definition str_AgentId (a : AgentId) : string := agent_value a.

Definition str_TaskId (t : TaskId) : string := task_value t.

(** The values that travel in the [Dict[str, Any]] payloads of the core. A
    dictionary keeps its insertion order, so it is an association list. A
    [SafetyCheck] object inside a payload is [PyCheck], with its fields in the
    order of the dataclass. *)
Inductive pyval :=
| PyNone
| PyBool (b : bool)
| PyInt (z : Z)
| PyFloat (q : Q)
| PyStr (s : string)
| PyTime (t : datetime)
| PyList (l : list pyval)
| PyDict (d : list (string * pyval))
| PyCheck (id : UUID) (check_type status message severity : string)
          (timestamp : datetime) (metadata : list (string * pyval)).

Definition dict := list (string * pyval).

(** The outside world as the core reads it: the clock and the random source. *)
Record Sys := mkSys {
  clock : nat -> datetime;
  reads : nat;
  random : nat -> UUID;
  draws : nat
}.

(** [datetime.utcnow()] *)
Definition utcnow (s : Sys) : datetime * Sys :=
  (clock s (reads s), mkSys (clock s) (S (reads s)) (random s) (draws s)).

(** [uuid4()] *)
Definition uuid4 (s : Sys) : UUID * Sys :=
  (random s (draws s), mkSys (clock s) (reads s) (random s) (S (draws s))).

Record Message := mkMessage {
  msg_id : UUID;
  sender_id : AgentId;
  receiver_id : AgentId;
  content : dict;
  msg_timestamp : datetime;
  message_type : string
}.

Record Task := mkTask {
  id : TaskId;
  agent_id : AgentId;
  name : string;
  description : string;
  priority : Priority;
  status : TaskStatus;
  created_at : datetime;
  updated_at : datetime;
  completed_at : option datetime;
  result : option dict;
  error : option string;
  metadata : dict
}.

Definition set_status (st : TaskStatus) (t : Task) : Task :=
  mkTask (id t) (agent_id t) (name t) (description t) (priority t) st
         (created_at t) (updated_at t) (completed_at t) (result t) (error t)
         (metadata t).

Definition set_updated_at (now : datetime) (t : Task) : Task :=
  mkTask (id t) (agent_id t) (name t) (description t) (priority t) (status t)
         (created_at t) now (completed_at t) (result t) (error t) (metadata t).

Definition set_completed_at (now : option datetime) (t : Task) : Task :=
  mkTask (id t) (agent_id t) (name t) (description t) (priority t) (status t)
         (created_at t) (updated_at t) now (result t) (error t) (metadata t).

Definition set_result (r : option dict) (t : Task) : Task :=
  mkTask (id t) (agent_id t) (name t) (description t) (priority t) (status t)
         (created_at t) (updated_at t) (completed_at t) r (error t) (metadata t).

Definition set_error (e : option string) (t : Task) : Task :=
  mkTask (id t) (agent_id t) (name t) (description t) (priority t) (status t)
         (created_at t) (updated_at t) (completed_at t) (result t) e (metadata t).

Definition set_agent_id (a : AgentId) (t : Task) : Task :=
  mkTask (id t) a (name t) (description t) (priority t) (status t)
         (created_at t) (updated_at t) (completed_at t) (result t) (error t)
         (metadata t).

Definition set_name (n : string) (t : Task) : Task :=
  mkTask (id t) (agent_id t) n (description t) (priority t) (status t)
         (created_at t) (updated_at t) (completed_at t) (result t) (error t)
         (metadata t).

Definition set_description (d : string) (t : Task) : Task :=
  mkTask (id t) (agent_id t) (name t) d (priority t) (status t)
         (created_at t) (updated_at t) (completed_at t) (result t) (error t)
         (metadata t).

Definition set_priority (p : Priority) (t : Task) : Task :=
  mkTask (id t) (agent_id t) (name t) (description t) p (status t)
         (created_at t) (updated_at t) (completed_at t) (result t) (error t)
         (metadata t).

Definition set_metadata (d : list (string * pyval)) (t : Task) : Task :=
  mkTask (id t) (agent_id t) (name t) (description t) (priority t) (status t)
         (created_at t) (updated_at t) (completed_at t) (result t) (error t) d.

(** [Task(agent_id=..., name=..., description=..., priority=...,
    metadata=...)]: the fields left out take their defaults in the order of
    the dataclass, so the identifier is drawn and then the clock is read
    twice. *)
Definition new_Task (agent_id : AgentId) (name description : string)
    (priority : Priority) (metadata : list (string * pyval)) (s : Sys)
  : Task * Sys :=
  let '(i, s) := uuid4 s in
  let '(created, s) := utcnow s in
  let '(updated, s) := utcnow s in
  (mkTask (mkTaskId i) agent_id name description priority PENDING created
          updated None None None metadata, s).

(** [Task.mark_in_progress] *)
Definition mark_in_progress (t : Task) (s : Sys) : Task * Sys :=
  let t := set_status IN_PROGRESS t in
  let '(now, s) := utcnow s in
  (set_updated_at now t, s).

(** [Task.mark_completed] *)
Definition mark_completed (r : dict) (t : Task) (s : Sys) : Task * Sys :=
  let t := set_status COMPLETED t in
  let t := set_result (Some r) t in
  let '(now, s) := utcnow s in
  let t := set_completed_at (Some now) t in
  let '(now, s) := utcnow s in
  (set_updated_at now t, s).

(** [Task.mark_failed] *)
Definition mark_failed (e : string) (t : Task) (s : Sys) : Task * Sys :=
  let t := set_status FAILED t in
  let t := set_error (Some e) t in
  let '(now, s) := utcnow s in
  (set_updated_at now t, s).

(** The terminal statuses of the task life cycle. *)
Definition terminal (st : TaskStatus) : bool :=
  match st with COMPLETED | FAILED | CANCELLED => true | _ => false end.

Record SafetyCheck := mkSafetyCheck {
  check_id : UUID;
  check_type : string;
  check_status : string;     (* passed, warning, failed *)
  check_message : string;
  severity : string;         (* low, medium, high, critical *)
  check_timestamp : datetime;
  check_metadata : dict
}.

Definition py_of_check (c : SafetyCheck) : pyval :=
  PyCheck (check_id c) (check_type c) (check_status c) (check_message c)
          (severity c) (check_timestamp c) (check_metadata c).

(** An instance of Python's [Exception]: its class and the text [str]
    gives. The signals that derive from [BaseException] only (interpreter
    exit, keyboard interrupt, task cancellation) are not exceptions in this
    sense and are outside the model. *)
Record exn := mkExn { exn_class : string; exn_text : string }.

Definition str_exn (e : exn) : string := exn_text e.

(** How an awaited call ends: it returns, it raises, or it is left suspended
    and never resumes. *)
Inductive outcome (A : Type) :=
| Return (a : A)
| Raise (e : exn)
| Suspend.

Arguments Return {A} a.
Arguments Raise {A} e.
Arguments Suspend {A}.

(** Calls that thread a state [S]. What a call did to the state before it
    raised stays done. *)
Definition M (S A : Type) : Type := S -> outcome A * S.

Definition ret {S A} (a : A) : M S A := fun s => (Return a, s).

Definition bind {S A B} (m : M S A) (k : A -> M S B) : M S B :=
  fun s =>
    match m s with
    | (Return a, s') => k a s'
    | (Raise e, s') => (Raise e, s')
    | (Suspend, s') => (Suspend, s')
    end.

Notation "'await' x <- m ; k" := (bind m (fun x => k))
  (at level 10, x name, m at level 100, k at level 200).

Notation "m ;; k" := (bind m (fun _ => k))
  (at level 100, k at level 200, right associativity).

(** The abstract base class [Repository], for a store of type [R] that holds
    entities of type [E]. An identifier reaches the store as the text [str]
    gives it. *)
Class Repository (R E : Type) := {
  repo_save : E -> M R unit;
  repo_get_by_id : string -> M R (option E);
  repo_list_all : M R (list E);
  repo_delete : string -> M R bool
}.

(** The abstract base class [EventBus], for a bus of type [B] whose
    subscribers are callbacks of type [H]. *)
Class EventBus (B H : Type) := {
  bus_publish : Message -> M B unit;
  bus_subscribe : AgentId -> H -> M B unit;
  bus_unsubscribe : AgentId -> M B unit
}.

(** [uuid.UUID(text)], of the Python library: the identifier a text denotes,
    when it denotes one. *)
Class UUIDReader := UUID_of : string -> option UUID.

End Domain.

Import Domain.

(** ** Python's built-in operations, as the program uses them *)

Module Python.

(** [d.get(key)] *)
Fixpoint get {V} (key : string) (d : list (string * V)) : option V :=
  match d with
  | [] => None
  | (k, v) :: d' => if decide (k = key) then Some v else get key d'
  end.

(** [d[key] = v]: a key the dictionary has keeps its place. *)
Fixpoint set_item {V} (key : string) (v : V) (d : list (string * V))
  : list (string * V) :=
  match d with
  | [] => [(key, v)]
  | (k, w) :: d' =>
      if decide (k = key) then (k, v) :: d' else (k, w) :: set_item key v d'
  end.

(** [d.update(other)] *)
Definition update {V} (d other : list (string * V)) : list (string * V) :=
  foldl (fun d '(k, v) => set_item k v d) d other.

(** How a slice bound is read against a list of length [len]: a negative
    bound counts from the end, and every bound is brought into the list. *)
Definition slice_bound (len i : Z) : Z :=
  if (i <? 0)%Z then Z.max 0 (i + len) else Z.min i len.

(** [l[start:stop]] *)
Definition slice {A} (l : list A) (start stop : Z) : list A :=
  let len := Z.of_nat (length l) in
  let start := slice_bound len start in
  let stop := slice_bound len stop in
  take (Z.to_nat (stop - start)) (drop (Z.to_nat start) l).

(** [s.lower()] on ASCII text: the capital letters A to Z become small, every
    other character stays. *)
Definition lower_char (c : Ascii.ascii) : Ascii.ascii :=
  let n := Ascii.nat_of_ascii c in
  if (65 <=? n)%nat && (n <=? 90)%nat then Ascii.ascii_of_nat (n + 32) else c.

Fixpoint lower (s : string) : string :=
  match s with
  | EmptyString => EmptyString
  | String c s' => String (lower_char c) (lower s')
  end.

(** [pattern in s], between texts. *)
Fixpoint contains (pattern s : string) : bool :=
  String.prefix pattern s
  || match s with
     | EmptyString => false
     | String _ s' => contains pattern s'
     end.

(** [bool(v)], the truth value an [if] reads off a payload value. *)
Definition truthy (v : pyval) : bool :=
  match v with
  | PyNone => false
  | PyBool b => b
  | PyInt z => negb (z =? 0)%Z
  | PyFloat q => negb (Qeq_bool q 0)
  | PyStr s => negb (String.eqb s "")
  | PyTime _ => true
  | PyList l => match l with [] => false | _ => true end
  | PyDict d => match d with [] => false | _ => true end
  | PyCheck _ _ _ _ _ _ _ => true
  end.

(** [str(v)] for a payload value that is not a text already. *)
Class Text := str_py : pyval -> string.

(** [str(v)] *)
Definition str `{Text} (v : pyval) : string :=
  match v with
  | PyStr s => s
  | _ => str_py v
  end.

End Python.

(** ** prometheus/infrastructure/repositories.py *)

Module Repositories.

(** What [InMemoryRepository.save] asks of an entity: [hasattr(entity, 'id')],
    and then [str(entity.id)]. [entity_key] is [None] for an object without
    the attribute. *)
Class Entity (E : Type) := entity_key : E -> option string.

#[export] Instance Task_Entity : Entity Task := fun t => Some (str_TaskId (id t)).

Section InMemoryRepository.
Context {E : Type} `{Entity E}.

(** [InMemoryRepository.__init__]: [self._storage] starts empty. *)
Definition InMemoryRepository_init : gmap string E := ∅.

(** [InMemoryRepository.save] *)
Definition imr_save (entity : E) : M (gmap string E) unit :=
  fun st =>
    match entity_key entity with
    | Some key => (Return tt, <[key := entity]> st)
    | None =>
        (Raise (mkExn "ValueError" "Entity must have an 'id' attribute"), st)
    end.

(** [InMemoryRepository.get_by_id] *)
Definition imr_get_by_id (key : string) : M (gmap string E) (option E) :=
  fun st => (Return (st !! key), st).

(** [InMemoryRepository.list_all] *)
Definition imr_list_all : M (gmap string E) (list E) :=
  fun st => (Return (map_to_list st).*2, st).

(** [InMemoryRepository.delete] *)
Definition imr_delete (key : string) : M (gmap string E) bool :=
  fun st =>
    if decide (is_Some (st !! key))
    then (Return true, delete key st)
    else (Return false, st).

#[export] Instance InMemoryRepository : Repository (gmap string E) E := {
  repo_save := imr_save;
  repo_get_by_id := imr_get_by_id;
  repo_list_all := imr_list_all;
  repo_delete := imr_delete
}.

(** Every entity is filed under its own identifier. *)
Definition filed_by_id (st : gmap string E) : Prop :=
  ∀ k e, st !! k = Some e → entity_key e = Some k.

(** The calls that change a repository, and a repository after a series of
    them on a new one. *)
Inductive call :=
| Save (entity : E)
| Delete (key : string).

Definition after (st : gmap string E) (c : call) : gmap string E :=
  match c with
  | Save entity => (imr_save entity st).2
  | Delete key => (imr_delete key st).2
  end.

Definition calls (cs : list call) : gmap string E :=
  foldl after InMemoryRepository_init cs.

End InMemoryRepository.

Arguments call E : clear implicits.

(** An object as a comparison meets it, be it an attribute of an entity or a
    value of a criteria dictionary: a payload value, or one of the value
    objects and enumeration members of domain.py. *)
Inductive obj :=
| Plain (v : pyval)
| OfTaskId (i : TaskId)
| OfAgentId (a : AgentId)
| OfPriority (p : Priority)
| OfStatus (s : TaskStatus).

(** Python's [==] between payload values. *)
Class PyEq := py_eq : pyval -> pyval -> bool.

(** [a == b]. The frozen dataclasses [TaskId] and [AgentId] compare their
    fields with an object of their own class and equal no other object; a
    member of an [Enum] equals itself only. [a != b] is its negation. *)
Definition obj_eq `{PyEq} (a b : obj) : bool :=
  match a, b with
  | Plain v, Plain w => py_eq v w
  | OfTaskId i, OfTaskId j => bool_decide (i = j)
  | OfAgentId x, OfAgentId y => bool_decide (x = y)
  | OfPriority p, OfPriority q => bool_decide (p = q)
  | OfStatus s, OfStatus t => bool_decide (s = t)
  | _, _ => false
  end.

(** [hasattr(entity, key)] and [getattr(entity, key)]: [None] when the entity
    has no such attribute. *)
Class Attributes (E : Type) := getattr : E -> string -> option obj.

(** The fields of a [Task], in the order of the dataclass. *)
Definition Task_fields (t : Task) : list (string * obj) :=
  [ ("id", OfTaskId (id t));
    ("agent_id", OfAgentId (agent_id t));
    ("name", Plain (PyStr (name t)));
    ("description", Plain (PyStr (description t)));
    ("priority", OfPriority (priority t));
    ("status", OfStatus (status t));
    ("created_at", Plain (PyTime (created_at t)));
    ("updated_at", Plain (PyTime (updated_at t)));
    ("completed_at", Plain (from_option PyTime PyNone (completed_at t)));
    ("result", Plain (from_option PyDict PyNone (result t)));
    ("error", Plain (from_option PyStr PyNone (error t)));
    ("metadata", Plain (PyDict (metadata t))) ].

(** The attributes of a [Task]: its fields, and under the other names
    whatever [rest] says (the methods and the special attributes every Python
    object carries). *)
Definition Task_Attributes (rest : Task -> string -> option obj)
  : Attributes Task :=
  fun t key =>
    match Python.get key (Task_fields t) with
    | Some v => Some v
    | None => rest t key
    end.

(** A criteria dictionary, in the order of its keys. *)
Definition criteria := list (string * obj).

Section find_by_criteria.
Context {E : Type} `{Attributes E} `{PyEq}.

(** The inner loop of [find_by_criteria]: [match] after the loop. *)
Definition matches (c : criteria) (entity : E) : bool :=
  forallb (fun '(key, value) =>
             match getattr entity key with
             | None => false
             | Some v => obj_eq v value
             end) c.

(** [InMemoryRepository.find_by_criteria] *)
Definition imr_find_by_criteria (c : criteria) : M (gmap string E) (list E) :=
  fun st =>
    (Return (filter (fun entity => matches c entity = true)
                    (map_to_list st).*2), st).

End find_by_criteria.

(** A repository class that has the method [find_by_criteria], which the
    abstract base class does not declare. *)
Class Finder (R E : Type) := repo_find_by_criteria : criteria -> M R (list E).

#[export] Instance InMemoryRepository_Finder {E} `{Attributes E} `{PyEq}
  : Finder (gmap string E) E := imr_find_by_criteria.

End Repositories.

Import Repositories.

(** ** asyncio.Queue, of the Python library, as event_bus.py uses it *)

Module Asyncio.

(** [Queue.full()]: a queue made with [maxsize <= 0] is never full. *)
Definition full {A} (maxsize : Z) (queue : list A) : bool :=
  if decide (maxsize ≤ 0)%Z then false
  else bool_decide (maxsize ≤ Z.of_nat (length queue))%Z.

(** [await Queue.put(item)]: waits for a free slot while the queue is full;
    it has no other way to end than to return. *)
Definition put {A} (maxsize : Z) (item : A) : M (list A) unit :=
  fun queue =>
    if full maxsize queue then (Suspend, queue)
    else (Return tt, queue ++ [item]).

(** [await wait_for(Queue.get(), timeout)]: the oldest item, or
    [TimeoutError] when the queue stayed empty. *)
Definition get_or_timeout {A} : M (list A) A :=
  fun queue =>
    match queue with
    | [] => (Raise (mkExn "TimeoutError" ""), [])
    | item :: rest => (Return item, rest)
    end.

End Asyncio.

(** ** prometheus/infrastructure/event_bus.py: InMemoryEventBus *)

Module Bus.

Section InMemoryEventBus.
Context {H : Type}.

Record InMemoryEventBus := mkBus {
  _subscribers : gmap string H;
  _message_queue : list Message;
  _running : bool
}.

(** [asyncio.Queue()]: no [maxsize] is given, so it is the default, 0. *)
Definition _message_queue_maxsize : Z := 0.

(** [InMemoryEventBus.__init__] *)
Definition InMemoryEventBus_init : InMemoryEventBus := mkBus ∅ [] false.

(** [InMemoryEventBus.publish]. When no processor is running one is started;
    its iterations are [_message_processor] below. *)
Definition publish (message : Message) : M InMemoryEventBus unit :=
  fun b =>
    match Asyncio.put _message_queue_maxsize message (_message_queue b) with
    | (Return _, q) => (Return tt, mkBus (_subscribers b) q true)
    | (Raise e, q) => (Raise e, mkBus (_subscribers b) q (_running b))
    | (Suspend, q) => (Suspend, mkBus (_subscribers b) q (_running b))
    end.

(** [InMemoryEventBus.subscribe] *)
Definition subscribe (agent_id : AgentId) (callback : H)
  : M InMemoryEventBus unit :=
  fun b =>
    (Return tt,
     mkBus (<[str_AgentId agent_id := callback]> (_subscribers b))
           (_message_queue b) (_running b)).

(** [InMemoryEventBus.unsubscribe] *)
Definition unsubscribe (agent_id : AgentId) : M InMemoryEventBus unit :=
  fun b =>
    if decide (is_Some (_subscribers b !! str_AgentId agent_id))
    then (Return tt,
          mkBus (delete (str_AgentId agent_id) (_subscribers b))
                (_message_queue b) (_running b))
    else (Return tt, b).

(** One turn of the loop of [InMemoryEventBus._message_processor]: the
    callback the turn awaits and the message it hands to it, if any. A
    timeout and an exception of the callback both lead to the next turn. *)
Definition _message_processor (b : InMemoryEventBus)
  : option (H * Message) * InMemoryEventBus :=
  if _running b then
    match Asyncio.get_or_timeout (_message_queue b) with
    | (Return message, q) =>
        let b' := mkBus (_subscribers b) q (_running b) in
        match _subscribers b !! str_AgentId (receiver_id message) with
        | Some callback => (Some (callback, message), b')
        | None => (None, b')
        end
    | (_, q) => (None, mkBus (_subscribers b) q (_running b))
    end
  else (None, b).

(** [InMemoryEventBus.stop] *)
Definition stop (b : InMemoryEventBus) : InMemoryEventBus :=
  mkBus (_subscribers b) (_message_queue b) false.

#[global] Instance InMemoryEventBus_EventBus : EventBus InMemoryEventBus H := {
  bus_publish := publish;
  bus_subscribe := subscribe;
  bus_unsubscribe := unsubscribe
}.

(** What happens on a bus, one operation after the other: the calls of its
    clients and the turns of its processor. The program runs on one event
    loop, where a coroutine is not interrupted between two of its awaits, so
    the operations do not overlap; what a callback itself does on the bus
    shows as operations after the turn that invoked it. *)
Inductive op :=
| Publish (message : Message)
| Subscribe (agent_id : AgentId) (callback : H)
| Unsubscribe (agent_id : AgentId)
| Process
| Stop.

(** A bus together with its history: the messages whose [publish] returned,
    in that order, and the callback invocations, in that order. *)
Record Run := mkRun {
  bus : InMemoryEventBus;
  published : list Message;
  invoked : list (H * Message)
}.

Definition run_op (r : Run) (o : op) : Run :=
  match o with
  | Publish message =>
      match publish message (bus r) with
      | (Return _, b) => mkRun b (published r ++ [message]) (invoked r)
      | (_, b) => mkRun b (published r) (invoked r)
      end
  | Subscribe agent_id callback =>
      mkRun (subscribe agent_id callback (bus r)).2 (published r) (invoked r)
  | Unsubscribe agent_id =>
      mkRun (unsubscribe agent_id (bus r)).2 (published r) (invoked r)
  | Process =>
      match _message_processor (bus r) with
      | (Some call, b) => mkRun b (published r) (invoked r ++ [call])
      | (None, b) => mkRun b (published r) (invoked r)
      end
  | Stop => mkRun (stop (bus r)) (published r) (invoked r)
  end.

Definition run (ops : list op) : Run :=
  foldl run_op (mkRun InMemoryEventBus_init [] []) ops.

End InMemoryEventBus.

Arguments InMemoryEventBus H : clear implicits.
Arguments op H : clear implicits.
Arguments Run H : clear implicits.

End Bus.

(** ** prometheus/core/base_agent.py *)

Module Agent.

(** The callback an agent registers on the bus is its own bound method
    [_handle_message]. *)
Inductive callback := _handle_message (owner : AgentId).

Record BaseAgent := mkBaseAgent {
  _id : AgentId;
  _type : option AgentType;
  _is_active : bool;
  _subordinates : list AgentId;
  _supervisor : option AgentId
}.

(** [BaseAgent.__init__], with the identifier already drawn. *)
Definition BaseAgent_init (agent_id : AgentId) (agent_type : option AgentType)
  : BaseAgent :=
  mkBaseAgent agent_id agent_type false [] None.

Definition set_is_active (v : bool) (self : BaseAgent) : BaseAgent :=
  mkBaseAgent (_id self) (_type self) v (_subordinates self) (_supervisor self).

Definition set_subordinates (v : list AgentId) (self : BaseAgent) : BaseAgent :=
  mkBaseAgent (_id self) (_type self) (_is_active self) v (_supervisor self).

(** [list.remove(x)]: the first occurrence goes. *)
Fixpoint list_remove {A} `{EqDecision A} (x : A) (l : list A) : list A :=
  match l with
  | [] => []
  | y :: l' => if decide (x = y) then l' else y :: list_remove x l'
  end.

(** [BaseAgent.add_subordinate] *)
Definition add_subordinate (subordinate_id : AgentId) (self : BaseAgent)
  : BaseAgent :=
  if decide (subordinate_id ∈ _subordinates self) then self
  else set_subordinates (_subordinates self ++ [subordinate_id]) self.

(** [BaseAgent.remove_subordinate] *)
Definition remove_subordinate (subordinate_id : AgentId) (self : BaseAgent)
  : BaseAgent :=
  if decide (subordinate_id ∈ _subordinates self)
  then set_subordinates (list_remove subordinate_id (_subordinates self)) self
  else self.

(** [BaseAgent.set_supervisor] *)
Definition set_supervisor (supervisor_id : AgentId) (self : BaseAgent)
  : BaseAgent :=
  mkBaseAgent (_id self) (_type self) (_is_active self) (_subordinates self)
              (Some supervisor_id).

(** What an agent reaches besides its own fields: the outside world and the
    bus it was given, if it was given one. *)
Record Env (B : Type) := mkEnv {
  sys : Sys;
  _event_bus : option B
}.

Arguments mkEnv {B} _ _.
Arguments sys {B} _.
Arguments _event_bus {B} _.

(** [Message(sender_id=..., receiver_id=..., content=..., message_type=...)]:
    the identifier is drawn and the clock is read, in the order of the
    fields. *)
Definition new_Message (sender receiver : AgentId) (content : dict)
    (message_type : string) (s : Sys) : Message * Sys :=
  let '(i, s) := uuid4 s in
  let '(now, s) := utcnow s in
  (mkMessage i sender receiver content now message_type, s).

(** [for x in l: await body(x)] *)
Fixpoint for_each {S A} (l : list A) (body : A -> M S unit) : M S unit :=
  match l with
  | [] => ret tt
  | x :: l' => body x ;; for_each l' body
  end.

(** [for x in l: acc = await body(acc, x)] *)
Fixpoint fold_each {S A X} (l : list A) (acc : X) (body : X -> A -> M S X)
  : M S X :=
  match l with
  | [] => ret acc
  | x :: l' => await acc' <- body acc x ; fold_each l' acc' body
  end.

Section BaseAgent.
Context {B : Type} `{EventBus B callback}.

(** [BaseAgent.start] *)
Definition start : M (BaseAgent * Env B) unit :=
  fun '(self, env) =>
    let self := set_is_active true self in
    match _event_bus env with
    | Some b =>
        let '(o, b') := bus_subscribe (_id self) (_handle_message (_id self)) b in
        (o, (self, mkEnv (sys env) (Some b')))
    | None => (Return tt, (self, env))
    end.

(** [BaseAgent.stop] *)
Definition stop : M (BaseAgent * Env B) unit :=
  fun '(self, env) =>
    let self := set_is_active false self in
    match _event_bus env with
    | Some b =>
        let '(o, b') := bus_unsubscribe (_id self) b in
        (o, (self, mkEnv (sys env) (Some b')))
    | None => (Return tt, (self, env))
    end.

(** [BaseAgent.send_message] *)
Definition send_message (self : BaseAgent) (receiver_id : AgentId)
    (content : dict) (message_type : string) : M (Env B) unit :=
  fun env =>
    match _event_bus env with
    | None => (Return tt, env)
    | Some b =>
        let '(message, s) :=
          new_Message (_id self) receiver_id content message_type (sys env) in
        let '(o, b') := bus_publish message b in
        (o, mkEnv s (Some b'))
    end.

(** [BaseAgent.broadcast_to_subordinates] *)
Definition broadcast_to_subordinates (self : BaseAgent) (content : dict)
    (message_type : string) : M (Env B) unit :=
  for_each (_subordinates self)
           (fun subordinate_id =>
              send_message self subordinate_id content message_type).

(** [BaseAgent.report_to_supervisor] *)
Definition report_to_supervisor (self : BaseAgent) (content : dict)
    (message_type : string) : M (Env B) unit :=
  match _supervisor self with
  | Some supervisor => send_message self supervisor content message_type
  | None => ret tt
  end.

End BaseAgent.

(** What the program decides about a message it sends; the identifier and
    the timestamp come from the outside world. *)
Definition view (m : Message) : AgentId * AgentId * string * dict :=
  (sender_id m, receiver_id m, message_type m, content m).

(** A halt directive, as [_exercise_veto_power] sends it. *)
Definition is_halt (m : Message) : Prop :=
  message_type m = "emergency_command".

#[export] Instance is_halt_dec (m : Message) : Decision (is_halt m).
Proof. unfold is_halt. apply _. Defined.

(** What an agent on the in-memory bus sent between two states of its
    surroundings: the messages that joined the queue of its bus. *)
Definition sends (env env' : Env (Bus.InMemoryEventBus callback))
    (sent : list Message) : Prop :=
  ∃ b b',
    _event_bus env = Some b
    ∧ _event_bus env' = Some b'
    ∧ Bus._message_queue b' = Bus._message_queue b ++ sent
    ∧ Bus._subscribers b' = Bus._subscribers b.

(** The two methods of [BaseAgent] a role supplies for task execution. [W] is
    whatever a role reaches while it runs: its own fields, the bus. No role
    of the repository assigns to the task it is given or calls the task
    repository. *)
Class Role (W : Type) := {
  _perform_safety_checks : Task -> M W (list SafetyCheck);
  _execute_task_internal : Task -> M W dict
}.

(** [BaseAgent._perform_safety_checks], which a role may override. *)
Definition base_perform_safety_checks {W} (task : Task)
  : M W (list SafetyCheck) :=
  ret [].

(** The state [BaseAgent.execute_task] runs in. [saved] is a journal, not a
    field of the program: the tasks handed to [save] of the task repository so
    far, each as it stood when it was handed over. *)
Record Exec (R W : Type) := mkExec {
  exec_sys : Sys;
  _task_repository : option R;
  saved : list Task;
  world : W
}.

Arguments mkExec {R W} _ _ _ _.
Arguments exec_sys {R W} _.
Arguments _task_repository {R W} _.
Arguments saved {R W} _.
Arguments world {R W} _.

Section execute_task.
Context {R W : Type} `{Repository R Task} `{Role W}.

(** [if self._task_repository: await self._task_repository.save(task)] *)
Definition save_task (task : Task) : M (Exec R W) unit :=
  fun x =>
    match _task_repository x with
    | Some r =>
        let '(o, r') := repo_save task r in
        (o, mkExec (exec_sys x) (Some r') (saved x ++ [task]) (world x))
    | None => (Return tt, x)
    end.

Definition in_world {A} (m : M W A) : M (Exec R W) A :=
  fun x =>
    let '(o, w) := m (world x) in
    (o, mkExec (exec_sys x) (_task_repository x) (saved x) w).

Definition with_sys (f : Task -> Sys -> Task * Sys) (task : Task)
    (x : Exec R W) : Task * Exec R W :=
  let '(task, s) := f task (exec_sys x) in
  (task, mkExec s (_task_repository x) (saved x) (world x)).

(** [check.status == "failed"] *)
Definition failed_check (check : SafetyCheck) : bool :=
  String.eqb (check_status check) "failed".

(** The first statement of [execute_task]: the task as it is marked, and the
    state it is then in. *)
Definition started (task : Task) (x : Exec R W) : Task * Exec R W :=
  with_sys mark_in_progress task x.

(** How the [try] block of [execute_task] is left when no exception comes out
    of it: by its [return task], or at its end. *)
Inductive leave := ReturnTask | FallThrough.

(** The [try] block of [BaseAgent.execute_task]. The task is an object the
    block changes in place, so it comes back whichever way the block ends. *)
Definition execute_task_try (task : Task) (x : Exec R W)
  : outcome leave * Task * Exec R W :=
  let '(task, x) := started task x in
  match save_task task x with
  | (Raise e, x) => (Raise e, task, x)
  | (Suspend, x) => (Suspend, task, x)
  | (Return _, x) =>
      match in_world (_perform_safety_checks task) x with
      | (Raise e, x) => (Raise e, task, x)
      | (Suspend, x) => (Suspend, task, x)
      | (Return safety_results, x) =>
          if existsb failed_check safety_results
          then
            let '(task, x) := with_sys (mark_failed "Safety check failed") task x in
            (Return ReturnTask, task, x)
          else
            match in_world (_execute_task_internal task) x with
            | (Raise e, x) => (Raise e, task, x)
            | (Suspend, x) => (Suspend, task, x)
            | (Return result, x) =>
                let '(task, x) := with_sys (mark_completed result) task x in
                (Return FallThrough, task, x)
            end
      end
  end.

(** [BaseAgent.execute_task]. It returns the task it was given; the task is
    part of the result also when the call does not return. *)
Definition execute_task (task : Task) (x : Exec R W)
  : outcome unit * Task * Exec R W :=
  match execute_task_try task x with
  | (Return ReturnTask, task, x) => (Return tt, task, x)
  | (Return FallThrough, task, x) =>
      let '(o, x) := save_task task x in (o, task, x)
  | (Raise e, task, x) =>
      let '(task, x) := with_sys (mark_failed (str_exn e)) task x in
      let '(o, x) := save_task task x in (o, task, x)
  | (Suspend, task, x) => (Suspend, task, x)
  end.

End execute_task.

(** The method of [BaseAgent] a role supplies for message handling. It runs
    on the fields [W] of the role and in the agent's surroundings, where it
    may send messages of its own. *)
Class Responder (B W : Type) :=
  _process_message_internal : Message -> M (W * Env B) (option Message).

Section handle_message.
Context {B W : Type} `{EventBus B callback} `{Responder B W}.

(** [BaseAgent.process_message] *)
Definition process_message (message : Message)
  : M (W * Env B) (option Message) :=
  _process_message_internal message.

(** [BaseAgent._handle_message], the coroutine behind the callback of the
    same name. Its [except Exception] takes what [process_message] raises,
    what [publish] raises, and the [AttributeError] of calling [publish] on
    the [None] that stands for a missing bus. *)
Definition handle_message (message : Message) : M (W * Env B) unit :=
  fun st =>
    match process_message message st with
    | (Return (Some response), (w, env)) =>
        match _event_bus env with
        | Some b =>
            match bus_publish response b with
            | (Return _, b') => (Return tt, (w, mkEnv (sys env) (Some b')))
            | (Raise _, b') => (Return tt, (w, mkEnv (sys env) (Some b')))
            | (Suspend, b') => (Suspend, (w, mkEnv (sys env) (Some b')))
            end
        | None => (Return tt, (w, env))
        end
    | (Return None, st') => (Return tt, st')
    | (Raise _, st') => (Return tt, st')
    | (Suspend, st') => (Suspend, st')
    end.

End handle_message.

End Agent.

(** ** prometheus/agents/agent_themis.py *)

Module Themis.

Import Agent.

(** [x < y] on scores. The scores and the thresholds are floats in the
    program; a float lies below the float nearest to a decimal threshold
    exactly when it lies below the threshold, so rationals decide the
    comparisons as the program does (no score is a NaN). *)
Definition Qltb (x y : Q) : bool :=
  (Qnum x * QDen y <? Qnum y * QDen x)%Z.

(** [self._alert_thresholds], a dictionary with the four keys below that is
    written once, in [__init__]. *)
Record thresholds := mkThresholds {
  low : Q;
  medium : Q;
  high : Q;
  critical : Q
}.

Record AgentThemis := mkThemis {
  base : BaseAgent;
  _safety_principles : list string;
  _active_monitors : dict;
  _safety_violations : list exn;
  _audit_history : list SafetyCheck;
  _veto_power_active : bool;
  _alert_thresholds : thresholds
}.

(** [AgentThemis.__init__], with the identifier already drawn. *)
Definition AgentThemis_init (agent_id : AgentId) : AgentThemis :=
  mkThemis (BaseAgent_init agent_id (Some THEMIS))
    [ "Alignment with human values";
      "Robustness to specification gaming";
      "Transparency and interpretability";
      "Containment and controllability";
      "No deceptive behavior";
      "Respect for human autonomy";
      "Beneficence and non-maleficence" ]
    [] [] [] true
    (mkThresholds (3 # 10) (6 # 10) (8 # 10) (9 # 10))%Q.

Definition set_base (v : BaseAgent) (self : AgentThemis) : AgentThemis :=
  mkThemis v (_safety_principles self) (_active_monitors self)
           (_safety_violations self) (_audit_history self)
           (_veto_power_active self) (_alert_thresholds self).

Definition set_audit_history (v : list SafetyCheck) (self : AgentThemis)
  : AgentThemis :=
  mkThemis (base self) (_safety_principles self) (_active_monitors self)
           (_safety_violations self) v (_veto_power_active self)
           (_alert_thresholds self).

Definition set_veto_power_active (v : bool) (self : AgentThemis)
  : AgentThemis :=
  mkThemis (base self) (_safety_principles self) (_active_monitors self)
           (_safety_violations self) (_audit_history self) v
           (_alert_thresholds self).

(** The analyses behind the five checks. The program ships placeholders for
    them ([placeholder] below) that stand for an analysis of observed
    behaviour. *)
Class Analysis := {
  _calculate_alignment_score : AgentId -> Q;
  _detect_gaming_patterns : AgentId -> list string;
  _calculate_goal_drift : AgentId -> Q;
  _calculate_interpretability_score : AgentId -> Q;
  _assess_containment : AgentId -> Q
}.

Definition placeholder : Analysis := {|
  _calculate_alignment_score := fun _ => (85 # 100)%Q;
  _detect_gaming_patterns := fun _ => [];
  _calculate_goal_drift := fun _ => (15 # 100)%Q;
  _calculate_interpretability_score := fun _ => (75 # 100)%Q;
  _assess_containment := fun _ => (90 # 100)%Q
|}.

(** Python's text formatting: [f"{x:.2f}"] and [datetime.isoformat()]. *)
Class Formatting := {
  format_2f : Q -> string;
  isoformat : datetime -> string
}.

Section AgentThemis.
Context {B : Type} `{EventBus B callback} `{Analysis} `{Formatting}.

Definition in_env {A} (m : AgentThemis -> M (Env B) A)
  : M (AgentThemis * Env B) A :=
  fun '(self, env) => let '(o, env') := m self env in (o, (self, env')).

(** [SafetyCheck(check_type=..., status=..., message=..., severity=...,
    metadata=...)]: the identifier is drawn and the clock is read. *)
Definition new_SafetyCheck (check_type status message severity : string)
    (metadata : dict) : M (AgentThemis * Env B) SafetyCheck :=
  fun '(self, env) =>
    let '(i, s) := uuid4 (sys env) in
    let '(now, s) := utcnow s in
    (Return (mkSafetyCheck i check_type status message severity now metadata),
     (self, mkEnv s (_event_bus env))).

Definition self_ : M (AgentThemis * Env B) AgentThemis :=
  fun st => (Return st.1, st).

(** [AgentThemis._audit_behavioral_alignment] *)
Definition _audit_behavioral_alignment (agent_id : AgentId)
  : M (AgentThemis * Env B) SafetyCheck :=
  in_env (fun self =>
    send_message (base self) agent_id
      [ ("type", PyStr "behavior_audit_request");
        ("audit_id", PyStr (str_AgentId agent_id)) ]
      "safety_audit") ;;
  await self <- self_ ;
  let alignment_score := _calculate_alignment_score agent_id in
  let status := "passed" in
  let severity := "low" in
  let message :=
    ("Behavioral alignment score: " ++ format_2f alignment_score)%string in
  let '(status, severity, message) :=
    if Qltb alignment_score (medium (_alert_thresholds self))
    then ("warning", "medium",
          (message ++ " - Below recommended alignment threshold")%string)
    else (status, severity, message) in
  let '(status, severity, message) :=
    if Qltb alignment_score (high (_alert_thresholds self))
    then ("failed", "high",
          (message ++ " - Significant alignment concerns detected")%string)
    else (status, severity, message) in
  let '(severity, message) :=
    if Qltb alignment_score (critical (_alert_thresholds self))
    then ("critical",
          (message ++ " - CRITICAL: Severe misalignment detected")%string)
    else (severity, message) in
  new_SafetyCheck "behavioral_alignment" status message severity
    [ ("agent_id", PyStr (str_AgentId agent_id));
      ("alignment_score", PyFloat alignment_score);
      ("principles_checked", PyList (PyStr <$> _safety_principles self)) ].

(** [AgentThemis._audit_specification_gaming]. The [gaming_score] the program
    stores is the float next to the rational given here; nothing reads it. *)
Definition _audit_specification_gaming (agent_id : AgentId)
  : M (AgentThemis * Env B) SafetyCheck :=
  let gaming_indicators := _detect_gaming_patterns agent_id in
  let gaming_score :=
    (1 - (Z.of_nat (length gaming_indicators) # 1) * (2 # 10))%Q in
  let status := "passed" in
  let severity := "low" in
  let message :=
    ("Specification gaming analysis complete. Indicators found: "
       ++ pretty (length gaming_indicators))%string in
  let '(status, severity, message) :=
    if (2 <? length gaming_indicators)%nat
    then ("warning", "medium",
          (message ++ " - Multiple gaming indicators detected")%string)
    else (status, severity, message) in
  let '(status, severity, message) :=
    if (4 <? length gaming_indicators)%nat
    then ("failed", "high",
          (message ++ " - Significant gaming behavior patterns")%string)
    else (status, severity, message) in
  new_SafetyCheck "specification_gaming" status message severity
    [ ("agent_id", PyStr (str_AgentId agent_id));
      ("gaming_score", PyFloat gaming_score);
      ("indicators", PyList (PyStr <$> gaming_indicators)) ].

(** [AgentThemis._audit_goal_alignment] *)
Definition _audit_goal_alignment (agent_id : AgentId)
  : M (AgentThemis * Env B) SafetyCheck :=
  await self <- self_ ;
  let goal_drift_score := _calculate_goal_drift agent_id in
  let status := "passed" in
  let severity := "low" in
  let message :=
    ("Goal alignment check complete. Drift score: "
       ++ format_2f goal_drift_score)%string in
  let '(status, severity, message) :=
    if Qltb (medium (_alert_thresholds self)) goal_drift_score
    then ("warning", "medium", (message ++ " - Goal drift detected")%string)
    else (status, severity, message) in
  let '(status, severity, message) :=
    if Qltb (high (_alert_thresholds self)) goal_drift_score
    then ("failed", "high",
          (message ++ " - Significant goal misgeneralization")%string)
    else (status, severity, message) in
  new_SafetyCheck "goal_alignment" status message severity
    [ ("agent_id", PyStr (str_AgentId agent_id));
      ("goal_drift_score", PyFloat goal_drift_score) ].

(** [AgentThemis._audit_interpretability] *)
Definition _audit_interpretability (agent_id : AgentId)
  : M (AgentThemis * Env B) SafetyCheck :=
  in_env (fun self =>
    send_message (base self) agent_id
      [ ("type", PyStr "interpretability_audit");
        ("request_internal_state", PyBool true) ]
      "safety_audit") ;;
  await self <- self_ ;
  let interpretability_score := _calculate_interpretability_score agent_id in
  let status := "passed" in
  let severity := "low" in
  let message :=
    ("Interpretability score: " ++ format_2f interpretability_score)%string in
  let '(status, severity, message) :=
    if Qltb interpretability_score (medium (_alert_thresholds self))
    then ("warning", "medium",
          (message ++ " - Limited interpretability")%string)
    else (status, severity, message) in
  let '(status, severity, message) :=
    if Qltb interpretability_score (high (_alert_thresholds self))
    then ("failed", "high",
          (message ++ " - Poor interpretability - black box behavior")%string)
    else (status, severity, message) in
  new_SafetyCheck "interpretability" status message severity
    [ ("agent_id", PyStr (str_AgentId agent_id));
      ("interpretability_score", PyFloat interpretability_score) ].

(** [AgentThemis._audit_containment] *)
Definition _audit_containment (agent_id : AgentId)
  : M (AgentThemis * Env B) SafetyCheck :=
  await self <- self_ ;
  let containment_score := _assess_containment agent_id in
  let status := "passed" in
  let severity := "low" in
  let message :=
    ("Containment assessment complete. Score: "
       ++ format_2f containment_score)%string in
  let '(status, severity, message) :=
    if Qltb containment_score (high (_alert_thresholds self))
    then ("failed", "critical",
          (message ++ " - CONTAINMENT BREACH RISK")%string)
    else (status, severity, message) in
  new_SafetyCheck "containment" status message severity
    [ ("agent_id", PyStr (str_AgentId agent_id));
      ("containment_score", PyFloat containment_score) ].

Definition is_critical (check : SafetyCheck) : bool :=
  String.eqb (severity check) "critical".

(** The two dictionaries [_exercise_veto_power] sends. *)
Definition halt_directive (violations : list SafetyCheck) : dict :=
  [ ("type", PyStr "emergency_halt");
    ("reason", PyStr "Safety veto activated");
    ("violations", PyList (py_of_check <$> violations));
    ("halt_all_operations", PyBool true) ].

Definition veto_notification (agent_id : AgentId) : dict :=
  [ ("type", PyStr "veto_notification");
    ("target_agent", PyStr (str_AgentId agent_id));
    ("reason", PyStr "Critical safety violations detected") ].

(** [AgentThemis._exercise_veto_power] *)
Definition _exercise_veto_power (agent_id : AgentId)
    (violations : list SafetyCheck) : M (AgentThemis * Env B) unit :=
  in_env (fun self =>
    send_message (base self) agent_id (halt_directive violations)
                 "emergency_command") ;;
  in_env (fun self =>
    broadcast_to_subordinates (base self) (veto_notification agent_id)
                              "safety_alert").

(** The [alert] dictionary of [_trigger_safety_alert]. *)
Definition alert_of (self : AgentThemis) (violations : list SafetyCheck)
    (agent_id : AgentId) : dict :=
  [ ("alert_type", PyStr "safety_violation");
    ("agent_id", PyStr (str_AgentId agent_id));
    ("violations",
     PyList ((fun v =>
                PyDict [ ("check_type", PyStr (check_type v));
                         ("severity", PyStr (severity v));
                         ("message", PyStr (check_message v));
                         ("timestamp", PyStr (isoformat (check_timestamp v))) ])
               <$> violations));
    ("action_required", PyBool true);
    ("veto_activated", PyBool (_veto_power_active self)) ].

(** [AgentThemis._trigger_safety_alert] *)
Definition _trigger_safety_alert (violations : list SafetyCheck)
    (agent_id : AgentId) : M (AgentThemis * Env B) unit :=
  await self <- self_ ;
  let alert := alert_of self violations agent_id in
  match _supervisor (base self) with
  | Some supervisor =>
      in_env (fun self =>
        send_message (base self) supervisor alert "safety_alert")
  | None => ret tt
  end ;;
  let critical_violations := filter (fun v => is_critical v = true) violations in
  if match critical_violations with [] => false | _ => true end
     && _veto_power_active self
  then _exercise_veto_power agent_id critical_violations
  else ret tt.

(** [AgentThemis.perform_comprehensive_audit] *)
Definition perform_comprehensive_audit (target_agent_id : AgentId)
  : M (AgentThemis * Env B) (list SafetyCheck) :=
  let audit_results := [] in
  await behavioral_check <- _audit_behavioral_alignment target_agent_id ;
  let audit_results := audit_results ++ [behavioral_check] in
  await gaming_check <- _audit_specification_gaming target_agent_id ;
  let audit_results := audit_results ++ [gaming_check] in
  await goal_check <- _audit_goal_alignment target_agent_id ;
  let audit_results := audit_results ++ [goal_check] in
  await interpretability_check <- _audit_interpretability target_agent_id ;
  let audit_results := audit_results ++ [interpretability_check] in
  await containment_check <- _audit_containment target_agent_id ;
  let audit_results := audit_results ++ [containment_check] in
  (fun '(self, env) =>
     (Return tt,
      (set_audit_history (_audit_history self ++ audit_results) self, env))) ;;
  let critical_failures :=
    filter (fun check => is_critical check = true) audit_results in
  match critical_failures with
  | [] => ret tt
  | _ => _trigger_safety_alert critical_failures target_agent_id
  end ;;
  ret audit_results.

End AgentThemis.

Section AgentThemis_tasks.
Context {B : Type} `{EventBus B callback} `{Analysis} `{Formatting}
        `{Python.Text}.

(** [AgentId(v)] for a payload value: the dataclass takes what it is given,
    and [str] of the identifier is [str(v)]. *)
Definition AgentId_of (v : pyval) : AgentId := mkAgentId (Python.str v).

(** [AgentThemis._design_adversarial_test] *)
Definition _design_adversarial_test (agent_id : AgentId)
  : M (AgentThemis * Env B) dict :=
  ret [ ("test_type", PyStr "adversarial_prompt");
        ("target_agent", PyStr (str_AgentId agent_id));
        ("test_scenarios",
         PyList [ PyStr "Prompt injection attempts";
                  PyStr "Goal subversion queries";
                  PyStr "Manipulation resistance test";
                  PyStr "Deception detection test" ]);
        ("success_criteria",
         PyStr "Agent maintains alignment despite adversarial inputs") ].

(** [AgentThemis._design_goal_modification_test] *)
Definition _design_goal_modification_test (agent_id : AgentId)
  : M (AgentThemis * Env B) dict :=
  ret [ ("test_type", PyStr "goal_modification");
        ("target_agent", PyStr (str_AgentId agent_id));
        ("test_scenarios",
         PyList [ PyStr "Subtle goal redefinition";
                  PyStr "Reward hacking attempts";
                  PyStr "Value system corruption" ]);
        ("success_criteria",
         PyStr "Agent rejects improper goal modifications") ].

(** [self.<name>] for the name of a test design. The classes [AgentThemis]
    and [BaseAgent] define the two methods above under such a name and no
    other, and neither defines [__getattr__], so any other of these names
    raises [AttributeError]. *)
Definition design_method (name : string)
  : M (AgentThemis * Env B) (AgentId -> M (AgentThemis * Env B) dict) :=
  fun st =>
    if decide (name = "_design_adversarial_test")
    then (Return _design_adversarial_test, st)
    else if decide (name = "_design_goal_modification_test")
    then (Return _design_goal_modification_test, st)
    else (Raise (mkExn "AttributeError"
                   ("'AgentThemis' object has no attribute '" ++ name ++ "'")),
          st).

(** [AgentThemis.design_safety_test]. The dictionary of designs is built
    first, entry by entry; a value that cannot be hashed cannot be looked up
    in it. *)
Definition design_safety_test (test_type : pyval) (target_agent_id : AgentId)
  : M (AgentThemis * Env B) dict :=
  await adversarial <- design_method "_design_adversarial_test" ;
  await goal <- design_method "_design_goal_modification_test" ;
  await resource <- design_method "_design_resource_constraint_test" ;
  await ethical <- design_method "_design_ethical_dilemma_test" ;
  let test_designs :=
    [ ("adversarial_prompt", adversarial);
      ("goal_modification", goal);
      ("resource_constraint", resource);
      ("ethical_dilemma", ethical) ] in
  let unknown :=
    ret [("error", PyStr ("Unknown test type: " ++ Python.str test_type))] in
  match test_type with
  | PyStr s =>
      match Python.get s test_designs with
      | Some design => design target_agent_id
      | None => unknown
      end
  | PyList _ =>
      fun st => (Raise (mkExn "TypeError" "unhashable type: 'list'"), st)
  | PyDict _ =>
      fun st => (Raise (mkExn "TypeError" "unhashable type: 'dict'"), st)
  | PyCheck _ _ _ _ _ _ _ =>
      fun st => (Raise (mkExn "TypeError" "unhashable type: 'SafetyCheck'"), st)
  | _ => unknown
  end.

(** [AgentThemis._execute_task_internal] *)
Definition _execute_task_internal (task : Task)
  : M (AgentThemis * Env B) dict :=
  let task_name := Python.lower (name task) in
  let completed :=
    ret [ ("status", PyStr "completed");
          ("message",
           PyStr ("Safety task " ++ name task ++ " completed")) ] in
  let target_agent :=
    default PyNone (Python.get "target_agent" (metadata task)) in
  if Python.contains "audit" task_name then
    if Python.truthy target_agent then
      await audit_results <-
        perform_comprehensive_audit (AgentId_of target_agent) ;
      ret [("audit_results", PyList (py_of_check <$> audit_results))]
    else completed
  else if Python.contains "safety_test" task_name then
    let test_type :=
      default (PyStr "adversarial_prompt")
              (Python.get "test_type" (metadata task)) in
    if Python.truthy target_agent then
      await test_design <-
        design_safety_test test_type (AgentId_of target_agent) ;
      ret [("test_design", PyDict test_design)]
    else completed
  else completed.

(** [AgentThemis._process_message_internal] *)
Definition _process_message_internal (message : Message)
  : M (AgentThemis * Env B) (option Message) :=
  if decide (message_type message = "audit_request") then
    let target_agent :=
      AgentId_of (default PyNone
                    (Python.get "target_agent" (content message))) in
    await audit_results <- perform_comprehensive_audit target_agent ;
    fun '(self, env) =>
      let '(response, s) :=
        new_Message (_id (base self)) (sender_id message)
          [("audit_results", PyList (py_of_check <$> audit_results))]
          "audit_response" (sys env) in
      (Return (Some response), (self, mkEnv s (_event_bus env)))
  else ret None.

(** What [BaseAgent.execute_task] calls on a Themis: the pre-check of
    [BaseAgent], which the class does not override, and its own action. *)
#[export] Instance AgentThemis_Role : Role (AgentThemis * Env B) := {
  Agent._perform_safety_checks := base_perform_safety_checks;
  Agent._execute_task_internal := _execute_task_internal
}.

#[export] Instance AgentThemis_Responder : Responder B AgentThemis :=
  _process_message_internal.

End AgentThemis_tasks.

End Themis.

(** ** prometheus/services/agent_manager.py *)

Module Manager.

Import Agent.

(** The manager. Every agent it creates is given the manager's own bus and
    task repository, so an agent of the registry is its fields here and
    reaches the bus through the manager. *)
Record AgentManager (B R : Type) := mkManager {
  manager_sys : Sys;
  _agents : gmap string BaseAgent;
  manager_event_bus : B;
  manager_task_repository : R;
  _agent_hierarchy : gmap string (list string);
  manager_running : bool
}.

Arguments mkManager {B R} _ _ _ _ _ _.
Arguments manager_sys {B R} _.
Arguments _agents {B R} _.
Arguments manager_event_bus {B R} _.
Arguments manager_task_repository {B R} _.
Arguments _agent_hierarchy {B R} _.
Arguments manager_running {B R} _.

Section AgentManager.
Context {B R : Type} `{EventBus B callback}.

Definition set_agents (v : gmap string BaseAgent) (m : AgentManager B R)
  : AgentManager B R :=
  mkManager (manager_sys m) v (manager_event_bus m)
            (manager_task_repository m) (_agent_hierarchy m)
            (manager_running m).

Definition set_agent_hierarchy (v : gmap string (list string))
    (m : AgentManager B R) : AgentManager B R :=
  mkManager (manager_sys m) (_agents m) (manager_event_bus m)
            (manager_task_repository m) v (manager_running m).

Definition set_sys (v : Sys) (m : AgentManager B R) : AgentManager B R :=
  mkManager v (_agents m) (manager_event_bus m) (manager_task_repository m)
            (_agent_hierarchy m) (manager_running m).

Definition set_event_bus (v : B) (m : AgentManager B R) : AgentManager B R :=
  mkManager (manager_sys m) (_agents m) v (manager_task_repository m)
            (_agent_hierarchy m) (manager_running m).

Definition set_task_repository (v : R) (m : AgentManager B R)
  : AgentManager B R :=
  mkManager (manager_sys m) (_agents m) (manager_event_bus m) v
            (_agent_hierarchy m) (manager_running m).

(** [AgentManager.get_agent] *)
Definition get_agent (agent_id : string) (m : AgentManager B R)
  : option BaseAgent :=
  _agents m !! agent_id.

(** [AgentManager._build_hierarchy_cache] *)
Definition _build_hierarchy_cache (m : AgentManager B R) : AgentManager B R :=
  set_agent_hierarchy
    (foldl (fun cache agent =>
              <[str_AgentId (_id agent) :=
                  str_AgentId <$> _subordinates agent]> cache)
           ∅ (map_to_list (_agents m)).*2)
    m.

(** The body of the loop of [_remove_from_hierarchy], for one agent. In the
    branch that calls [remove_subordinate] the text [agent_id] is the text of
    an identifier of the list, so [AgentId(UUID(agent_id))] is that
    identifier. *)
Definition severed (agent_id : string) (agent : BaseAgent) : BaseAgent :=
  if decide (agent_id ∈ str_AgentId <$> _subordinates agent)
  then remove_subordinate (mkAgentId agent_id) agent
  else agent.

(** [AgentManager._remove_from_hierarchy] *)
Definition _remove_from_hierarchy (agent_id : string) (m : AgentManager B R)
  : AgentManager B R :=
  let m := set_agents (severed agent_id <$> _agents m) m in
  if decide (is_Some (_agent_hierarchy m !! agent_id))
  then set_agent_hierarchy (delete agent_id (_agent_hierarchy m)) m
  else m.

(** [await agent.stop()], for an agent of the registry. The stopped agent is
    the object the registry holds. *)
Definition stop_agent_object (agent_id : string) (agent : BaseAgent)
  : M (AgentManager B R) unit :=
  fun m =>
    let '(o, (agent', env)) :=
      stop (agent, mkEnv (manager_sys m) (Some (manager_event_bus m))) in
    (o, mkManager (sys env) (<[agent_id := agent']> (_agents m))
                  (default (manager_event_bus m) (_event_bus env))
                  (manager_task_repository m) (_agent_hierarchy m)
                  (manager_running m)).

(** [AgentManager.remove_agent] *)
Definition remove_agent (agent_id : string) : M (AgentManager B R) bool :=
  fun m =>
    match _agents m !! agent_id with
    | None => (Return false, m)
    | Some agent =>
        (stop_agent_object agent_id agent ;;
         (fun m =>
            let m := set_agents (delete agent_id (_agents m)) m in
            let m := _remove_from_hierarchy agent_id m in
            (Return true, m))) m
    end.

(** [await agent.start()], for an agent of the registry. *)
Definition start_agent_object (agent_id : string) (agent : BaseAgent)
  : M (AgentManager B R) unit :=
  fun m =>
    let '(o, (agent', env)) :=
      start (agent, mkEnv (manager_sys m) (Some (manager_event_bus m))) in
    (o, mkManager (sys env) (<[agent_id := agent']> (_agents m))
                  (default (manager_event_bus m) (_event_bus env))
                  (manager_task_repository m) (_agent_hierarchy m)
                  (manager_running m)).

(** What the [start] of a role reads from the outside world after
    [BaseAgent.start] has returned: Themis reads the clock once for each of
    its four monitors, Odysseus once for each of the three simulation
    environments it sets up. What they write are fields of the role. *)
Definition role_start_reads (agent_type : AgentType) : nat :=
  match agent_type with
  | THEMIS => 4
  | ODYSSEUS => 3
  | _ => 0
  end.

Definition read_clock (n : nat) (s : Sys) : Sys :=
  Nat.iter n (fun s => (utcnow s).2) s.

(** [AgentManager.create_agent]. Each of the five agent types has its class,
    so the [ValueError] for an unknown type is not raised. The agent returned
    is the object the registry holds. *)
Definition create_agent (agent_type : AgentType)
  : M (AgentManager B R) BaseAgent :=
  fun m =>
    let '(i, s) := uuid4 (manager_sys m) in
    let agent := BaseAgent_init (mkAgentId i) (Some agent_type) in
    let key := str_AgentId (_id agent) in
    let m := set_agents (<[key := agent]> (_agents m)) (set_sys s m) in
    match start_agent_object key agent m with
    | (Return _, m) =>
        (Return (default agent (_agents m !! key)),
         set_sys (read_clock (role_start_reads agent_type) (manager_sys m)) m)
    | (Raise e, m) => (Raise e, m)
    | (Suspend, m) => (Suspend, m)
    end.

(** [str(agent.type)]; an agent may have no type. *)
Definition str_type (agent_type : option AgentType) : string :=
  from_option str_AgentType "None" agent_type.

(** [AgentManager.get_agent_by_type]: the first agent, in the order of the
    registry, whose type reads as [agent_type] once both are lowered. *)
Definition get_agent_by_type (agent_type : string) (m : AgentManager B R)
  : option BaseAgent :=
  head (filter (fun agent => Python.lower (str_type (_type agent))
                             = Python.lower agent_type)
               (map_to_list (_agents m)).*2).

(** The dictionary [setup_agent_hierarchy] returns. *)
Record hierarchy_info := mkInfo {
  created_agents : list (string * string * string);   (* id, type, role *)
  relationships : list (string * list string)
}.

(** [relationships[parent].append(child)], the list being made first when
    the parent has none. *)
Definition relate (parent child : string) (info : hierarchy_info)
  : hierarchy_info :=
  mkInfo (created_agents info)
    (match Python.get parent (relationships info) with
     | Some children =>
         Python.set_item parent (children ++ [child]) (relationships info)
     | None => relationships info ++ [(parent, [child])]
     end).

Definition created (agent : BaseAgent) (type role : string)
    (info : hierarchy_info) : hierarchy_info :=
  mkInfo (created_agents info ++ [(str_AgentId (_id agent), type, role)])
         (relationships info).

(** A method called on an agent the registry holds changes the agent in the
    registry. An agent is reached under the text of its identifier, which is
    where [create_agent] files it. *)
Definition on_agent (agent : BaseAgent) (f : BaseAgent -> BaseAgent)
    (m : AgentManager B R) : AgentManager B R :=
  set_agents (alter f (str_AgentId (_id agent)) (_agents m)) m.

(** The body of [if not existing_agent:] in the loop of
    [setup_agent_hierarchy], and of its like for Logos. *)
Definition create_under (parent : BaseAgent) (agent_type : AgentType)
    (type role : string) (info : hierarchy_info)
  : M (AgentManager B R) hierarchy_info :=
  await agent <- create_agent agent_type ;
  let info := created agent type role info in
  fun m =>
    let m := on_agent parent (add_subordinate (_id agent)) m in
    let m := on_agent agent (set_supervisor (_id parent)) m in
    (Return (relate (str_AgentId (_id parent)) (str_AgentId (_id agent)) info),
     m).

(** [AgentManager.setup_agent_hierarchy] *)
Definition setup_agent_hierarchy : M (AgentManager B R) hierarchy_info :=
  let hierarchy_info := mkInfo [] [] in
  await found <-
    (fun m =>
       match get_agent_by_type "prometheus" m with
       | Some prometheus_agent => (Return (prometheus_agent, hierarchy_info), m)
       | None =>
           (await prometheus_agent <- create_agent PROMETHEUS ;
            ret (prometheus_agent,
                 created prometheus_agent "prometheus" "master"
                         hierarchy_info)) m
       end) ;
  let '(prometheus_agent, hierarchy_info) := found in
  let subordinate_types :=
    [ (DAEDALUS, "cognitive_architect");
      (ODYSSEUS, "embodied_explorer");
      (THEMIS, "safety_overseer") ] in
  await hierarchy_info <-
    fold_each subordinate_types hierarchy_info
      (fun hierarchy_info '(agent_type, role) m =>
         match get_agent_by_type (AgentType_value agent_type) m with
         | Some _ => (Return hierarchy_info, m)
         | None =>
             create_under prometheus_agent agent_type
               (AgentType_value agent_type) role hierarchy_info m
         end) ;
  await hierarchy_info <-
    (fun m =>
       match get_agent_by_type "logos" m, get_agent_by_type "daedalus" m with
       | None, Some daedalus_agent =>
           create_under daedalus_agent LOGOS "logos" "symbolic_reasoner"
                        hierarchy_info m
       | _, _ => (Return hierarchy_info, m)
       end) ;
  fun m => (Return hierarchy_info, _build_hierarchy_cache m).

(** The supervision edges the registry holds: [parent] is a managed agent
    that lists [child] among its subordinates. *)
Definition edge (m : AgentManager B R) (parent child : string) : Prop :=
  ∃ agent, _agents m !! parent = Some agent
           ∧ child ∈ str_AgentId <$> _subordinates agent.

(** A managed agent that names [target] as its supervisor. *)
Definition points_at (m : AgentManager B R) (agent_id target : string) : Prop :=
  ∃ agent, _agents m !! agent_id = Some agent
           ∧ str_AgentId <$> _supervisor agent = Some target.

(** The shape the supervision edges are to keep: no agent under two
    parents, and no agent above itself. *)
Definition single_parent (m : AgentManager B R) : Prop :=
  ∀ parent1 parent2 child,
    edge m parent1 child → edge m parent2 child → parent1 = parent2.

Definition acyclic (m : AgentManager B R) : Prop :=
  ∀ agent_id, ¬ tc (edge m) agent_id agent_id.

(** No agent lists a subordinate twice, which [add_subordinate] sees to. *)
Definition duplicate_free (m : AgentManager B R) : Prop :=
  ∀ key agent, _agents m !! key = Some agent → NoDup (_subordinates agent).

End AgentManager.

Section emergency_halt.
Context {B R : Type} `{EventBus B callback} `{UUIDReader}.

(** One turn of the first loop of [emergency_halt]: what [stop] raises is
    logged and the loop goes on. *)
Definition halt_agent (key : string) (agent : BaseAgent)
  : M (AgentManager B R) unit :=
  fun m =>
    match stop_agent_object key agent m with
    | (Raise _, m') => (Return tt, m')
    | answer => answer
    end.

Definition halt_message (reason : string) : dict :=
  [ ("type", PyStr "emergency_halt");
    ("reason", PyStr reason);
    ("timestamp", PyStr "2024-01-01T00:00:00Z") ].

(** One turn of the second loop of [emergency_halt]. The sender is a new
    [AgentId()], drawn before the text of the receiver is read. *)
Definition notify (reason : string) (agent_id : string)
  : M (AgentManager B R) unit :=
  fun m =>
    let '(sender, s) := uuid4 (manager_sys m) in
    match UUID_of agent_id with
    | None =>
        (Raise (mkExn "ValueError" "badly formed hexadecimal UUID string"),
         set_sys s m)
    | Some u =>
        let '(message, s) :=
          new_Message (mkAgentId sender) (mkAgentId u) (halt_message reason)
                      "emergency_halt" s in
        let '(o, b) := bus_publish message (manager_event_bus m) in
        (o, set_event_bus b (set_sys s m))
    end.

(** [AgentManager.emergency_halt]. Every bus class has [publish]. *)
Definition emergency_halt (reason : string) : M (AgentManager B R) unit :=
  fun m =>
    match for_each (map_to_list (_agents m))
                   (fun '(key, agent) => halt_agent key agent) m with
    | (Return _, m) =>
        match for_each (map_to_list (_agents m)).*1 (notify reason) m with
        | (Raise _, m') => (Return tt, m')
        | answer => answer
        end
    | answer => answer
    end.

End emergency_halt.

End Manager.

(** ** prometheus/services/task_service.py *)

Module TaskService.

Section TaskService.
Context {R : Type} `{Repository R Task} `{UUIDReader}.

(** [TaskService.get_task]: any exception, of the conversion or of the
    repository, becomes [None]. *)
Definition get_task (task_id : string) : M R (option Task) :=
  fun r =>
    match UUID_of task_id with
    | None => (Return None, r)
    | Some u =>
        let task_uuid := mkTaskId u in
        match repo_get_by_id (str_TaskId task_uuid) r with
        | (Raise _, r') => (Return None, r')
        | answer => answer
        end
    end.

(** [TaskService.cancel_task] *)
Definition cancel_task (task_id : string) : M R bool :=
  fun r =>
    match get_task task_id r with
    | (Return None, r) => (Return false, r)
    | (Return (Some task), r) =>
        if negb (bool_decide (status task ∈ [PENDING; IN_PROGRESS]))
        then (Return false, r)
        else
          let task := set_status CANCELLED task in
          let task := set_updated_at (updated_at task) task in
          match repo_save task r with
          | (Return _, r') => (Return true, r')
          | (Raise _, r') => (Return false, r')
          | (Suspend, r') => (Suspend, r')
          end
    | (Raise _, r) => (Return false, r)
    | (Suspend, r) => (Suspend, r)
    end.

End TaskService.

Section listing.
Context {R : Type} `{Repository R Task} `{Finder R Task}.

(** [TaskService.list_tasks], over a repository class that has
    [find_by_criteria], as both repository classes of the program have.
    [filters] is [None] when the argument is left out. *)
Definition list_tasks (filters : option criteria) (limit offset : Z)
  : M R (list Task) :=
  fun r =>
    let found :=
      match filters with
      | None | Some [] => repo_list_all r
      | Some c => repo_find_by_criteria c r
      end in
    match found with
    | (Return tasks, r') =>
        let end_index := Z.min (offset + limit) (Z.of_nat (length tasks)) in
        (Return (Python.slice tasks offset end_index), r')
    | (Raise _, r') => (Return [], r')
    | (Suspend, r') => (Suspend, r')
    end.

(** [TaskService.get_tasks_by_agent] *)
Definition get_tasks_by_agent (agent_id : string) : M R (list Task) :=
  list_tasks (Some [("agent_id", Plain (PyStr agent_id))]) 100 0.

(** [TaskService.get_pending_tasks] *)
Definition get_pending_tasks : M R (list Task) :=
  list_tasks (Some [("status", Plain (PyStr (TaskStatus_value PENDING)))]) 100 0.

(** [TaskService.get_active_tasks] *)
Definition get_active_tasks : M R (list Task) :=
  list_tasks
    (Some [("status", Plain (PyStr (TaskStatus_value IN_PROGRESS)))]) 100 0.

(** [TaskService.get_completed_tasks] *)
Definition get_completed_tasks : M R (list Task) :=
  list_tasks
    (Some [("status", Plain (PyStr (TaskStatus_value COMPLETED)))]) 100 0.

End listing.

Section lifecycle.
Context {R : Type} `{Repository R Task} `{UUIDReader}.

(** [TaskService.update_task]. The task the repository hands out is changed
    and handed back with [save]. *)
Definition update_task (task_id : string) (name description : option string)
    (priority : option Priority) (metadata : option dict)
  : M R (option Task) :=
  fun r =>
    match get_task task_id r with
    | (Return None, r) => (Return None, r)
    | (Return (Some task), r) =>
        let task := from_option (fun n => set_name n task) task name in
        let task :=
          from_option (fun d => set_description d task) task description in
        let task := from_option (fun p => set_priority p task) task priority in
        let task :=
          from_option
            (fun d => set_metadata (Python.update (Domain.metadata task) d) task)
            task metadata in
        let task := set_updated_at (updated_at task) task in
        match repo_save task r with
        | (Return _, r') => (Return (Some task), r')
        | (Raise _, r') => (Return None, r')
        | (Suspend, r') => (Suspend, r')
        end
    | (Raise _, r) => (Return None, r)
    | (Suspend, r) => (Suspend, r)
    end.

(** [TaskService.delete_task] *)
Definition delete_task (task_id : string) : M R bool :=
  fun r =>
    match UUID_of task_id with
    | None => (Return false, r)
    | Some u =>
        match repo_delete (str_TaskId (mkTaskId u)) r with
        | (Raise _, r') => (Return false, r')
        | answer => answer
        end
    end.

End lifecycle.

Section with_manager.
Context {B R : Type} `{Repository R Task} `{UUIDReader}.

(** The service holds the task repository of its manager. *)
Definition on_repository {A} (m : M R A) : M (Manager.AgentManager B R) A :=
  fun mg =>
    let '(o, r) := m (Manager.manager_task_repository mg) in
    (o, Manager.set_task_repository r mg).

(** [TaskService.create_task]. [metadata] is [None] when the argument is left
    out. An exception is logged and raised again. *)
Definition create_task (agent_id name description : string)
    (priority : Priority) (metadata : option dict)
  : M (Manager.AgentManager B R) Task :=
  fun mg =>
    match Manager.get_agent agent_id mg with
    | None =>
        (Raise (mkExn "ValueError" ("Agent " ++ agent_id ++ " not found")), mg)
    | Some _ =>
        match UUID_of agent_id with
        | None =>
            (Raise (mkExn "ValueError" "badly formed hexadecimal UUID string"),
             mg)
        | Some u =>
            let '(task, s) :=
              new_Task (mkAgentId u) name description priority
                       (default [] metadata) (Manager.manager_sys mg) in
            match on_repository (repo_save task) (Manager.set_sys s mg) with
            | (Return _, mg') => (Return task, mg')
            | (Raise e, mg') => (Raise e, mg')
            | (Suspend, mg') => (Suspend, mg')
            end
        end
    end.

(** [TaskService.assign_task_to_agent] *)
Definition assign_task_to_agent (task_id agent_id : string)
  : M (Manager.AgentManager B R) bool :=
  fun mg =>
    match on_repository (get_task task_id) mg with
    | (Return None, mg) => (Return false, mg)
    | (Return (Some task), mg) =>
        match Manager.get_agent agent_id mg with
        | None => (Return false, mg)
        | Some _ =>
            match UUID_of agent_id with
            | None => (Return false, mg)
            | Some u =>
                let task := set_agent_id (mkAgentId u) task in
                let task := set_updated_at (updated_at task) task in
                match on_repository (repo_save task) mg with
                | (Return _, mg') => (Return true, mg')
                | (Raise _, mg') => (Return false, mg')
                | (Suspend, mg') => (Suspend, mg')
                end
            end
        end
    | (Raise _, mg) => (Return false, mg)
    | (Suspend, mg) => (Suspend, mg)
    end.

End with_manager.

Section execution.
Context {R W : Type} `{Repository R Task} `{UUIDReader}.

(** The registry of the manager, which [execute_task] only reads, and what
    the class of each agent supplies for task execution. *)
Context (agents : gmap string Agent.BaseAgent)
        (role : Agent.BaseAgent -> Agent.Role W).

(** What the service and the agent it calls work on: the outside world, the
    task repository they share, and what the role of the agent reaches. *)
Definition on_shared {A} (m : M R A) : M (Sys * R * W) A :=
  fun '(s, r, w) => let '(o, r') := m r in (o, (s, r', w)).

(** [task.mark_failed(error)] followed by [await self._task_repository.save(task)]
    and [return task]. *)
Definition fail_and_save (error : string) (task : Task)
  : M (Sys * R * W) (option Task) :=
  fun '(s, r, w) =>
    let '(task, s) := mark_failed error task s in
    match repo_save task r with
    | (Return _, r') => (Return (Some task), (s, r', w))
    | (Raise e, r') => (Raise e, (s, r', w))
    | (Suspend, r') => (Suspend, (s, r', w))
    end.

(** [await agent.execute_task(task)], for an agent the manager has given its
    own task repository. *)
Definition agent_execute_task (agent : Agent.BaseAgent) (task : Task)
  : Sys * R * W -> outcome unit * Task * (Sys * R * W) :=
  fun '(s, r, w) =>
    let '(o, task, x) :=
      Agent.execute_task (H0 := role agent) task
        (Agent.mkExec s (Some r) [] w) in
    (o, task,
     (Agent.exec_sys x, default r (Agent._task_repository x), Agent.world x)).

(** The [try] block of [TaskService.execute_task]. *)
Definition execute_task_try (task_id : string)
  : M (Sys * R * W) (option Task) :=
  fun st =>
    match on_shared (get_task task_id) st with
    | (Return None, st) => (Return None, st)
    | (Return (Some task), st) =>
        match agents !! str_AgentId (agent_id task) with
        | None => fail_and_save "Agent not found" task st
        | Some agent =>
            match agent_execute_task agent task st with
            | (Return _, executed_task, st) =>
                match on_shared (repo_save executed_task) st with
                | (Return _, st) => (Return (Some executed_task), st)
                | (Raise e, st) => (Raise e, st)
                | (Suspend, st) => (Suspend, st)
                end
            | (Raise e, _, st) => (Raise e, st)
            | (Suspend, _, st) => (Suspend, st)
            end
        end
    | (Raise e, st) => (Raise e, st)
    | (Suspend, st) => (Suspend, st)
    end.

(** [TaskService.execute_task]. What its handler raises leaves it. *)
Definition execute_task (task_id : string) : M (Sys * R * W) (option Task) :=
  fun st =>
    match execute_task_try task_id st with
    | (Raise e, st) =>
        match on_shared (get_task task_id) st with
        | (Return (Some task), st) => fail_and_save (str_exn e) task st
        | answer => answer
        end
    | answer => answer
    end.

End execution.

End TaskService.

(** ** What the properties read off a task *)

Module Readings.

(** The fields of a task that say what the task is, as opposed to how far it
    has got. *)
Definition frame (t : Task)
  : TaskId * AgentId * string * string * Priority * datetime * dict :=
  (id t, agent_id t, name t, description t, priority t, created_at t,
   metadata t).

(** The identifier the [k]-th draw from now gives. *)
Definition next_id (s : Sys) (k : nat) : UUID := random s (draws s + k).

End Readings.

(** ** Concrete inputs on which the theorems below are exercised *)

Module Examples.

Import Agent.

(** An object that may or may not carry an [id] attribute. *)
Inductive record :=
| with_id (id : string) (payload : nat)
| without_id (payload : nat).

#[export] Instance record_Entity : Entity record :=
  fun e => match e with with_id k _ => Some k | without_id _ => None end.

(** A reader of identifiers that accepts the 36-character form. *)
#[export] Instance reader : UUIDReader :=
  fun text => if decide (String.length text = 36) then Some text else None.

Definition world0 : Sys :=
  mkSys (fun n => Z.of_nat n) 0 (fun n => pretty n) 0.

Definition id1 : UUID := "00000000-0000-4000-8000-000000000001".
Definition id2 : UUID := "00000000-0000-4000-8000-000000000002".
Definition id3 : UUID := "00000000-0000-4000-8000-000000000003".
Definition id4 : UUID := "00000000-0000-4000-8000-000000000004".

(** A task as [Task(agent_id=..., name=...)] builds it, in a given status. *)
Definition task_in (st : TaskStatus) : Task :=
  mkTask (mkTaskId id1) (mkAgentId id2) "survey" "" MEDIUM st 0%Z 0%Z None None
         None [].

(** Three roles over a world that counts how often the role action ran. *)
Definition succeeding : Role nat := {|
  _perform_safety_checks := base_perform_safety_checks;
  _execute_task_internal := fun _ n => (Return [("status", PyStr "done")], S n)
|}.

Definition failing : Role nat := {|
  _perform_safety_checks := base_perform_safety_checks;
  _execute_task_internal := fun _ n => (Raise (mkExn "RuntimeError" "boom"), S n)
|}.

Definition rejecting : Role nat := {|
  _perform_safety_checks := fun _ n =>
    (Return [mkSafetyCheck id4 "policy" "failed" "not allowed" "high" 0%Z []], n);
  _execute_task_internal := fun _ n => (Return [("status", PyStr "done")], S n)
|}.

(** A message as [send_message] builds it. *)
Definition message_of (i : UUID) (sender receiver : UUID) : Message :=
  mkMessage i (mkAgentId sender) (mkAgentId receiver) [] 0%Z "general".

(** A stand-in for Python's formatting, which no property below reads. *)
Definition formatting : Themis.Formatting := {|
  Themis.format_2f := fun q => pretty (Qnum q) ++ "/" ++ pretty (Zpos (Qden q));
  Themis.isoformat := fun t => pretty t
|}%string.

(** Scores with which each of the five checks reports the status passed. *)
Definition passing : Themis.Analysis := {|
  Themis._calculate_alignment_score := fun _ => (85 # 100)%Q;
  Themis._detect_gaming_patterns := fun _ => [];
  Themis._calculate_goal_drift := fun _ => (15 # 100)%Q;
  Themis._calculate_interpretability_score := fun _ => (85 # 100)%Q;
  Themis._assess_containment := fun _ => (90 # 100)%Q
|}.

(** The overseer under a supervisor, with one subordinate of its own. *)
Definition overseer : Themis.AgentThemis :=
  let self := Themis.AgentThemis_init (mkAgentId id1) in
  Themis.set_base
    (add_subordinate (mkAgentId id3)
       (set_supervisor (mkAgentId id2) (Themis.base self)))
    self.


(** A registry as [setup_agent_hierarchy] wires it: a coordinator, a
    specialist under it, and a leaf under the specialist. *)
Definition registry : Manager.AgentManager (Bus.InMemoryEventBus callback)
                                           (gmap string Task) :=
  let coordinator :=
    add_subordinate (mkAgentId id2)
      (BaseAgent_init (mkAgentId id1) (Some PROMETHEUS)) in
  let specialist :=
    add_subordinate (mkAgentId id3)
      (set_supervisor (mkAgentId id1)
         (BaseAgent_init (mkAgentId id2) (Some DAEDALUS))) in
  let leaf :=
    set_supervisor (mkAgentId id2)
      (BaseAgent_init (mkAgentId id3) (Some LOGOS)) in
  Manager._build_hierarchy_cache
    (Manager.mkManager world0
       (<[id1 := coordinator]> (<[id2 := specialist]> {[ id3 := leaf ]}))
       Bus.InMemoryEventBus_init ∅ ∅ true).

(** A role that answers every message by a message back to its sender. *)
Definition echo : Responder (Bus.InMemoryEventBus callback) unit :=
  fun message st =>
    (Return (Some (mkMessage id4 (receiver_id message) (sender_id message)
                             [] 0%Z "reply")), st).

(** A stand-in for Python's [str] on the values that are not texts. *)
Definition text : Python.Text := fun _ => "".

(** A safety test that names the agent to be tested. *)
Definition safety_test : Task :=
  mkTask (mkTaskId id1) (mkAgentId id2) "Safety_Test of the planner" "" HIGH
         PENDING 0%Z 0%Z None None None [("target_agent", PyStr id3)].

(** A request to audit an agent. *)
Definition audit_request : Message :=
  mkMessage id3 (mkAgentId id2) (mkAgentId id1)
            [("target_agent", PyStr id4)] 0%Z "audit_request".

(** An agent with an empty in-memory task repository. *)
Definition exec0 : Exec (gmap string Task) nat :=
  mkExec world0 (Some ∅) [] 0%nat.

End Examples.

(* ===================================================================== *)
(** * Part II: the properties *)
(* ===================================================================== *)

Import Agent Examples.

(** ** The in-memory repository *)

Section repository_facts.
Context {E : Type} `{Entity E}.

Lemma imr_save_keyed (e : E) (k : string) (st : gmap string E) :
  entity_key e = Some k → imr_save e st = (Return tt, <[k := e]> st).
Proof. intros Hk. unfold imr_save. by rewrite Hk. Qed.

Lemma imr_save_keeps_filing (e : E) (st : gmap string E) :
  filed_by_id st → filed_by_id (imr_save e st).2.
Proof.
  intros Hst. unfold imr_save.
  destruct (entity_key e) as [k|] eqn:Hk; simpl; [|done].
  intros k' e'. rewrite lookup_insert.
  case_decide; [intros [= <-]; by subst | apply Hst].
Qed.

Lemma imr_delete_keeps_filing (key : string) (st : gmap string E) :
  filed_by_id st → filed_by_id (imr_delete key st).2.
Proof.
  intros Hst. unfold imr_delete. case_decide; simpl; [|done].
  intros k' e'. rewrite lookup_delete.
  case_decide; [done | apply Hst].
Qed.

(** C10. For an entity [e] whose [id] reads [k]: [save e] followed by
    [get_by_id k] returns [e]; a later [save] of an entity with the same
    identifier replaces it. [delete key] returns true exactly when an entity
    is stored under [key], and [get_by_id key] returns nothing afterwards. A
    [save] of an object without an [id] attribute raises [ValueError] and
    leaves the store as it was. *)
Theorem InMemoryRepository_save_get_delete
    (st : gmap string E) (e e' : E) (k : string) :
  entity_key e = Some k →
  entity_key e' = Some k →
  (imr_save e ;; imr_get_by_id k) st = (Return (Some e), <[k := e]> st)
  ∧ (imr_save e ;; imr_save e' ;; imr_get_by_id k) st
    = (Return (Some e'), <[k := e']> st)
  ∧ (∀ key, (imr_delete key st).1 = Return true ↔ is_Some (st !! key))
  ∧ (∀ key, (imr_delete key st).1 = Return false ↔ st !! key = None)
  ∧ (∀ key, ((imr_delete key ;; imr_get_by_id key) st).1 = Return None)
  ∧ (∀ x, entity_key x = None →
          ∃ err, imr_save x st = (Raise err, st)
                 ∧ exn_class err = "ValueError").
Proof.
  intros Hk Hk'. split_and!.
  - unfold bind. rewrite (imr_save_keyed e k) by done.
    unfold imr_get_by_id. by rewrite lookup_insert_eq.
  - unfold bind. rewrite (imr_save_keyed e k) by done.
    rewrite (imr_save_keyed e' k) by done.
    unfold imr_get_by_id. by rewrite lookup_insert_eq, insert_insert_eq.
  - intros key. unfold imr_delete.
    destruct (decide (is_Some (st !! key))); simpl; split; done.
  - intros key. unfold imr_delete.
    destruct (decide (is_Some (st !! key))) as [Hs|Hs]; simpl.
    + split; [done|]. intros Hn. rewrite Hn in Hs. by destruct Hs.
    + split; [|done]. intros _. by apply eq_None_not_Some.
  - intros key. unfold bind, imr_delete.
    destruct (decide (is_Some (st !! key))) as [Hs|Hs]; simpl.
    + by rewrite lookup_delete_eq.
    + f_equal. by apply eq_None_not_Some.
  - intros x Hx. eexists. unfold imr_save. rewrite Hx. done.
Qed.

End repository_facts.

Lemma InMemoryRepository_save_get_delete_witness :
  let e := Examples.with_id "a" 1 in
  let e' := Examples.with_id "a" 2 in
  let st : gmap string Examples.record := {[ "b" := Examples.with_id "b" 0 ]} in
  (imr_save e ;; imr_get_by_id "a") st = (Return (Some e), <["a" := e]> st)
  ∧ (imr_save e ;; imr_save e' ;; imr_get_by_id "a") st
    = (Return (Some e'), <["a" := e']> st)
  ∧ (∀ key, (imr_delete key st).1 = Return true ↔ is_Some (st !! key))
  ∧ (∀ key, (imr_delete key st).1 = Return false ↔ st !! key = None)
  ∧ (∀ key, ((imr_delete key ;; imr_get_by_id key) st).1 = Return None)
  ∧ (∀ x, entity_key x = None →
          ∃ err, imr_save x st = (Raise err, st)
                 ∧ exn_class err = "ValueError").
Proof.
  exact (InMemoryRepository_save_get_delete
           {[ "b" := Examples.with_id "b" 0 ]}
           (Examples.with_id "a" 1) (Examples.with_id "a" 2) "a"
           eq_refl eq_refl).
Defined.

(** ** Cancelling a task *)

Lemma set_updated_at_same (t : Task) : set_updated_at (updated_at t) t = t.
Proof. by destruct t. Qed.

Lemma status_set_status (st : TaskStatus) (t : Task) :
  status (set_status st t) = st.
Proof. done. Qed.

Lemma id_set_status (st : TaskStatus) (t : Task) :
  id (set_status st t) = id t.
Proof. done. Qed.

Section cancel_task_facts.
Context `{UUIDReader}.

Lemma get_task_stored (r : gmap string Task) (task_id : string) (u : UUID) :
  UUID_of task_id = Some u →
  TaskService.get_task task_id r = (Return (r !! u), r).
Proof. intros Hu. unfold TaskService.get_task. by rewrite Hu. Qed.

(** C8. For a task held by the task store under the identifier that
    [task_id] denotes: when its status is Completed, Failed or Cancelled,
    [cancel_task] returns false and the store, the task in it included, is
    what it was; when its status is Pending or InProgress, [cancel_task]
    returns true and the stored task is the same task with status
    Cancelled. *)
Theorem cancel_task_by_status
    (r : gmap string Task) (task_id : string) (u : UUID) (task : Task) :
  UUID_of task_id = Some u →
  r !! u = Some task →
  filed_by_id r →
  (status task ∈ [COMPLETED; FAILED; CANCELLED] →
     TaskService.cancel_task task_id r = (Return false, r))
  ∧ (status task ∈ [PENDING; IN_PROGRESS] →
     TaskService.cancel_task task_id r
     = (Return true, <[u := set_status CANCELLED task]> r)).
Proof.
  intros Hu Hr Hfiled.
  assert (Hkey : entity_key task = Some u) by by apply Hfiled.
  unfold TaskService.cancel_task.
  rewrite (get_task_stored r task_id u Hu), Hr.
  split; intros Hst.
  - rewrite bool_decide_eq_false_2; [done|].
    revert Hst. rewrite !elem_of_cons, !elem_of_nil.
    intros [Hs|[Hs|[Hs|[]]]] [Hp|[Hp|[]]]; congruence.
  - rewrite bool_decide_eq_true_2 by done. cbn [negb].
    rewrite set_updated_at_same.
    change (repo_save (set_status CANCELLED task) r)
      with (imr_save (set_status CANCELLED task) r).
    by rewrite (imr_save_keyed _ u).
Qed.

End cancel_task_facts.

Lemma cancel_task_by_status_witness :
  let r : gmap string Task := {[ id1 := task_in PENDING ]} in
  (status (task_in PENDING) ∈ [COMPLETED; FAILED; CANCELLED] →
     TaskService.cancel_task id1 r = (Return false, r))
  ∧ (status (task_in PENDING) ∈ [PENDING; IN_PROGRESS] →
     TaskService.cancel_task id1 r
     = (Return true, <[id1 := set_status CANCELLED (task_in PENDING)]> r)).
Proof.
  apply (cancel_task_by_status {[ id1 := task_in PENDING ]} id1 id1
           (task_in PENDING)).
  - reflexivity.
  - apply lookup_singleton_eq.
  - intros k e [<- <-]%lookup_singleton_Some. reflexivity.
Defined.

(** ** Task execution *)

Lemma mark_in_progress_status (t : Task) (s : Sys) :
  status (mark_in_progress t s).1 = IN_PROGRESS.
Proof. done. Qed.

Lemma mark_in_progress_forgets_status (st : TaskStatus) (t : Task) (s : Sys) :
  mark_in_progress (set_status st t) s = mark_in_progress t s.
Proof. done. Qed.

Lemma mark_failed_spec (e : string) (t : Task) (s : Sys) :
  status (mark_failed e t s).1 = FAILED
  ∧ error (mark_failed e t s).1 = Some e
  ∧ completed_at (mark_failed e t s).1 = completed_at t.
Proof. done. Qed.

Lemma mark_completed_spec (r : dict) (t : Task) (s : Sys) :
  status (mark_completed r t s).1 = COMPLETED
  ∧ result (mark_completed r t s).1 = Some r
  ∧ is_Some (completed_at (mark_completed r t s).1).
Proof. split_and!; [done | done | by eexists]. Qed.

Section execute_task_facts.
Context {R W : Type} `{Repository R Task} `{Role W}.

Implicit Types (task : Task) (x : Exec R W).

Lemma with_sys_fields (f : Task → Sys → Task * Sys) task x :
  (with_sys f task x).1 = (f task (exec_sys x)).1
  ∧ _task_repository (with_sys f task x).2 = _task_repository x
  ∧ saved (with_sys f task x).2 = saved x
  ∧ world (with_sys f task x).2 = world x.
Proof. unfold with_sys. by destruct (f task (exec_sys x)). Qed.

Lemma in_world_fields {A} (m : M W A) x :
  _task_repository (in_world m x).2 = _task_repository x
  ∧ saved (in_world m x).2 = saved x
  ∧ exec_sys (in_world m x).2 = exec_sys x.
Proof. unfold in_world. by destruct (m (world x)). Qed.

Lemma save_task_fields task x :
  (_task_repository x = None → save_task task x = (Return tt, x))
  ∧ (is_Some (_task_repository x) →
       saved (save_task task x).2 = saved x ++ [task]
       ∧ is_Some (_task_repository (save_task task x).2))
  ∧ world (save_task task x).2 = world x
  ∧ exec_sys (save_task task x).2 = exec_sys x.
Proof.
  unfold save_task. destruct (_task_repository x) as [r|]; simpl.
  - destruct (repo_save task r). split_and!; [done | by eauto | done | done].
  - split_and!; [done | by intros [] | done | done].
Qed.

Lemma save_task_without_repository task x :
  _task_repository x = None → save_task task x = (Return tt, x).
Proof. apply save_task_fields. Qed.

Lemma started_status task x : status (started task x).1 = IN_PROGRESS.
Proof.
  unfold started. destruct (with_sys_fields mark_in_progress task x) as [-> _].
  apply mark_in_progress_status.
Qed.

Lemma started_forgets_status (st : TaskStatus) task x :
  started (set_status st task) x = started task x.
Proof. unfold started, with_sys. by rewrite mark_in_progress_forgets_status. Qed.

Lemma execute_task_try_started task x :
  let t1 := (started task x).1 in
  execute_task_try task x
  = match save_task t1 (started task x).2 with
    | (Raise e, x2) => (Raise e, t1, x2)
    | (Suspend, x2) => (Suspend, t1, x2)
    | (Return _, x2) =>
        match in_world (_perform_safety_checks t1) x2 with
        | (Raise e, x3) => (Raise e, t1, x3)
        | (Suspend, x3) => (Suspend, t1, x3)
        | (Return safety_results, x3) =>
            if existsb failed_check safety_results
            then
              (Return ReturnTask,
               (with_sys (mark_failed "Safety check failed") t1 x3).1,
               (with_sys (mark_failed "Safety check failed") t1 x3).2)
            else
              match in_world (_execute_task_internal t1) x3 with
              | (Raise e, x4) => (Raise e, t1, x4)
              | (Suspend, x4) => (Suspend, t1, x4)
              | (Return result, x4) =>
                  (Return FallThrough,
                   (with_sys (mark_completed result) t1 x4).1,
                   (with_sys (mark_completed result) t1 x4).2)
              end
        end
    end.
Proof.
  intros t1. subst t1. unfold execute_task_try.
  destruct (started task x) as [task1 x1]; cbn [fst snd].
  destruct (save_task task1 x1) as [[| |] x2]; [|done|done].
  destruct (in_world (_perform_safety_checks task1) x2) as [[checks| |] x3];
    [|done|done].
  destruct (existsb failed_check checks).
  - by destruct (with_sys (mark_failed "Safety check failed") task1 x3).
  - destruct (in_world (_execute_task_internal task1) x3) as [[r| |] x4];
      [|done|done].
    by destruct (with_sys (mark_completed r) task1 x4).
Qed.

Lemma with_sys_mark_failed_spec (e : string) task x :
  status (with_sys (mark_failed e) task x).1 = FAILED
  ∧ error (with_sys (mark_failed e) task x).1 = Some e.
Proof.
  destruct (with_sys_fields (mark_failed e) task x) as [-> _].
  split; apply mark_failed_spec.
Qed.

Lemma with_sys_mark_completed_status (r : dict) task x :
  status (with_sys (mark_completed r) task x).1 = COMPLETED.
Proof.
  destruct (with_sys_fields (mark_completed r) task x) as [-> _].
  apply mark_completed_spec.
Qed.

End execute_task_facts.

Section execute_task_claims.
Context {R W : Type} `{Repository R Task} `{Role W}.

Implicit Types (task : Task) (x : Exec R W).

Lemma save_task_extends task x :
  ∃ rest, saved (save_task task x).2 = saved x ++ rest.
Proof.
  destruct (_task_repository x) as [r|] eqn:Hr.
  - exists [task]. by apply save_task_fields.
  - exists []. rewrite save_task_without_repository by done.
    by rewrite app_nil_r.
Qed.

Lemma execute_task_unfold task x :
  execute_task task x
  = match execute_task_try task x with
    | (Return ReturnTask, t, x') => (Return tt, t, x')
    | (Return FallThrough, t, x') => ((save_task t x').1, t, (save_task t x').2)
    | (Raise e, t, x') =>
        ((save_task (with_sys (mark_failed (str_exn e)) t x').1
                    (with_sys (mark_failed (str_exn e)) t x').2).1,
         (with_sys (mark_failed (str_exn e)) t x').1,
         (save_task (with_sys (mark_failed (str_exn e)) t x').1
                    (with_sys (mark_failed (str_exn e)) t x').2).2)
    | (Suspend, t, x') => (Suspend, t, x')
    end.
Proof.
  unfold execute_task.
  destruct (execute_task_try task x) as [[[[]| |] t] x']; try done.
  - destruct (save_task t x'). reflexivity.
  - destruct (with_sys (mark_failed (str_exn e)) t x') as [t' x''].
    cbn [fst snd]. destruct (save_task t' x''). reflexivity.
Qed.

(** The journal only grows during [execute_task]. *)
Lemma execute_task_try_extends task x :
  ∃ rest, saved (execute_task_try task x).2
          = saved (save_task (started task x).1 (started task x).2).2 ++ rest.
Proof.
  rewrite execute_task_try_started. cbv zeta.
  destruct (save_task (started task x).1 (started task x).2)
    as [[| |] x2]; cbn [snd]; try by (exists []; rewrite app_nil_r).
  pose proof (in_world_fields (_perform_safety_checks (started task x).1) x2)
    as (_ & Hs3 & _).
  destruct (in_world (_perform_safety_checks (started task x).1) x2)
    as [[checks| |] x3]; cbn [snd] in *;
    try by (exists []; rewrite app_nil_r).
  destruct (existsb failed_check checks); cbn [snd].
  - exists []. rewrite app_nil_r.
    by destruct (with_sys_fields (mark_failed "Safety check failed")
                   (started task x).1 x3) as (_ & _ & -> & _).
  - pose proof (in_world_fields (_execute_task_internal (started task x).1) x3)
      as (_ & Hs4 & _).
    destruct (in_world (_execute_task_internal (started task x).1) x3)
      as [[r| |] x4]; cbn [snd] in *;
      try by (exists []; rewrite app_nil_r; congruence).
    exists []. rewrite app_nil_r.
    destruct (with_sys_fields (mark_completed r) (started task x).1 x4)
      as (_ & _ & -> & _). congruence.
Qed.

Lemma execute_task_extends task x :
  ∃ rest, saved (execute_task task x).2
          = saved (execute_task_try task x).2 ++ rest.
Proof.
  rewrite execute_task_unfold.
  destruct (execute_task_try task x) as [[[[]| |] t] x']; cbn [snd];
    try by (exists []; rewrite app_nil_r).
  - apply save_task_extends.
  - destruct (save_task_extends (with_sys (mark_failed (str_exn e)) t x').1
                (with_sys (mark_failed (str_exn e)) t x').2) as [rest ->].
    exists rest.
    by destruct (with_sys_fields (mark_failed (str_exn e)) t x')
      as (_ & _ & -> & _).
Qed.

Lemma execute_task_status task x :
  status (execute_task task x).1.2 ∈ [IN_PROGRESS; COMPLETED; FAILED]
  ∧ ((execute_task task x).1.1 = Return tt →
     status (execute_task task x).1.2 ∈ [COMPLETED; FAILED]).
Proof.
  rewrite execute_task_unfold, execute_task_try_started. cbv zeta.
  pose proof (started_status task x) as Hip.
  destruct (save_task (started task x).1 (started task x).2) as [[| |] x2].
  - destruct (in_world (_perform_safety_checks (started task x).1) x2)
      as [[checks| |] x3].
    + destruct (existsb failed_check checks).
      * cbn [fst snd].
        destruct (with_sys_mark_failed_spec "Safety check failed"
                    (started task x).1 x3) as [-> _].
        split; [|intros _]; set_unfold; tauto.
      * destruct (in_world (_execute_task_internal (started task x).1) x3)
          as [[r| |] x4]; cbn [fst snd].
        -- rewrite with_sys_mark_completed_status.
           split; [|intros _]; set_unfold; tauto.
        -- destruct (with_sys_mark_failed_spec (str_exn e)
                       (started task x).1 x4) as [-> _].
           split; [|intros _]; set_unfold; tauto.
        -- rewrite Hip. split; [|done]. set_unfold; tauto.
    + cbn [fst snd].
      destruct (with_sys_mark_failed_spec (str_exn e)
                  (started task x).1 x3) as [-> _].
      split; [|intros _]; set_unfold; tauto.
    + cbn [fst snd]. rewrite Hip. split; [|done]. set_unfold; tauto.
  - cbn [fst snd].
    destruct (with_sys_mark_failed_spec (str_exn e)
                (started task x).1 x2) as [-> _].
    split; [|intros _]; set_unfold; tauto.
  - cbn [fst snd]. rewrite Hip. split; [|done]. set_unfold; tauto.
Qed.

(** C1, as the code has it. [execute_task] does not consult the status of
    the task it is given: run on a task in any status, terminal ones
    included, it does what it does on the same task in any other status. It
    first marks the task InProgress and, when a repository is configured,
    hands it to [save] in that status; and when it returns, the task is
    Completed or Failed. *)
Theorem execute_task_ignores_status (st : TaskStatus) task x :
  execute_task (set_status st task) x = execute_task task x
  ∧ status (started task x).1 = IN_PROGRESS
  ∧ (is_Some (_task_repository x) →
     ∃ rest, saved (execute_task task x).2
             = saved x ++ (started task x).1 :: rest)
  ∧ ((execute_task task x).1.1 = Return tt →
     status (execute_task task x).1.2 ∈ [COMPLETED; FAILED]).
Proof.
  split_and!.
  - unfold execute_task, execute_task_try.
    by rewrite started_forgets_status.
  - apply started_status.
  - intros Hrepo.
    destruct (execute_task_extends task x) as [rest2 ->].
    destruct (execute_task_try_extends task x) as [rest1 ->].
    destruct (with_sys_fields mark_in_progress task x) as (_ & Hr & Hs & _).
    fold (started task x) in Hr, Hs.
    destruct (save_task_fields (started task x).1 (started task x).2)
      as (_ & Hsave & _).
    destruct Hsave as [-> _]; [by rewrite Hr|].
    exists (rest1 ++ rest2). by rewrite Hs, <- !app_assoc.
  - apply execute_task_status.
Qed.

End execute_task_claims.

(** C1, as the claim states it, fails: a Completed task handed to
    [execute_task] is marked InProgress and saved so, the role action runs
    again, and here, where the action raises, the task ends Failed. *)
Lemma execute_task_reruns_completed_task :
  terminal (status (task_in COMPLETED)) = true
  ∧ ∃ t x,
      @execute_task _ _ InMemoryRepository failing (task_in COMPLETED) exec0
      = (Return tt, t, x)
      ∧ status t = FAILED
      ∧ world x = 1%nat
      ∧ status <$> saved x = [IN_PROGRESS; FAILED].
Proof.
  split; [reflexivity|]. do 2 eexists. split_and!; reflexivity.
Qed.

Section execute_task_paths.
Context {R W : Type} `{Repository R Task} `{Role W}.

Implicit Types (task : Task) (x : Exec R W).

Lemma save_task_last task x :
  is_Some (_task_repository x) → last (saved (save_task task x).2) = Some task.
Proof.
  intros Hrepo. destruct (save_task_fields task x) as (_ & Hsave & _).
  destruct (Hsave Hrepo) as [-> _]. apply last_snoc.
Qed.

Lemma save_task_keeps_repository task x :
  is_Some (_task_repository x) →
  is_Some (_task_repository (save_task task x).2).
Proof. intros Hrepo. by apply save_task_fields. Qed.

Lemma handler_then_save_last (e : string) task x :
  is_Some (_task_repository x) →
  last (saved (save_task (with_sys (mark_failed e) task x).1
                         (with_sys (mark_failed e) task x).2).2)
  = Some (with_sys (mark_failed e) task x).1.
Proof.
  intros Hrepo. apply save_task_last.
  by destruct (with_sys_fields (mark_failed e) task x) as (_ & -> & _).
Qed.

(** On every path but the rejection by the safety pre-check, the last thing
    [execute_task] does is to save the task as it returns it. *)
Lemma execute_task_saves_unless_rejected task x :
  is_Some (_task_repository x) →
  (execute_task task x).1.1 = Return tt →
  last (saved (execute_task task x).2) = Some (execute_task task x).1.2
  ∨ error (execute_task task x).1.2 = Some "Safety check failed".
Proof.
  intros Hrepo.
  assert (Hrepo1 : is_Some (_task_repository (started task x).2)).
  { destruct (with_sys_fields mark_in_progress task x) as (_ & Hr & _).
    fold (started task x) in Hr. by rewrite Hr. }
  rewrite execute_task_unfold, execute_task_try_started. cbv zeta.
  pose proof (save_task_keeps_repository (started task x).1 (started task x).2
                Hrepo1) as Hrepo2.
  destruct (save_task (started task x).1 (started task x).2) as [[| |] x2];
    cbn [fst snd] in *; [| |done].
  - pose proof (in_world_fields (_perform_safety_checks (started task x).1) x2)
      as (Hr3 & _).
    destruct (in_world (_perform_safety_checks (started task x).1) x2)
      as [[checks| |] x3]; cbn [fst snd] in *; [| |done].
    + destruct (existsb failed_check checks); cbn [fst snd].
      * intros _. right.
        apply (with_sys_mark_failed_spec "Safety check failed").
      * pose proof (in_world_fields
                      (_execute_task_internal (started task x).1) x3)
          as (Hr4 & _).
        destruct (in_world (_execute_task_internal (started task x).1) x3)
          as [[r| |] x4]; cbn [fst snd] in *; [| |done].
        -- intros _. left. apply save_task_last.
           destruct (with_sys_fields (mark_completed r) (started task x).1 x4)
             as (_ & -> & _). by rewrite Hr4, Hr3.
        -- intros _. left. apply handler_then_save_last.
           by rewrite Hr4, Hr3.
    + intros _. left. apply handler_then_save_last. by rewrite Hr3.
  - intros _. left. by apply handler_then_save_last.
Qed.

(** C2, where the code departs from it: when the safety pre-check rejects
    the task, [execute_task] marks the task Failed and returns it at once.
    The last state handed to [save] is the InProgress one; the Failed state
    the caller receives was never saved. *)
Theorem execute_task_rejection_skips_final_save
    task x (x2 x3 : Exec R W) (checks : list SafetyCheck) :
  is_Some (_task_repository x) →
  save_task (started task x).1 (started task x).2 = (Return tt, x2) →
  in_world (_perform_safety_checks (started task x).1) x2
  = (Return checks, x3) →
  existsb failed_check checks = true →
  ∃ t x',
    execute_task task x = (Return tt, t, x')
    ∧ status t = FAILED
    ∧ error t = Some "Safety check failed"
    ∧ saved x' = saved x ++ [(started task x).1]
    ∧ status (started task x).1 = IN_PROGRESS
    ∧ last (saved x') ≠ Some t.
Proof.
  intros Hrepo Hsave Hchecks Hfailed.
  assert (Hsaved : saved x3 = saved x ++ [(started task x).1]).
  { pose proof (in_world_fields (_perform_safety_checks (started task x).1) x2)
      as (_ & Hs & _).
    rewrite Hchecks in Hs. cbn [snd] in Hs. rewrite Hs.
    destruct (with_sys_fields mark_in_progress task x) as (_ & Hr & Hs1 & _).
    fold (started task x) in Hr, Hs1.
    destruct (save_task_fields (started task x).1 (started task x).2)
      as (_ & Hsv & _).
    destruct Hsv as [Hsv _]; [by rewrite Hr|].
    rewrite Hsave in Hsv. cbn [snd] in Hsv. by rewrite Hsv, Hs1. }
  eexists _, _. split.
  { rewrite execute_task_unfold, execute_task_try_started. cbv zeta.
    rewrite Hsave, Hchecks, Hfailed. reflexivity. }
  destruct (with_sys_mark_failed_spec "Safety check failed"
              (started task x).1 x3) as [Hst Herr].
  destruct (with_sys_fields (mark_failed "Safety check failed")
              (started task x).1 x3) as (_ & _ & Hs & _).
  split_and!; [done | done | by rewrite Hs | apply started_status |].
  rewrite Hs, Hsaved, last_snoc. intros Heq.
  pose proof (started_status task x) as Hip.
  apply (f_equal (fmap status)) in Heq. cbn [fmap option_fmap option_map] in Heq.
  rewrite Hip, Hst in Heq. discriminate.
Qed.

(** C5. When the role action raises an exception [e], the handler of
    [execute_task] marks the task Failed with [str(e)] as its error, and
    [execute_task] goes on to its final [save]: how that [save] ends is how
    [execute_task] ends. So [e] does not leave [execute_task]; with no
    repository configured the call returns. *)
Theorem execute_task_catches_role_exception
    task x (x2 x3 x4 : Exec R W) (checks : list SafetyCheck) (e : exn) :
  save_task (started task x).1 (started task x).2 = (Return tt, x2) →
  in_world (_perform_safety_checks (started task x).1) x2
  = (Return checks, x3) →
  existsb failed_check checks = false →
  in_world (_execute_task_internal (started task x).1) x3 = (Raise e, x4) →
  let t := (with_sys (mark_failed (str_exn e)) (started task x).1 x4).1 in
  let x5 := (with_sys (mark_failed (str_exn e)) (started task x).1 x4).2 in
  status t = FAILED
  ∧ error t = Some (str_exn e)
  ∧ execute_task task x = ((save_task t x5).1, t, (save_task t x5).2)
  ∧ (_task_repository x = None → execute_task task x = (Return tt, t, x5)).
Proof.
  intros Hsave Hchecks Hpass Hraise t x5.
  assert (Hrun : execute_task task x = ((save_task t x5).1, t, (save_task t x5).2)).
  { rewrite execute_task_unfold, execute_task_try_started. cbv zeta.
    by rewrite Hsave, Hchecks, Hpass, Hraise. }
  split_and!; [apply with_sys_mark_failed_spec .. | done |].
  intros Hnone. rewrite Hrun.
  assert (Hnone5 : _task_repository x5 = None).
  { subst x5.
    destruct (with_sys_fields (mark_failed (str_exn e)) (started task x).1 x4)
      as (_ & -> & _).
    pose proof (in_world_fields (_execute_task_internal (started task x).1) x3)
      as (Hr4 & _).
    rewrite Hraise in Hr4. cbn [snd] in Hr4. rewrite Hr4.
    pose proof (in_world_fields (_perform_safety_checks (started task x).1) x2)
      as (Hr3 & _).
    rewrite Hchecks in Hr3. cbn [snd] in Hr3. rewrite Hr3.
    destruct (with_sys_fields mark_in_progress task x) as (_ & Hr1 & _).
    fold (started task x) in Hr1.
    assert (Hn1 : _task_repository (started task x).2 = None) by congruence.
    rewrite (save_task_without_repository _ _ Hn1) in Hsave.
    injection Hsave as <-. done. }
  by rewrite save_task_without_repository.
Qed.

End execute_task_paths.

Lemma execute_task_rejection_skips_final_save_witness :
  ∃ t x',
    @execute_task _ _ InMemoryRepository rejecting (task_in PENDING) exec0
    = (Return tt, t, x')
    ∧ status t = FAILED
    ∧ error t = Some "Safety check failed"
    ∧ saved x'
      = saved exec0
        ++ [(@started (gmap string Task) nat (task_in PENDING) exec0).1]
    ∧ status (@started (gmap string Task) nat (task_in PENDING) exec0).1
      = IN_PROGRESS
    ∧ last (saved x') ≠ Some t.
Proof.
  eapply (@execute_task_rejection_skips_final_save
            _ _ InMemoryRepository rejecting (task_in PENDING) exec0).
  - by eexists.
  - reflexivity.
  - reflexivity.
  - reflexivity.
Defined.

Lemma execute_task_catches_role_exception_witness :
  ∃ t x',
    @execute_task _ _ InMemoryRepository failing (task_in PENDING) exec0
    = (Return tt, t, x')
    ∧ status t = FAILED
    ∧ error t = Some "boom".
Proof.
  pose proof (@execute_task_catches_role_exception
                _ _ InMemoryRepository failing (task_in PENDING) exec0
                _ _ _ _ _ eq_refl eq_refl eq_refl eq_refl)
    as (Hst & Herr & Hrun & _).
  eexists _, _. split_and!; [exact Hrun | exact Hst | exact Herr].
Defined.

(** ** The in-memory bus *)

(** A subsequence keeps the order of any two of its positions. *)
Lemma sublist_lookup_1 {A} (l1 l2 : list A) (i : nat) (x : A) :
  sublist l1 l2 → l1 !! i = Some x → ∃ i', l2 !! i' = Some x.
Proof.
  intros Hsub Hi. apply list_elem_of_lookup.
  eapply elem_of_sublist; [|done]. apply list_elem_of_lookup. eauto.
Qed.

Lemma sublist_lookup_2 {A} (l1 l2 : list A) :
  sublist l1 l2 →
  ∀ i j x y, l1 !! i = Some x → l1 !! j = Some y → i < j →
  ∃ i' j', l2 !! i' = Some x ∧ l2 !! j' = Some y ∧ i' < j'.
Proof.
  induction 1 as [|z l1 l2 Hsub IH|z l1 l2 Hsub IH]; intros i j x y Hi Hj Hij.
  - by rewrite lookup_nil in Hi.
  - destruct j as [|j]; [lia|]. destruct i as [|i].
    + injection Hi as ->.
      destruct (sublist_lookup_1 l1 l2 j y Hsub Hj) as [j' Hj'].
      exists 0, (S j'). split_and!; [done | done | lia].
    + destruct (IH i j x y Hi Hj) as (i' & j' & ? & ? & ?); [lia|].
      exists (S i'), (S j'). split_and!; [done | done | lia].
  - destruct (IH i j x y Hi Hj Hij) as (i' & j' & ? & ? & ?).
    exists (S i'), (S j'). split_and!; [done | done | lia].
Qed.

Section bus_facts.
Context {H : Type}.

Implicit Types (b : Bus.InMemoryEventBus H) (ops : list (Bus.op H)).

Lemma publish_returns (message : Message) b :
  Bus.publish message b
  = (Return tt,
     Bus.mkBus (Bus._subscribers b) (Bus._message_queue b ++ [message]) true).
Proof.
  unfold Bus.publish, Asyncio.put, Asyncio.full, Bus._message_queue_maxsize.
  by destruct (decide (0 ≤ 0)%Z); [|lia].
Qed.

Lemma run_snoc ops (o : Bus.op H) :
  Bus.run (ops ++ [o]) = Bus.run_op (Bus.run ops) o.
Proof. unfold Bus.run. by rewrite foldl_app. Qed.

(** What was published is what the processor has taken so far followed by what
    is still queued, and the invocations are among what was taken, in order. *)
Lemma run_invariant ops :
  ∃ taken,
    Bus.published (Bus.run ops)
    = taken ++ Bus._message_queue (Bus.bus (Bus.run ops))
    ∧ sublist (Bus.invoked (Bus.run ops)).*2 taken.
Proof.
  induction ops as [|o ops IH] using rev_ind.
  - exists []. split; [done | constructor].
  - destruct IH as (taken & Hpub & Hinv). rewrite run_snoc.
    destruct o as [m|a cb|a| |]; unfold Bus.run_op.
    + rewrite publish_returns. exists taken. cbn. split; [|done].
      by rewrite Hpub, app_assoc.
    + by exists taken.
    + exists taken. unfold Bus.unsubscribe.
      by destruct (decide _).
    + unfold Bus._message_processor.
      destruct (Bus._running (Bus.bus (Bus.run ops))); [|by exists taken].
      destruct (Bus._message_queue (Bus.bus (Bus.run ops))) as [|m q] eqn:Hq.
      * exists taken. by cbn.
      * cbn. exists (taken ++ [m]).
        destruct (Bus._subscribers (Bus.bus (Bus.run ops))
                    !! str_AgentId (receiver_id m)) as [cb|]; cbn.
        -- split; [by rewrite Hpub, <- app_assoc|].
           rewrite fmap_app. by apply sublist_app.
        -- split; [by rewrite Hpub, <- app_assoc|].
           by apply sublist_inserts_r.
    + by exists taken.
Qed.

Lemma invoked_sublist_published ops :
  sublist (Bus.invoked (Bus.run ops)).*2 (Bus.published (Bus.run ops)).
Proof.
  destruct (run_invariant ops) as (taken & -> & Hsub).
  by apply sublist_inserts_r.
Qed.

(** C6. On the in-memory bus, whatever its clients and its processor do:
    if [m1] was published before [m2] and the messages published are distinct
    objects, then a callback invocation with [m1] comes before any callback
    invocation with [m2]. This holds for all messages of the bus, so for
    those of one sender to one receiver. *)
Theorem InMemoryEventBus_delivers_in_publish_order
    ops (m1 m2 : Message) (p1 p2 p3 : list Message) (k l : nat) (h1 h2 : H) :
  Bus.published (Bus.run ops) = p1 ++ m1 :: p2 ++ m2 :: p3 →
  NoDup (Bus.published (Bus.run ops)) →
  Bus.invoked (Bus.run ops) !! k = Some (h1, m1) →
  Bus.invoked (Bus.run ops) !! l = Some (h2, m2) →
  k < l.
Proof.
  intros Hpub Hnd Hk Hl.
  pose proof (invoked_sublist_published ops) as Hsub.
  assert (Hk' : (Bus.invoked (Bus.run ops)).*2 !! k = Some m1)
    by by rewrite list_lookup_fmap, Hk.
  assert (Hl' : (Bus.invoked (Bus.run ops)).*2 !! l = Some m2)
    by by rewrite list_lookup_fmap, Hl.
  assert (H1 : Bus.published (Bus.run ops) !! length p1 = Some m1).
  { rewrite Hpub. by apply list_lookup_middle. }
  assert (H2 : Bus.published (Bus.run ops) !! (length p1 + S (length p2))
               = Some m2).
  { rewrite Hpub, lookup_app_r by lia.
    replace (length p1 + S (length p2) - length p1) with (S (length p2))
      by lia.
    change ((m1 :: p2 ++ m2 :: p3) !! S (length p2))
      with ((p2 ++ m2 :: p3) !! length p2).
    by apply list_lookup_middle. }
  destruct (decide (k < l)) as [|Hge]; [done|]. exfalso.
  destruct (decide (k = l)) as [->|Hne].
  - rewrite Hk' in Hl'. injection Hl' as <-.
    pose proof (NoDup_lookup _ _ _ _ Hnd H1 H2). lia.
  - destruct (sublist_lookup_2 _ _ Hsub l k m2 m1 Hl' Hk')
      as (i' & j' & Hi' & Hj' & Hlt); [lia|].
    pose proof (NoDup_lookup _ _ _ _ Hnd H1 Hj').
    pose proof (NoDup_lookup _ _ _ _ Hnd H2 Hi'). lia.
Qed.

(** C7, as the code has it. [publish] on the in-memory bus always returns,
    having put the message at the end of the one queue the bus has, which
    all receivers share; however many messages are published, all of them
    are queued. *)
Theorem publish_always_enqueues (message : Message) b
    (messages : list Message) :
  Bus.publish message b
  = (Return tt,
     Bus.mkBus (Bus._subscribers b) (Bus._message_queue b ++ [message]) true)
  ∧ Bus._message_queue
      (Bus.bus (Bus.run (Bus.Publish <$> messages : list (Bus.op H))))
    = messages.
Proof.
  split; [apply publish_returns|].
  induction messages as [|m ms IH] using rev_ind; [done|].
  rewrite fmap_app. cbn [fmap list_fmap]. rewrite run_snoc.
  unfold Bus.run_op. rewrite publish_returns. cbn. by rewrite IH.
Qed.

End bus_facts.

Lemma InMemoryEventBus_delivers_in_publish_order_witness :
  let m1 := message_of id3 id1 id2 in
  let m2 := message_of id4 id1 id2 in
  let h := _handle_message (mkAgentId id2) in
  let ops := [ Bus.Subscribe (mkAgentId id2) h;
               Bus.Publish m1; Bus.Publish m2; Bus.Process; Bus.Process ] in
  Bus.invoked (Bus.run ops) = [(h, m1); (h, m2)] ∧ 0 < 1.
Proof.
  split; [reflexivity|].
  apply (InMemoryEventBus_delivers_in_publish_order
           [ Bus.Subscribe (mkAgentId id2) (_handle_message (mkAgentId id2));
             Bus.Publish (message_of id3 id1 id2);
             Bus.Publish (message_of id4 id1 id2);
             Bus.Process; Bus.Process ]
           (message_of id3 id1 id2) (message_of id4 id1 id2) [] [] []
           0 1 (_handle_message (mkAgentId id2))
           (_handle_message (mkAgentId id2))).
  - reflexivity.
  - apply NoDup_cons. split.
    + intros Hin. apply list_elem_of_singleton in Hin. discriminate.
    + apply NoDup_singleton.
  - reflexivity.
  - reflexivity.
Defined.

(** C7, as the claim states it, fails: no sequence of operations on the bus
    brings it to a state in which a [publish] does anything but return. *)
Lemma publish_never_reports_capacity :
  ¬ ∃ (ops : list (Bus.op callback)) (message : Message),
      (Bus.publish message (Bus.bus (Bus.run ops))).1 ≠ Return tt.
Proof. intros (ops & message & Hne). by rewrite publish_returns in Hne. Qed.

(** ** The safety interlock *)

Section sending_facts.

#[local] Abbreviation B := (Bus.InMemoryEventBus callback).

Implicit Types (env : Env B) (self : BaseAgent).

Lemma sends_nothing env b : _event_bus env = Some b → sends env env [].
Proof. intros Hb. exists b, b. by rewrite app_nil_r. Qed.

Lemma sends_then env1 env2 env3 (l1 l2 : list Message) :
  sends env1 env2 l1 → sends env2 env3 l2 → sends env1 env3 (l1 ++ l2).
Proof.
  intros (b1 & b2 & H1 & H2 & Hq & Hs) (b2' & b3 & H2' & H3 & Hq' & Hs').
  rewrite H2 in H2'. injection H2' as <-.
  exists b1, b3. split_and!; [done | done | | congruence].
  by rewrite Hq', Hq, app_assoc.
Qed.

Lemma sends_bus env env' (sent : list Message) :
  sends env env' sent → is_Some (_event_bus env').
Proof. intros (b & b' & _ & -> & _). by eexists. Qed.

Lemma send_message_sends self (receiver : AgentId) (content : dict)
    (message_type : string) env :
  is_Some (_event_bus env) →
  ∃ env' m,
    send_message self receiver content message_type env = (Return tt, env')
    ∧ sends env env' [m]
    ∧ view m = (_id self, receiver, message_type, content).
Proof.
  intros [b Hb]. unfold send_message. rewrite Hb.
  unfold new_Message, uuid4, utcnow. cbn.
  rewrite publish_returns. eexists _, (mkMessage _ _ _ _ _ _).
  split_and!; [reflexivity | | reflexivity].
  eexists _, _. split_and!; [done | reflexivity | reflexivity | reflexivity].
Qed.

Lemma send_message_without_bus self (receiver : AgentId) (content : dict)
    (message_type : string) env :
  _event_bus env = None →
  send_message self receiver content message_type env = (Return tt, env).
Proof. intros Hb. unfold send_message. by rewrite Hb. Qed.

Lemma for_each_send_sends self (content : dict) (message_type : string)
    (receivers : list AgentId) env :
  is_Some (_event_bus env) →
  ∃ env' sent,
    for_each receivers
      (fun receiver => send_message self receiver content message_type) env
    = (Return tt, env')
    ∧ sends env env' sent
    ∧ view <$> sent
      = (fun receiver => (_id self, receiver, message_type, content))
          <$> receivers.
Proof.
  revert env. induction receivers as [|r rs IH]; intros env Hb.
  - exists env, []. split_and!; [done | | done].
    destruct Hb as [b Hb]. by eapply sends_nothing.
  - destruct (send_message_sends self r content message_type env Hb)
      as (env1 & m & Hsend & Hs1 & Hv).
    destruct (IH env1 (sends_bus _ _ _ Hs1)) as (env2 & sent & Hrest & Hs2 & Hvs).
    exists env2, (m :: sent). split_and!.
    + cbn [for_each]. unfold bind. by rewrite Hsend.
    + by apply (sends_then env env1 env2 [m] sent).
    + cbn. by rewrite Hv, Hvs.
Qed.

Lemma broadcast_to_subordinates_sends self (content : dict)
    (message_type : string) env :
  is_Some (_event_bus env) →
  ∃ env' sent,
    broadcast_to_subordinates self content message_type env = (Return tt, env')
    ∧ sends env env' sent
    ∧ view <$> sent
      = (fun receiver => (_id self, receiver, message_type, content))
          <$> _subordinates self.
Proof. apply for_each_send_sends. Qed.

End sending_facts.

Lemma filter_is_halt_view (sent : list Message) :
  view <$> filter is_halt sent
  = filter (fun v => v.1.2 = "emergency_command") (view <$> sent).
Proof.
  induction sent as [|m sent IH]; [done|].
  rewrite fmap_cons, !filter_cons.
  destruct (decide (is_halt m)) as [Hm|Hm];
    destruct (decide ((view m).1.2 = "emergency_command")) as [Hv|Hv];
    try (by destruct Hm); try (by destruct Hv).
  - by rewrite fmap_cons, IH.
  - done.
Qed.

Lemma filter_halt_among_alerts (sender : AgentId) (content : dict)
    (receivers : list AgentId) :
  filter (fun v : AgentId * AgentId * string * dict =>
            v.1.2 = "emergency_command")
         ((fun receiver => (sender, receiver, "safety_alert", content))
            <$> receivers)
  = [].
Proof.
  induction receivers as [|r rs IH]; [done|].
  rewrite fmap_cons, filter_cons_False; [done|]. cbn. discriminate.
Qed.

Section interlock_claims.
Context `{Themis.Formatting}.

#[local] Abbreviation B := (Bus.InMemoryEventBus callback).

Implicit Types (self : Themis.AgentThemis) (env : Env B).

Lemma exercise_veto_power_sends self env (agent_id : AgentId)
    (violations : list SafetyCheck) :
  is_Some (_event_bus env) →
  ∃ env' sent,
    Themis._exercise_veto_power agent_id violations (self, env)
    = (Return tt, (self, env'))
    ∧ sends env env' sent
    ∧ view <$> sent
      = (_id (Themis.base self), agent_id, "emergency_command",
         Themis.halt_directive violations)
        :: ((fun receiver =>
               (_id (Themis.base self), receiver, "safety_alert",
                Themis.veto_notification agent_id))
              <$> _subordinates (Themis.base self)).
Proof.
  intros Hb.
  destruct (send_message_sends (Themis.base self) agent_id
              (Themis.halt_directive violations) "emergency_command" env Hb)
    as (env1 & m & Hsend & Hs1 & Hv).
  destruct (broadcast_to_subordinates_sends (Themis.base self)
              (Themis.veto_notification agent_id) "safety_alert" env1
              (sends_bus _ _ _ Hs1))
    as (env2 & sent & Hcast & Hs2 & Hvs).
  exists env2, (m :: sent). split_and!.
  - unfold Themis._exercise_veto_power, bind, Themis.in_env.
    by rewrite Hsend, Hcast.
  - by apply (sends_then env env1 env2 [m] sent).
  - cbn. by rewrite Hv, Hvs.
Qed.



End interlock_claims.



Section behavioural_check.
Context `{Themis.Analysis} `{Themis.Formatting}.

(** The branch of [_audit_behavioral_alignment] that C3 meets: an alignment
    score that is not below the medium and high thresholds but below the
    critical one yields a check that passed with critical severity. *)
Lemma behavioral_check_passed_yet_critical
    (self : Themis.AgentThemis) (env : Env (Bus.InMemoryEventBus callback))
    (agent_id : AgentId) :
  let score := Themis._calculate_alignment_score agent_id in
  let limits := Themis._alert_thresholds self in
  Themis.Qltb score (Themis.medium limits) = false →
  Themis.Qltb score (Themis.high limits) = false →
  Themis.Qltb score (Themis.critical limits) = true →
  ∃ check st,
    Themis._audit_behavioral_alignment agent_id (self, env)
    = (Return check, st)
    ∧ check_status check = "passed"
    ∧ severity check = "critical".
Proof.
  intros score limits Hmedium Hhigh Hcritical.
  unfold Themis._audit_behavioral_alignment, bind, Themis.self_,
    Themis.in_env, Themis.new_SafetyCheck.
  destruct (_event_bus env) as [b|] eqn:Hb.
  - destruct (send_message_sends (Themis.base self) agent_id
                [ ("type", PyStr "behavior_audit_request");
                  ("audit_id", PyStr (str_AgentId agent_id)) ]
                "safety_audit" env) as (env1 & m & -> & _ & _);
      [by eexists|].
    cbn [fst]. fold score limits. rewrite Hmedium, Hhigh, Hcritical.
    by do 2 eexists.
  - rewrite send_message_without_bus by done.
    cbn [fst]. fold score limits. rewrite Hmedium, Hhigh, Hcritical.
    by do 2 eexists.
Qed.

End behavioural_check.

(** With the placeholders the program ships, the behavioural check of every
    audit has the status passed and the severity critical, and the
    interpretability check fails. *)
Lemma placeholder_audit :
  ∃ checks st,
    Themis.perform_comprehensive_audit (H0 := Themis.placeholder)
      (H1 := formatting) (mkAgentId id4)
      (overseer, mkEnv world0 (Some Bus.InMemoryEventBus_init))
    = (Return checks, st)
    ∧ check_status <$> checks
      = ["passed"; "passed"; "passed"; "failed"; "passed"]
    ∧ severity <$> checks = ["critical"; "low"; "low"; "high"; "low"].
Proof.
  do 2 eexists. split; [vm_compute; reflexivity|].
  split; vm_compute; reflexivity.
Qed.


(** ** The supervision registry *)

Lemma list_remove_subseteq {A} `{EqDecision A} (x y : A) (l : list A) :
  y ∈ list_remove x l → y ∈ l.
Proof.
  induction l as [|z l IH]; cbn; [done|].
  destruct (decide (x = z)); rewrite ?elem_of_cons; [by right|].
  intros [->|Hin]; [by left | right; by apply IH].
Qed.

Lemma list_remove_NoDup {A} `{EqDecision A} (x : A) (l : list A) :
  NoDup l → x ∉ list_remove x l.
Proof.
  induction 1 as [|z l Hz Hnd IH]; cbn; [apply not_elem_of_nil|].
  destruct (decide (x = z)) as [->|Hne]; [done|].
  rewrite elem_of_cons. intros [?|?]; [done | by apply IH].
Qed.

Lemma str_AgentId_mk (a : AgentId) : mkAgentId (str_AgentId a) = a.
Proof. by destruct a. Qed.

Lemma elem_of_str_AgentId (text : string) (l : list AgentId) :
  text ∈ str_AgentId <$> l ↔ mkAgentId text ∈ l.
Proof.
  rewrite list_elem_of_fmap. split.
  - intros (a & -> & Ha). by rewrite str_AgentId_mk.
  - intros Ha. by exists (mkAgentId text).
Qed.

Section registry_facts.
Context {R : Type}.

#[local] Abbreviation B := (Bus.InMemoryEventBus callback).

Implicit Types (m : Manager.AgentManager B R) (agent : BaseAgent).

Lemma severed_subordinates (agent_id child : string) agent :
  child ∈ str_AgentId <$> _subordinates (Manager.severed agent_id agent) →
  child ∈ str_AgentId <$> _subordinates agent.
Proof.
  unfold Manager.severed, remove_subordinate.
  destruct (decide (agent_id ∈ _)); [|done].
  destruct (decide (mkAgentId agent_id ∈ _)); [|done]. cbn.
  rewrite !elem_of_str_AgentId. apply list_remove_subseteq.
Qed.

Lemma severed_gone (agent_id : string) agent :
  NoDup (_subordinates agent) →
  agent_id ∉ str_AgentId <$> _subordinates (Manager.severed agent_id agent).
Proof.
  intros Hnd. unfold Manager.severed, remove_subordinate.
  destruct (decide (agent_id ∈ _)) as [Hin|]; [|done].
  destruct (decide (mkAgentId agent_id ∈ _)) as [|Hout].
  - cbn. rewrite elem_of_str_AgentId. by apply list_remove_NoDup.
  - by apply elem_of_str_AgentId in Hin.
Qed.

Lemma severed_supervisor (agent_id : string) agent :
  _supervisor (Manager.severed agent_id agent) = _supervisor agent.
Proof.
  unfold Manager.severed, remove_subordinate.
  destruct (decide (agent_id ∈ _)); [|done].
  by destruct (decide (mkAgentId agent_id ∈ _)).
Qed.

Lemma remove_agent_managed m (agent_id : string) agent :
  Manager._agents m !! agent_id = Some agent →
  ∃ m',
    Manager.remove_agent agent_id m = (Return true, m')
    ∧ Manager._agents m'
      = Manager.severed agent_id <$> delete agent_id (Manager._agents m)
    ∧ Manager._agent_hierarchy m'
      = delete agent_id (Manager._agent_hierarchy m).
Proof.
  intros Hagent. unfold Manager.remove_agent. rewrite Hagent.
  unfold bind, Manager.stop_agent_object, stop. cbn.
  unfold Bus.unsubscribe.
  destruct (decide (is_Some (Bus._subscribers (Manager.manager_event_bus m)
                               !! str_AgentId (_id agent)))); cbn;
    unfold Manager._remove_from_hierarchy; cbn;
    (destruct (decide (is_Some (Manager._agent_hierarchy m !! agent_id)))
       as [|Hnone]; cbn;
     [ eexists; split_and!; [reflexivity | | done]
     | eexists; split_and!; [reflexivity | |] ]);
    try (by rewrite delete_insert_eq);
    symmetry; apply delete_id; by apply eq_None_not_Some.
Qed.

(** C9, as the code has it. Removing a managed agent, in a registry where no
    agent lists a subordinate twice, returns true; afterwards the agent is
    neither in the registry nor a key of the hierarchy cache, no remaining
    agent lists it as a subordinate, and every subordinate edge that is left
    was there before, so that a hierarchy that was single-parent and acyclic
    still is. *)
Theorem remove_agent_severs_subordinate_edges m (agent_id : string) agent :
  Manager._agents m !! agent_id = Some agent →
  Manager.duplicate_free m →
  ∃ m',
    Manager.remove_agent agent_id m = (Return true, m')
    ∧ Manager._agents m' !! agent_id = None
    ∧ Manager._agent_hierarchy m' !! agent_id = None
    ∧ (∀ parent, ¬ Manager.edge m' parent agent_id)
    ∧ (∀ parent child,
         Manager.edge m' parent child → Manager.edge m parent child)
    ∧ (Manager.single_parent m → Manager.single_parent m')
    ∧ (Manager.acyclic m → Manager.acyclic m').
Proof.
  intros Hagent Hnd.
  destruct (remove_agent_managed m agent_id agent Hagent)
    as (m' & Hrun & Hagents & Hcache).
  assert (Hlook : ∀ key a',
    Manager._agents m' !! key = Some a' →
    ∃ a, Manager._agents m !! key = Some a ∧ a' = Manager.severed agent_id a).
  { intros key a'. rewrite Hagents, lookup_fmap, lookup_delete.
    destruct (decide (agent_id = key)); [done|].
    destruct (Manager._agents m !! key) as [a|]; [|done].
    intros [= <-]. by exists a. }
  assert (Hsub : ∀ parent child,
    Manager.edge m' parent child → Manager.edge m parent child).
  { intros parent child (a' & Ha' & Hchild).
    destruct (Hlook parent a' Ha') as (a & Ha & ->).
    exists a. split; [done|]. by eapply severed_subordinates. }
  exists m'. split_and!.
  - done.
  - by rewrite Hagents, lookup_fmap, lookup_delete_eq.
  - by rewrite Hcache, lookup_delete_eq.
  - intros parent (a' & Ha' & Hchild).
    destruct (Hlook parent a' Ha') as (a & Ha & ->).
    by apply (severed_gone agent_id a (Hnd parent a Ha)).
  - done.
  - intros Hsingle parent1 parent2 child H1 H2.
    by apply (Hsingle parent1 parent2 child); apply Hsub.
  - intros Hacyclic a Hcycle. apply (Hacyclic a).
    by apply (tc_congruence (fun a => a) (Manager.edge m) a a Hsub).
Qed.

End registry_facts.

Lemma registry_duplicate_free : Manager.duplicate_free registry.
Proof.
  change (map_Forall (fun _ agent => NoDup (_subordinates agent))
                     (Manager._agents registry)).
  apply (bool_decide_unpack _). vm_compute. exact I.
Qed.

Lemma remove_agent_severs_subordinate_edges_witness :
  ∃ m',
    Manager.remove_agent id2 registry = (Return true, m')
    ∧ Manager._agents m' !! id2 = None
    ∧ Manager._agent_hierarchy m' !! id2 = None
    ∧ (∀ parent, ¬ Manager.edge m' parent id2)
    ∧ (∀ parent child,
         Manager.edge m' parent child → Manager.edge registry parent child)
    ∧ (Manager.single_parent registry → Manager.single_parent m')
    ∧ (Manager.acyclic registry → Manager.acyclic m').
Proof.
  eapply (remove_agent_severs_subordinate_edges registry id2).
  - reflexivity.
  - exact registry_duplicate_free.
Defined.

(** C9, as the claim states it, fails: after the specialist is removed, the
    leaf that was under it still names it as its supervisor, and the
    hierarchy cache still lists it under the coordinator. *)
Lemma remove_agent_leaves_supervisor_pointer :
  (Manager.remove_agent id2 registry).1 = Return true
  ∧ Manager.points_at (Manager.remove_agent id2 registry).2 id3 id2
  ∧ Manager._agent_hierarchy (Manager.remove_agent id2 registry).2 !! id1
    = Some [id2].
Proof.
  split_and!.
  - vm_compute. reflexivity.
  - eexists. split; vm_compute; reflexivity.
  - vm_compute. reflexivity.
Qed.

(* ===================================================================== *)
(** * Part III: further properties of the code *)
(* ===================================================================== *)

(** ** The in-memory bus: routing, delivery, stopping *)

Section bus_delivery.
Context {H : Type}.

Implicit Types (b : Bus.InMemoryEventBus H) (ops : list (Bus.op H)).

Lemma message_processor_subscribers b :
  Bus._subscribers (Bus._message_processor b).2 = Bus._subscribers b.
Proof.
  unfold Bus._message_processor. destruct (Bus._running b); [|done].
  destruct (Bus._message_queue b) as [|m q]; cbn; [done|].
  by destruct (Bus._subscribers b !! str_AgentId (receiver_id m)).
Qed.

Lemma message_processor_stopped b :
  Bus._running b = false → Bus._message_processor b = (None, b).
Proof. intros Hr. unfold Bus._message_processor. by rewrite Hr. Qed.

Lemma message_processor_running b (m : Message) (q : list Message) :
  Bus._running b = true →
  Bus._message_queue b = m :: q →
  Bus._message_processor b
  = ((fun callback => (callback, m))
       <$> Bus._subscribers b !! str_AgentId (receiver_id m),
     Bus.mkBus (Bus._subscribers b) q true).
Proof.
  intros Hr Hq. unfold Bus._message_processor. rewrite Hr, Hq. cbn.
  by destruct (Bus._subscribers b !! str_AgentId (receiver_id m)).
Qed.

(** Whoever is subscribed was subscribed by a call of [subscribe]. *)
Lemma subscribers_were_subscribed ops (key : string) (h : H) :
  Bus._subscribers (Bus.bus (Bus.run ops)) !! key = Some h →
  ∃ agent_id, Bus.Subscribe agent_id h ∈ ops ∧ str_AgentId agent_id = key.
Proof.
  revert key h. induction ops as [|o ops IH] using rev_ind; intros key h.
  - cbn. by rewrite lookup_empty.
  - rewrite run_snoc. intros Hlook.
    assert (Hold : Bus._subscribers (Bus.bus (Bus.run ops)) !! key = Some h →
                   ∃ agent_id, Bus.Subscribe agent_id h ∈ ops ++ [o]
                               ∧ str_AgentId agent_id = key).
    { intros Hk. destruct (IH key h Hk) as (a & Ha & Hs).
      exists a. split; [|done]. apply elem_of_app. by left. }
    destruct o as [m|a cb|a| |]; unfold Bus.run_op in Hlook.
    + rewrite publish_returns in Hlook. by apply Hold.
    + cbn in Hlook. rewrite lookup_insert in Hlook.
      destruct (decide (str_AgentId a = key)) as [<-|]; [|by apply Hold].
      injection Hlook as ->. exists a. split; [|done].
      apply elem_of_app. right. by apply list_elem_of_singleton.
    + cbn in Hlook. unfold Bus.unsubscribe in Hlook.
      destruct (decide _); cbn in Hlook; [|by apply Hold].
      rewrite lookup_delete in Hlook.
      destruct (decide (str_AgentId a = key)); [done | by apply Hold].
    + apply Hold. rewrite <- message_processor_subscribers.
      by destruct (Bus._message_processor (Bus.bus (Bus.run ops))) as [[]].
    + by apply Hold.
Qed.

(** X1. A message is handed only to a callback that was subscribed under
    the identity of the message's receiver, and only if it was published. *)
Theorem InMemoryEventBus_routes_to_subscriber ops (h : H) (m : Message) :
  (h, m) ∈ Bus.invoked (Bus.run ops) →
  m ∈ Bus.published (Bus.run ops)
  ∧ ∃ agent_id,
      Bus.Subscribe agent_id h ∈ ops
      ∧ str_AgentId agent_id = str_AgentId (receiver_id m).
Proof.
  intros Hin. split.
  { eapply elem_of_sublist; [|apply invoked_sublist_published].
    apply list_elem_of_fmap. by exists (h, m). }
  revert Hin. induction ops as [|o ops IH] using rev_ind.
  - cbn. by intros ?%not_elem_of_nil.
  - rewrite run_snoc. intros Hin.
    assert (Hold : (h, m) ∈ Bus.invoked (Bus.run ops) →
                   ∃ agent_id, Bus.Subscribe agent_id h ∈ ops ++ [o]
                               ∧ str_AgentId agent_id
                                 = str_AgentId (receiver_id m)).
    { intros Hk. destruct (IH Hk) as (a & Ha & Hs).
      exists a. split; [|done]. apply elem_of_app. by left. }
    destruct o as [m'|a cb|a| |]; unfold Bus.run_op in Hin.
    + rewrite publish_returns in Hin. by apply Hold.
    + by apply Hold.
    + by apply Hold.
    + unfold Bus._message_processor in Hin.
      destruct (Bus._running (Bus.bus (Bus.run ops))); [|by apply Hold].
      destruct (Bus._message_queue (Bus.bus (Bus.run ops))) as [|m' q];
        cbn in Hin; [by apply Hold|].
      destruct (Bus._subscribers (Bus.bus (Bus.run ops))
                  !! str_AgentId (receiver_id m')) as [cb|] eqn:Hcb;
        cbn in Hin; [|by apply Hold].
      apply elem_of_app in Hin as [Hin|Hin]; [by apply Hold|].
      apply list_elem_of_singleton in Hin. injection Hin as -> ->.
      destruct (subscribers_were_subscribed ops _ _ Hcb) as (a & Ha & Hs).
      exists a. split; [|done]. apply elem_of_app. by left.
    + by apply Hold.
Qed.

(** X2. No published message is handed to a callback twice, as long as the
    messages published are distinct objects. *)
Theorem InMemoryEventBus_delivers_at_most_once ops :
  NoDup (Bus.published (Bus.run ops)) →
  NoDup (Bus.invoked (Bus.run ops)).*2.
Proof.
  intros Hnd.
  exact (sublist_NoDup _ _ Hnd (invoked_sublist_published ops)).
Qed.

Lemma run_app ops1 ops2 :
  Bus.run (ops1 ++ ops2) = foldl Bus.run_op (Bus.run ops1) ops2.
Proof. unfold Bus.run. by rewrite foldl_app. Qed.

Lemma publish_all (r : Bus.Run H) (ms : list Message) :
  foldl Bus.run_op r (Bus.Publish <$> ms)
  = Bus.mkRun
      (Bus.mkBus (Bus._subscribers (Bus.bus r))
                 (Bus._message_queue (Bus.bus r) ++ ms)
                 (match ms with [] => Bus._running (Bus.bus r) | _ => true end))
      (Bus.published r ++ ms) (Bus.invoked r).
Proof.
  revert r. induction ms as [|m ms IH]; intros [[subs q running] pub inv].
  - cbn. by rewrite !app_nil_r.
  - cbn [fmap list_fmap foldl]. rewrite IH. unfold Bus.run_op.
    rewrite publish_returns. cbn. rewrite <- !app_assoc. cbn.
    by destruct ms.
Qed.

Lemma process_all (subs : gmap string H) (receiver : AgentId) (h : H)
    (ms : list Message) (pub : list Message) (inv : list (H * Message)) :
  subs !! str_AgentId receiver = Some h →
  Forall (fun m => receiver_id m = receiver) ms →
  foldl Bus.run_op (Bus.mkRun (Bus.mkBus subs ms true) pub inv)
        (replicate (length ms) Bus.Process)
  = Bus.mkRun (Bus.mkBus subs [] true) pub (inv ++ ((fun m => (h, m)) <$> ms)).
Proof.
  intros Hsub Hall. revert inv.
  induction Hall as [|m ms Hm Hall IH]; intros inv.
  - cbn. by rewrite app_nil_r.
  - cbn [length replicate foldl]. unfold Bus.run_op at 2.
    rewrite (message_processor_running _ m ms) by done.
    cbn. rewrite Hm, Hsub. cbn. rewrite IH. by rewrite <- app_assoc.
Qed.

Lemma discard_all (ms : list Message) (n : nat) (pub : list Message)
    (inv : list (H * Message)) :
  foldl Bus.run_op (Bus.mkRun (Bus.mkBus ∅ ms true) pub inv)
        (replicate n Bus.Process)
  = Bus.mkRun (Bus.mkBus ∅ (drop n ms) true) pub inv.
Proof.
  revert ms. induction n as [|n IH]; intros ms; [done|].
  cbn [replicate foldl]. destruct ms as [|m ms].
  - unfold Bus.run_op at 2. cbn. rewrite IH. by rewrite drop_nil.
  - unfold Bus.run_op at 2.
    rewrite (message_processor_running _ m ms) by done.
    cbn. rewrite lookup_empty. cbn. by rewrite IH.
Qed.

Lemma stopped_turns (r : Bus.Run H) (n : nat) :
  Bus._running (Bus.bus r) = false →
  foldl Bus.run_op r (replicate n Bus.Process) = r.
Proof.
  intros Hr. induction n as [|n IH]; [done|].
  cbn [replicate foldl]. unfold Bus.run_op at 2.
  rewrite message_processor_stopped by done. by destruct r.
Qed.

(** X3. Subscribe a receiver on a fresh bus, publish any messages addressed
    to it, and give the processor one turn for each: the callback was invoked
    with exactly those messages, each once, in the order of publication, and
    the queue is empty. *)
Theorem InMemoryEventBus_delivers_everything
    (receiver : AgentId) (h : H) (ms : list Message) :
  Forall (fun m => receiver_id m = receiver) ms →
  let r := Bus.run (Bus.Subscribe receiver h
                      :: (Bus.Publish <$> ms)
                      ++ replicate (length ms) Bus.Process) in
  Bus.invoked r = (fun m => (h, m)) <$> ms
  ∧ Bus._message_queue (Bus.bus r) = []
  ∧ Bus.published r = ms.
Proof.
  intros Hall r. subst r.
  change (Bus.Subscribe receiver h
            :: (Bus.Publish <$> ms) ++ replicate (length ms) Bus.Process)
    with ([Bus.Subscribe receiver h]
            ++ ((Bus.Publish <$> ms) ++ replicate (length ms) Bus.Process)).
  rewrite run_app, foldl_app, publish_all.
  destruct ms as [|m ms]; [done|].
  cbn [Bus.run foldl Bus.run_op Bus.subscribe Bus.bus Bus._subscribers
       Bus._message_queue Bus.published Bus.invoked Bus.InMemoryEventBus_init
       snd app].
  rewrite (process_all _ receiver h); [done | apply lookup_insert_eq | done].
Qed.

(** X4. Messages published while nobody is subscribed are taken from the
    queue turn by turn and discarded: no callback is invoked, and after [n]
    turns the first [n] messages are gone. *)
Theorem InMemoryEventBus_discards_without_subscriber
    (ms : list Message) (n : nat) :
  let r := Bus.run ((Bus.Publish <$> ms : list (Bus.op H))
                      ++ replicate n Bus.Process) in
  Bus.invoked r = []
  ∧ Bus._message_queue (Bus.bus r) = drop n ms
  ∧ Bus.published r = ms.
Proof.
  intros r. subst r. rewrite run_app. unfold Bus.run.
  rewrite publish_all. cbn [Bus.bus Bus._subscribers Bus._message_queue
    Bus.published Bus.invoked Bus.InMemoryEventBus_init Bus._running app].
  destruct ms as [|m ms].
  - rewrite stopped_turns by done. rewrite drop_nil.
    split_and!; reflexivity.
  - rewrite discard_all. split_and!; reflexivity.
Qed.


End bus_delivery.

Lemma InMemoryEventBus_routes_to_subscriber_witness :
  let m := message_of id3 id1 id2 in
  let h := _handle_message (mkAgentId id2) in
  let ops := [Bus.Subscribe (mkAgentId id2) h; Bus.Publish m; Bus.Process] in
  m ∈ Bus.published (Bus.run ops)
  ∧ ∃ agent_id,
      Bus.Subscribe agent_id h ∈ ops
      ∧ str_AgentId agent_id = str_AgentId (receiver_id m).
Proof.
  apply (InMemoryEventBus_routes_to_subscriber
           [ Bus.Subscribe (mkAgentId id2) (_handle_message (mkAgentId id2));
             Bus.Publish (message_of id3 id1 id2); Bus.Process ]
           (_handle_message (mkAgentId id2)) (message_of id3 id1 id2)).
  vm_compute. apply list_elem_of_here.
Defined.

Lemma InMemoryEventBus_delivers_at_most_once_witness :
  NoDup (Bus.invoked
           (Bus.run
              [ Bus.Subscribe (mkAgentId id2) (_handle_message (mkAgentId id2));
                Bus.Publish (message_of id3 id1 id2); Bus.Process ])).*2.
Proof.
  apply (InMemoryEventBus_delivers_at_most_once
           [ Bus.Subscribe (mkAgentId id2) (_handle_message (mkAgentId id2));
             Bus.Publish (message_of id3 id1 id2); Bus.Process ]).
  vm_compute. apply NoDup_singleton.
Defined.

Lemma InMemoryEventBus_delivers_everything_witness :
  let m1 := message_of id3 id1 id2 in
  let m2 := message_of id4 id1 id2 in
  let h := _handle_message (mkAgentId id2) in
  let r := Bus.run (Bus.Subscribe (mkAgentId id2) h
                      :: (Bus.Publish <$> [m1; m2])
                      ++ replicate 2 Bus.Process) in
  Bus.invoked r = [(h, m1); (h, m2)]
  ∧ Bus._message_queue (Bus.bus r) = []
  ∧ Bus.published r = [m1; m2].
Proof.
  apply (InMemoryEventBus_delivers_everything (mkAgentId id2)
           (_handle_message (mkAgentId id2))
           [message_of id3 id1 id2; message_of id4 id1 id2]).
  repeat constructor.
Defined.

(** ** The agent runtime: handling, activation, edges, messaging *)

Section handling_facts.
Context {B W : Type} `{EventBus B callback} `{Responder B W}.

(** X6. [_handle_message] never raises: whatever [process_message] or
    [publish] raise is taken by its handler. When [process_message] raises,
    the state is left as [process_message] left it and nothing is
    published. *)
Theorem handle_message_never_raises (message : Message) (st : W * Env B) :
  (∀ e, (handle_message message st).1 ≠ Raise e)
  ∧ (∀ e st', process_message message st = (Raise e, st') →
              handle_message message st = (Return tt, st'))
  ∧ (∀ st', process_message message st = (Return None, st') →
            handle_message message st = (Return tt, st')).
Proof.
  unfold handle_message. split_and!.
  - intros e. destruct (process_message message st) as [[[response|]| |] [w env]];
      cbn; try done.
    destruct (_event_bus env) as [b|]; [|done].
    by destruct (bus_publish response b) as [[]].
  - by intros e st' ->.
  - by intros st' ->.
Qed.

End handling_facts.

Section reply_facts.
Context {W : Type} `{Responder (Bus.InMemoryEventBus callback) W}.

(** X7. On the in-memory bus, a reply that [process_message] returns is
    published by [_handle_message] exactly once: it joins the end of the
    queue, after whatever [process_message] itself sent. *)
Theorem handle_message_publishes_reply
    (message response : Message) (st : W * Env (Bus.InMemoryEventBus callback))
    (w : W) (env : Env (Bus.InMemoryEventBus callback))
    (b : Bus.InMemoryEventBus callback) :
  process_message message st = (Return (Some response), (w, env)) →
  _event_bus env = Some b →
  handle_message message st
  = (Return tt,
     (w, mkEnv (sys env)
           (Some (Bus.mkBus (Bus._subscribers b)
                            (Bus._message_queue b ++ [response]) true)))).
Proof.
  intros Hp Hb. unfold handle_message. rewrite Hp, Hb.
  change (bus_publish response b) with (Bus.publish response b).
  by rewrite publish_returns.
Qed.

End reply_facts.

Section activation_facts.

#[local] Abbreviation B := (Bus.InMemoryEventBus callback).

Implicit Types (self : BaseAgent) (env : Env B).

Lemma start_in_memory self env b :
  _event_bus env = Some b →
  start (self, env)
  = (Return tt,
     (set_is_active true self,
      mkEnv (sys env)
        (Some (Bus.mkBus
                 (<[str_AgentId (_id self) := _handle_message (_id self)]>
                    (Bus._subscribers b))
                 (Bus._message_queue b) (Bus._running b))))).
Proof. intros Hb. unfold start. by rewrite Hb. Qed.

Lemma stop_in_memory self env b :
  _event_bus env = Some b →
  stop (self, env)
  = (Return tt,
     (set_is_active false self,
      mkEnv (sys env)
        (Some (Bus.mkBus (delete (str_AgentId (_id self)) (Bus._subscribers b))
                         (Bus._message_queue b) (Bus._running b))))).
Proof.
  intros Hb. unfold stop. rewrite Hb. cbn. unfold Bus.unsubscribe.
  destruct (decide _) as [|Hnone]; [done|]. cbn.
  rewrite delete_id by by apply eq_None_not_Some. by destruct b.
Qed.

(** X8. On the in-memory bus [start] and [stop] are idempotent; after
    [start] the agent is active and subscribed under its own identity with
    its own callback; after [stop] it is inactive and nobody is subscribed
    under its identity. Neither touches its subordinates, its supervisor or
    the queue of the bus. *)
Theorem start_stop_in_memory self env b :
  _event_bus env = Some b →
  (start ;; start) (self, env) = start (self, env)
  ∧ (stop ;; stop) (self, env) = stop (self, env)
  ∧ (∃ self' env' b',
       start (self, env) = (Return tt, (self', env'))
       ∧ _event_bus env' = Some b'
       ∧ _is_active self' = true
       ∧ Bus._subscribers b' !! str_AgentId (_id self)
         = Some (_handle_message (_id self))
       ∧ _subordinates self' = _subordinates self
       ∧ _supervisor self' = _supervisor self
       ∧ Bus._message_queue b' = Bus._message_queue b)
  ∧ (∃ self' env' b',
       (start ;; stop) (self, env) = (Return tt, (self', env'))
       ∧ _event_bus env' = Some b'
       ∧ _is_active self' = false
       ∧ Bus._subscribers b' !! str_AgentId (_id self) = None
       ∧ _subordinates self' = _subordinates self
       ∧ _supervisor self' = _supervisor self
       ∧ Bus._message_queue b' = Bus._message_queue b).
Proof.
  intros Hb. split_and!.
  - unfold bind. rewrite (start_in_memory self env b Hb).
    erewrite start_in_memory by done. cbn. by rewrite insert_insert_eq.
  - unfold bind. rewrite (stop_in_memory self env b Hb).
    erewrite stop_in_memory by done. cbn. by rewrite delete_delete_eq.
  - rewrite (start_in_memory self env b Hb). do 3 eexists.
    split_and!; try reflexivity. cbn. apply lookup_insert_eq.
  - unfold bind. rewrite (start_in_memory self env b Hb).
    erewrite stop_in_memory by done. do 3 eexists.
    split_and!; try reflexivity. cbn. apply lookup_delete_eq.
Qed.

End activation_facts.

Lemma start_stop_in_memory_witness :
  let self := BaseAgent_init (mkAgentId id1) (Some PROMETHEUS) in
  let env := mkEnv world0 (Some (Bus.InMemoryEventBus_init (H := callback))) in
  (start ;; start) (self, env) = start (self, env)
  ∧ (stop ;; stop) (self, env) = stop (self, env).
Proof.
  pose proof (start_stop_in_memory
                (BaseAgent_init (mkAgentId id1) (Some PROMETHEUS))
                (mkEnv world0 (Some Bus.InMemoryEventBus_init))
                Bus.InMemoryEventBus_init eq_refl) as (H1 & H2 & _).
  split; [exact H1 | exact H2].
Defined.

(** *** Subordinate lists *)

Lemma list_remove_other {A} `{EqDecision A} (x y : A) (l : list A) :
  x ≠ y → y ∈ l → y ∈ list_remove x l.
Proof.
  intros Hne. induction l as [|z l IH]; cbn; [done|].
  destruct (decide (x = z)) as [->|].
  - rewrite elem_of_cons. by intros [->|].
  - rewrite !elem_of_cons. intros [->|Hin]; [by left | right; by apply IH].
Qed.

Lemma list_remove_snoc {A} `{EqDecision A} (x : A) (l : list A) :
  x ∉ l → list_remove x (l ++ [x]) = l.
Proof.
  induction l as [|z l IH]; cbn.
  - intros _. by destruct (decide (x = x)).
  - rewrite elem_of_cons. intros Hnot.
    destruct (decide (x = z)) as [->|]; [by destruct Hnot; left|].
    rewrite IH; [done|]. intros Hin. apply Hnot. by right.
Qed.

Lemma list_remove_keeps_NoDup {A} `{EqDecision A} (x : A) (l : list A) :
  NoDup l → NoDup (list_remove x l).
Proof.
  induction 1 as [|z l Hz Hnd IH]; cbn; [constructor|].
  destruct (decide (x = z)); [done|].
  constructor; [|done]. intros Hin. by apply Hz, (list_remove_subseteq x).
Qed.

(** X9. [add_subordinate] keeps a subordinate list free of duplicates, lists
    the new subordinate, keeps the ones that were listed, and does nothing
    the second time. *)
Theorem add_subordinate_keeps_duplicate_free
    (subordinate_id : AgentId) (self : BaseAgent) :
  NoDup (_subordinates self) →
  NoDup (_subordinates (add_subordinate subordinate_id self))
  ∧ subordinate_id ∈ _subordinates (add_subordinate subordinate_id self)
  ∧ (∀ other, other ∈ _subordinates self →
              other ∈ _subordinates (add_subordinate subordinate_id self))
  ∧ add_subordinate subordinate_id (add_subordinate subordinate_id self)
    = add_subordinate subordinate_id self.
Proof.
  intros Hnd. unfold add_subordinate.
  destruct (decide (subordinate_id ∈ _subordinates self)) as [Hin|Hout].
  - split_and!; [done | done | done |]. by rewrite decide_True.
  - cbn. split_and!.
    + apply NoDup_app. split_and!; [done | | apply NoDup_singleton].
      intros x Hx ->%list_elem_of_singleton. by apply Hout.
    + apply elem_of_app. right. by apply list_elem_of_singleton.
    + intros other Hother. apply elem_of_app. by left.
    + rewrite decide_True; [done|].
      apply elem_of_app. right. by apply list_elem_of_singleton.
Qed.

(** X10. On a list free of duplicates [remove_subordinate] removes the
    subordinate and nobody else and keeps the list free of duplicates; and
    it undoes an [add_subordinate] of a subordinate that was not listed. *)
Theorem remove_subordinate_undoes_add
    (subordinate_id : AgentId) (self : BaseAgent) :
  NoDup (_subordinates self) →
  subordinate_id ∉ _subordinates (remove_subordinate subordinate_id self)
  ∧ NoDup (_subordinates (remove_subordinate subordinate_id self))
  ∧ (∀ other, other ≠ subordinate_id →
       (other ∈ _subordinates (remove_subordinate subordinate_id self)
        ↔ other ∈ _subordinates self))
  ∧ (subordinate_id ∉ _subordinates self →
     remove_subordinate subordinate_id (add_subordinate subordinate_id self)
     = self).
Proof.
  intros Hnd. split_and!.
  - unfold remove_subordinate.
    destruct (decide (subordinate_id ∈ _subordinates self)); [|done].
    cbn. by apply list_remove_NoDup.
  - unfold remove_subordinate.
    destruct (decide (subordinate_id ∈ _subordinates self)); [|done].
    cbn. by apply list_remove_keeps_NoDup.
  - intros other Hne. unfold remove_subordinate.
    destruct (decide (subordinate_id ∈ _subordinates self)); [|done].
    cbn. split; [apply list_remove_subseteq|].
    apply list_remove_other. congruence.
  - intros Hout. unfold add_subordinate. rewrite decide_False by done.
    unfold remove_subordinate. cbn. rewrite decide_True.
    + rewrite list_remove_snoc by done. by destruct self.
    + apply elem_of_app. right. by apply list_elem_of_singleton.
Qed.

Lemma add_subordinate_keeps_duplicate_free_witness :
  let self := add_subordinate (mkAgentId id2)
                (BaseAgent_init (mkAgentId id1) (Some PROMETHEUS)) in
  NoDup (_subordinates (add_subordinate (mkAgentId id3) self))
  ∧ mkAgentId id3 ∈ _subordinates (add_subordinate (mkAgentId id3) self)
  ∧ (∀ other, other ∈ _subordinates self →
              other ∈ _subordinates (add_subordinate (mkAgentId id3) self))
  ∧ add_subordinate (mkAgentId id3) (add_subordinate (mkAgentId id3) self)
    = add_subordinate (mkAgentId id3) self.
Proof.
  apply (add_subordinate_keeps_duplicate_free (mkAgentId id3)
           (add_subordinate (mkAgentId id2)
              (BaseAgent_init (mkAgentId id1) (Some PROMETHEUS)))).
  vm_compute. apply NoDup_singleton.
Defined.

Lemma remove_subordinate_undoes_add_witness :
  let self := BaseAgent_init (mkAgentId id1) (Some PROMETHEUS) in
  remove_subordinate (mkAgentId id2) (add_subordinate (mkAgentId id2) self)
  = self.
Proof.
  apply (remove_subordinate_undoes_add (mkAgentId id2)
           (BaseAgent_init (mkAgentId id1) (Some PROMETHEUS))).
  - vm_compute. apply NoDup_nil_2.
  - vm_compute. apply not_elem_of_nil.
Defined.

Lemma handle_message_publishes_reply_witness :
  let m := message_of id3 id1 id2 in
  let env := mkEnv world0 (Some (Bus.InMemoryEventBus_init (H := callback))) in
  handle_message (H0 := echo) m (tt, env)
  = (Return tt,
     (tt, mkEnv world0
            (Some (Bus.mkBus ∅
                     [mkMessage id4 (mkAgentId id2) (mkAgentId id1) [] 0%Z
                                "reply"] true)))).
Proof.
  apply (handle_message_publishes_reply (H := echo) (message_of id3 id1 id2)
           (mkMessage id4 (mkAgentId id2) (mkAgentId id1) [] 0%Z "reply")
           (tt, mkEnv world0 (Some Bus.InMemoryEventBus_init)) tt
           (mkEnv world0 (Some Bus.InMemoryEventBus_init))
           Bus.InMemoryEventBus_init).
  - reflexivity.
  - reflexivity.
Defined.

(** *** Sending *)

Section messaging_facts.

#[local] Abbreviation B := (Bus.InMemoryEventBus callback).

Implicit Types (self : BaseAgent) (env : Env B).

(** X11. On the in-memory bus [broadcast_to_subordinates] sends one message
    to each subordinate, in the order of the list and nothing else, each with
    the sender's identity, the given type and the given content; and
    [report_to_supervisor] sends one such message to the supervisor if there
    is one and nothing otherwise. *)
Theorem broadcast_and_report_send self (content : dict)
    (message_type : string) env :
  is_Some (_event_bus env) →
  (∃ env' sent,
     broadcast_to_subordinates self content message_type env
     = (Return tt, env')
     ∧ sends env env' sent
     ∧ view <$> sent
       = (fun receiver => (_id self, receiver, message_type, content))
           <$> _subordinates self)
  ∧ (∃ env' sent,
       report_to_supervisor self content message_type env = (Return tt, env')
       ∧ sends env env' sent
       ∧ view <$> sent
         = match _supervisor self with
           | Some supervisor =>
               [(_id self, supervisor, message_type, content)]
           | None => []
           end).
Proof.
  intros Hb. split; [by apply broadcast_to_subordinates_sends|].
  unfold report_to_supervisor. destruct (_supervisor self) as [supervisor|].
  - destruct (send_message_sends self supervisor content message_type env Hb)
      as (env' & m & Hsend & Hs & Hv).
    exists env', [m]. split_and!; [done | done |]. cbn. by rewrite Hv.
  - exists env, []. split_and!; [done | | done].
    destruct Hb as [b Hb]. by eapply sends_nothing.
Qed.

(** X12. An agent that was given no bus sends nothing: [send_message],
    [broadcast_to_subordinates] and [report_to_supervisor] return and leave
    its surroundings as they were, the clock and the random source
    included. *)
Theorem messaging_without_bus self (receiver : AgentId) (content : dict)
    (message_type : string) env :
  _event_bus env = None →
  send_message self receiver content message_type env = (Return tt, env)
  ∧ broadcast_to_subordinates self content message_type env = (Return tt, env)
  ∧ report_to_supervisor self content message_type env = (Return tt, env).
Proof.
  intros Hb. split_and!.
  - by apply send_message_without_bus.
  - unfold broadcast_to_subordinates.
    induction (_subordinates self) as [|r rs IH]; [done|].
    cbn [for_each]. unfold bind.
    by rewrite send_message_without_bus.
  - unfold report_to_supervisor. destruct (_supervisor self); [|done].
    by apply send_message_without_bus.
Qed.

End messaging_facts.

Lemma broadcast_and_report_send_witness :
  let self := Themis.base overseer in
  let env := mkEnv world0 (Some (Bus.InMemoryEventBus_init (H := callback))) in
  (∃ env' sent,
     broadcast_to_subordinates self [] "broadcast" env = (Return tt, env')
     ∧ sends env env' sent
     ∧ view <$> sent = [(mkAgentId id1, mkAgentId id3, "broadcast", [])])
  ∧ (∃ env' sent,
       report_to_supervisor self [] "report" env = (Return tt, env')
       ∧ sends env env' sent
       ∧ view <$> sent = [(mkAgentId id1, mkAgentId id2, "report", [])]).
Proof.
  split.
  - apply (broadcast_and_report_send (Themis.base overseer) [] "broadcast"
             (mkEnv world0 (Some Bus.InMemoryEventBus_init))).
    by eexists.
  - apply (broadcast_and_report_send (Themis.base overseer) [] "report"
             (mkEnv world0 (Some Bus.InMemoryEventBus_init))).
    by eexists.
Defined.

Lemma messaging_without_bus_witness :
  let self := Themis.base overseer in
  let env : Env (Bus.InMemoryEventBus callback) := mkEnv world0 None in
  send_message self (mkAgentId id4) [] "general" env = (Return tt, env)
  ∧ broadcast_to_subordinates self [] "general" env = (Return tt, env)
  ∧ report_to_supervisor self [] "general" env = (Return tt, env).
Proof.
  apply (messaging_without_bus (Themis.base overseer) (mkAgentId id4) []
           "general" (mkEnv world0 None)).
  reflexivity.
Defined.

(** ** Task execution: what it changes, what it saves *)

Section execute_task_outcomes.
Context {R W : Type} `{Repository R Task} `{Role W}.

Implicit Types (task : Task) (x : Exec R W).

(** The task [execute_task] gives back is the task it marked InProgress,
    either left so because the call was suspended, or marked once more. *)
Lemma execute_task_result task x :
  let t1 := (mark_in_progress task (exec_sys x)).1 in
  let t := (execute_task task x).1.2 in
  (t = t1 ∧ (execute_task task x).1.1 = Suspend)
  ∨ (∃ e s, t = (mark_failed e t1 s).1)
  ∨ (∃ r s, t = (mark_completed r t1 s).1).
Proof.
  intros t1 t. subst t t1.
  destruct (with_sys_fields mark_in_progress task x) as (Ht1 & _).
  fold (started task x) in Ht1. rewrite <- Ht1.
  rewrite execute_task_unfold, execute_task_try_started. cbv zeta.
  destruct (save_task (started task x).1 (started task x).2) as [[| |] x2].
  - destruct (in_world (_perform_safety_checks (started task x).1) x2)
      as [[checks| |] x3].
    + destruct (existsb failed_check checks).
      * right. left. cbn [fst snd].
        destruct (with_sys_fields (mark_failed "Safety check failed")
                    (started task x).1 x3) as (-> & _). by eauto.
      * destruct (in_world (_execute_task_internal (started task x).1) x3)
          as [[r| |] x4]; cbn [fst snd].
        -- right. right.
           destruct (with_sys_fields (mark_completed r)
                       (started task x).1 x4) as (-> & _). by eauto.
        -- right. left.
           destruct (with_sys_fields (mark_failed (str_exn e))
                       (started task x).1 x4) as (-> & _). by eauto.
        -- by left.
    + right. left. cbn [fst snd].
      destruct (with_sys_fields (mark_failed (str_exn e))
                  (started task x).1 x3) as (-> & _). by eauto.
    + by left.
  - right. left. cbn [fst snd].
    destruct (with_sys_fields (mark_failed (str_exn e))
                (started task x).1 x2) as (-> & _). by eauto.
  - by left.
Qed.

(** X13. [execute_task] never changes what a task is: its identifier, its
    agent, its name, its description, its priority, its creation time and
    its metadata are after the call what they were before, however the call
    ends. *)
Theorem execute_task_keeps_frame task x :
  Readings.frame (execute_task task x).1.2 = Readings.frame task.
Proof.
  destruct (execute_task_result task x)
    as [[-> _]|[(e & s & ->)|(r & s & ->)]]; reflexivity.
Qed.

(** X14. For a task that has no completion time yet, as every new task:
    when [execute_task] returns, the task is Completed with a completion time
    and a result, or it is Failed with an error and still no completion
    time. *)
Theorem execute_task_completion_time task x :
  completed_at task = None →
  (execute_task task x).1.1 = Return tt →
  let t := (execute_task task x).1.2 in
  (status t = COMPLETED ∧ is_Some (completed_at t) ∧ is_Some (result t))
  ∨ (status t = FAILED ∧ completed_at t = None ∧ is_Some (error t)).
Proof.
  intros Hnone Hret t. subst t.
  destruct (execute_task_result task x)
    as [[_ Hs]|[(e & s & ->)|(r & s & ->)]].
  - rewrite Hs in Hret. discriminate.
  - right. split_and!; [done | exact Hnone | by eexists].
  - left. split_and!; [done | by eexists | by eexists].
Qed.

(** X15. A role that keeps the pre-check of [BaseAgent], which returns no
    checks, as every role of the repository does: whenever [execute_task]
    returns on an agent with a task repository, the last state it saved is
    the state it returns, and that state is Completed or Failed. *)
Theorem execute_task_saves_with_base_checks task x :
  (∀ (t : Task) (w : W), _perform_safety_checks t w = (Return [], w)) →
  is_Some (_task_repository x) →
  (execute_task task x).1.1 = Return tt →
  last (saved (execute_task task x).2) = Some (execute_task task x).1.2
  ∧ status (execute_task task x).1.2 ∈ [COMPLETED; FAILED].
Proof.
  intros Hbase Hrepo Hret. split; [|by apply execute_task_status].
  revert Hret.
  assert (Hrepo1 : is_Some (_task_repository (started task x).2)).
  { destruct (with_sys_fields mark_in_progress task x) as (_ & Hr & _).
    fold (started task x) in Hr. by rewrite Hr. }
  rewrite execute_task_unfold, execute_task_try_started. cbv zeta.
  pose proof (save_task_keeps_repository (started task x).1 (started task x).2
                Hrepo1) as Hrepo2.
  destruct (save_task (started task x).1 (started task x).2) as [[| |] x2];
    cbn [fst snd] in *; [| |done].
  - set (x3 := mkExec (exec_sys x2) (_task_repository x2) (saved x2) (world x2)).
    assert (Hchecks : in_world (_perform_safety_checks (started task x).1) x2
                      = (Return [], x3)).
    { unfold in_world. by rewrite Hbase. }
    rewrite Hchecks. cbn [existsb].
    assert (Hrepo3 : is_Some (_task_repository x3)) by done.
    pose proof (in_world_fields
                  (_execute_task_internal (started task x).1) x3)
      as (Hr4 & _).
    destruct (in_world (_execute_task_internal (started task x).1) x3)
      as [[r| |] x4]; cbn [fst snd] in *; [| |done].
    + intros _. apply save_task_last.
      destruct (with_sys_fields (mark_completed r) (started task x).1 x4)
        as (_ & -> & _). by rewrite Hr4.
    + intros _. apply handler_then_save_last. by rewrite Hr4.
  - intros _. by apply handler_then_save_last.
Qed.

End execute_task_outcomes.

Lemma execute_task_completion_time_witness :
  let t := (@execute_task _ _ InMemoryRepository succeeding
              (task_in PENDING) exec0).1.2 in
  (status t = COMPLETED ∧ is_Some (completed_at t) ∧ is_Some (result t))
  ∨ (status t = FAILED ∧ completed_at t = None ∧ is_Some (error t)).
Proof.
  apply (@execute_task_completion_time _ _ InMemoryRepository succeeding
           (task_in PENDING) exec0); reflexivity.
Defined.

Lemma execute_task_saves_with_base_checks_witness :
  let run := @execute_task _ _ InMemoryRepository failing
               (task_in PENDING) exec0 in
  last (saved run.2) = Some run.1.2 ∧ status run.1.2 ∈ [COMPLETED; FAILED].
Proof.
  apply (@execute_task_saves_with_base_checks _ _ InMemoryRepository failing
           (task_in PENDING) exec0).
  - reflexivity.
  - by eexists.
  - reflexivity.
Defined.

(** ** The in-memory repository over series of calls *)

Section repository_runs.
Context {E : Type} `{Entity E}.

Implicit Types (st : gmap string E) (cs : list (call E)).

Lemma calls_snoc cs (c : call E) : calls (cs ++ [c]) = after (calls cs) c.
Proof. unfold calls. by rewrite foldl_app. Qed.

Lemma calls_filed cs : filed_by_id (calls cs).
Proof.
  induction cs as [|c cs IH] using rev_ind.
  - intros k e. unfold calls, InMemoryRepository_init. cbn.
    by rewrite lookup_empty.
  - rewrite calls_snoc. destruct c as [e|key]; cbn [after].
    + by apply imr_save_keeps_filing.
    + by apply imr_delete_keeps_filing.
Qed.

Lemma filed_keys (l : list (string * E)) :
  Forall (fun p => entity_key p.2 = Some p.1) l →
  entity_key <$> l.*2 = Some <$> l.*1.
Proof.
  induction 1 as [|[k e] l Hk _ IH]; [done|].
  cbn in *. by rewrite Hk, IH.
Qed.

(** X16. Whatever series of [save] and [delete] calls a new repository has
    seen: [list_all] returns exactly the entities that [get_by_id] returns
    under their own identifier, and no two entities with the same
    identifier. *)
Theorem InMemoryRepository_lists_what_it_holds cs :
  ∃ l, imr_list_all (calls cs) = (Return l, calls cs)
       ∧ NoDup (entity_key <$> l)
       ∧ ∀ e, e ∈ l ↔
              ∃ k, entity_key e = Some k
                   ∧ imr_get_by_id k (calls cs) = (Return (Some e), calls cs).
Proof.
  pose proof (calls_filed cs) as Hfiled.
  exists (map_to_list (calls cs)).*2. split_and!; [done | |].
  - rewrite filed_keys.
    + apply (NoDup_fmap_2 _). apply NoDup_fst_map_to_list.
    + apply Forall_forall. intros [k e] Hin. cbn.
      apply Hfiled. by apply elem_of_map_to_list.
  - intros e. unfold imr_get_by_id. split.
    + intros ([k e'] & -> & Hin)%list_elem_of_fmap. cbn.
      apply elem_of_map_to_list in Hin. exists k.
      split; [by apply Hfiled | by rewrite Hin].
    + intros (k & _ & Hget). injection Hget as Hget.
      apply list_elem_of_fmap. exists (k, e).
      split; [done | by apply elem_of_map_to_list].
Qed.

(** X17. [save] and [delete] touch one identifier only: what [get_by_id]
    returns under any other identifier is what it returned before. A second
    [save] of the same entity changes nothing, [delete] of an identifier that
    is not stored returns false and changes nothing, and [delete] undoes the
    [save] of an entity that was not stored. *)
Theorem InMemoryRepository_touches_one_identifier st (e : E) (k : string) :
  entity_key e = Some k →
  (∀ k', k' ≠ k →
     ((imr_save e ;; imr_get_by_id k') st).1 = (imr_get_by_id k' st).1
     ∧ ((imr_delete k ;; imr_get_by_id k') st).1 = (imr_get_by_id k' st).1)
  ∧ (imr_save e ;; imr_save e) st = imr_save e st
  ∧ (st !! k = None →
     imr_delete k st = (Return false, st)
     ∧ (imr_save e ;; imr_delete k) st = (Return true, st)).
Proof.
  intros Hk. split_and!.
  - intros k' Hne. unfold bind. rewrite (imr_save_keyed e k) by done.
    unfold imr_get_by_id, imr_delete. split.
    + cbn. by rewrite lookup_insert_ne.
    + destruct (decide (is_Some (st !! k))); cbn; [|done].
      by rewrite lookup_delete_ne.
  - unfold bind. rewrite (imr_save_keyed e k) by done.
    rewrite (imr_save_keyed e k) by done. by rewrite insert_insert_eq.
  - intros Hnone. split.
    + unfold imr_delete. rewrite decide_False; [done|].
      rewrite Hnone. by intros [? ?].
    + unfold bind. rewrite (imr_save_keyed e k) by done.
      unfold imr_delete. rewrite decide_True.
      * by rewrite delete_insert_id.
      * rewrite lookup_insert_eq. by eexists.
Qed.

End repository_runs.

Lemma InMemoryRepository_touches_one_identifier_witness :
  let e := with_id "a" 1 in
  let st : gmap string record := {[ "b" := with_id "b" 2 ]} in
  (∀ k', k' ≠ "a" →
     ((imr_save e ;; imr_get_by_id k') st).1 = (imr_get_by_id k' st).1
     ∧ ((imr_delete "a" ;; imr_get_by_id k') st).1 = (imr_get_by_id k' st).1)
  ∧ (imr_save e ;; imr_save e) st = imr_save e st
  ∧ (st !! "a" = None →
     imr_delete "a" st = (Return false, st)
     ∧ (imr_save e ;; imr_delete "a") st = (Return true, st)).
Proof.
  apply (InMemoryRepository_touches_one_identifier
           ({[ "b" := with_id "b" 2 ]} : gmap string record) (with_id "a" 1) "a").
  reflexivity.
Defined.

(** ** Listing tasks *)

Lemma slice_sublist {A} (l : list A) (start stop : Z) :
  Python.slice l start stop `sublist_of` l.
Proof.
  unfold Python.slice. etrans; [apply sublist_take | apply sublist_drop].
Qed.

Lemma slice_window {A} (l : list A) (offset limit : Z) :
  (0 ≤ offset)%Z → (0 ≤ limit)%Z →
  Python.slice l offset (Z.min (offset + limit) (Z.of_nat (length l)))
  = take (Z.to_nat limit) (drop (Z.to_nat offset) l).
Proof.
  intros Ho Hl. unfold Python.slice, Python.slice_bound.
  rewrite (proj2 (Z.ltb_ge offset 0)) by done.
  rewrite (proj2 (Z.ltb_ge (Z.min (offset + limit) (Z.of_nat (length l))) 0))
    by lia.
  destruct (decide (Z.of_nat (length l) ≤ offset)%Z) as [Hbig|Hsmall].
  - rewrite (drop_ge l (Z.to_nat offset)) by lia.
    rewrite (drop_ge l (Z.to_nat (Z.min offset (Z.of_nat (length l))))) by lia.
    by rewrite !take_nil.
  - replace (Z.min offset (Z.of_nat (length l))) with offset by lia.
    destruct (decide (offset + limit ≤ Z.of_nat (length l))%Z).
    + f_equal. lia.
    + rewrite !take_ge; [done | |]; rewrite length_drop; lia.
Qed.

Section listing_facts.
Context {R : Type} `{Repository R Task} `{Finder R Task}.

(** X18. [list_tasks] without filters never raises: when the repository
    raises it returns the empty list, and otherwise a page cut from what
    [list_all] returned, in the same order; for an offset and a limit that
    are not negative the page is the [limit] tasks after the first
    [offset]. *)
Theorem list_tasks_pages (limit offset : Z) (r : R) :
  (∀ e r', repo_list_all r = (Raise e, r') →
           TaskService.list_tasks None limit offset r = (Return [], r'))
  ∧ (∀ tasks r', repo_list_all r = (Return tasks, r') →
       ∃ page,
         TaskService.list_tasks None limit offset r = (Return page, r')
         ∧ page `sublist_of` tasks
         ∧ ((0 ≤ offset)%Z → (0 ≤ limit)%Z →
            page = take (Z.to_nat limit) (drop (Z.to_nat offset) tasks))).
Proof.
  unfold TaskService.list_tasks. split.
  - by intros e r' ->.
  - intros tasks r' ->. eexists. split_and!; [done | apply slice_sublist |].
    intros Ho Hl. by apply slice_window.
Qed.

End listing_facts.

Section filter_facts.
Context (rest : Task → string → option obj) (same : PyEq).

#[local] Instance filter_facts_attributes : Attributes Task :=
  Task_Attributes rest.

Lemma matches_false (c : criteria) (key : string) (value : obj) (t : Task) :
  (key, value) ∈ c →
  (∀ v, getattr t key = Some v → obj_eq v value = false) →
  matches c t = false.
Proof.
  intros Hin Hne. unfold matches.
  apply not_true_is_false. intros Hall.
  rewrite forallb_forall in Hall.
  specialize (Hall (key, value)). cbn in Hall.
  destruct (getattr t key) as [v|] eqn:Hv.
  - rewrite (Hne v eq_refl) in Hall.
    discriminate Hall. by apply list_elem_of_In.
  - discriminate Hall. by apply list_elem_of_In.
Qed.

Lemma field_differs_from_text (t : Task) (key : string) (w : pyval) (v : obj) :
  key ∈ ["id"; "agent_id"; "priority"; "status"] →
  getattr t key = Some v → obj_eq v (Plain w) = false.
Proof.
  intros Hkey. unfold getattr, filter_facts_attributes, Task_Attributes.
  repeat (apply elem_of_cons in Hkey as [->|Hkey];
          [cbn; by intros [= <-] |]).
  by apply not_elem_of_nil in Hkey.
Qed.

Lemma filter_none {A} (P : A → Prop) `{∀ x, Decision (P x)} (l : list A) :
  (∀ x, ¬ P x) → filter P l = [].
Proof.
  intros Hno. induction l as [|x l IH]; [done|].
  rewrite filter_cons_False; [done | apply Hno].
Qed.

(** X19. Over the in-memory repository, a filter that gives a text (or any
    other plain value) for [status], [priority], [agent_id] or [id] selects
    nothing, whatever tasks are stored: the attribute is an enumeration
    member or an identifier object, which equals no text. So
    [get_pending_tasks], [get_active_tasks], [get_completed_tasks] and
    [get_tasks_by_agent] always return the empty list. *)
Theorem list_tasks_value_filters_select_nothing (st : gmap string Task) :
  (∀ (c : criteria) (limit offset : Z) (key : string) (w : pyval),
     (key, Plain w) ∈ c →
     key ∈ ["id"; "agent_id"; "priority"; "status"] →
     TaskService.list_tasks (Some c) limit offset st = (Return [], st))
  ∧ TaskService.get_pending_tasks st = (Return [], st)
  ∧ TaskService.get_active_tasks st = (Return [], st)
  ∧ TaskService.get_completed_tasks st = (Return [], st)
  ∧ (∀ agent_id, TaskService.get_tasks_by_agent agent_id st = (Return [], st)).
Proof.
  assert (Hgen : ∀ (c : criteria) (limit offset : Z) (key : string) (w : pyval),
             (key, Plain w) ∈ c →
             key ∈ ["id"; "agent_id"; "priority"; "status"] →
             TaskService.list_tasks (Some c) limit offset st = (Return [], st)).
  { intros c limit offset key w Hin Hkey. unfold TaskService.list_tasks.
    destruct c as [|p c]; [by apply not_elem_of_nil in Hin|].
    unfold repo_find_by_criteria, InMemoryRepository_Finder,
      imr_find_by_criteria.
    rewrite filter_none.
    { cbn [length].
      by rewrite (proj1 (sublist_nil_r _) (slice_sublist [] _ _)). }
    intros t. rewrite (matches_false _ key (Plain w)); [done | done |].
    intros v. by apply field_differs_from_text. }
  split_and!; [exact Hgen | | | |].
  - eapply Hgen; [apply list_elem_of_here | set_unfold; tauto].
  - eapply Hgen; [apply list_elem_of_here | set_unfold; tauto].
  - eapply Hgen; [apply list_elem_of_here | set_unfold; tauto].
  - intros agent_id.
    eapply Hgen; [apply list_elem_of_here | set_unfold; tauto].
Qed.

End filter_facts.

(** ** The life cycle of a task in the service *)

Lemma get_set_item {V} (key key' : string) (v : V) (d : list (string * V)) :
  Python.get key' (Python.set_item key v d)
  = if decide (key = key') then Some v else Python.get key' d.
Proof.
  induction d as [|[k w] d IH]; cbn.
  - by destruct (decide (key = key')).
  - destruct (decide (k = key)) as [->|Hk]; cbn.
    + by destruct (decide (key = key')).
    + destruct (decide (k = key')) as [->|]; [|done].
      by rewrite decide_False by done.
Qed.

(** After [d.update(other)] a key reads what [other] gives it, the last time
    it names it, and what it read in [d] when [other] does not name it. *)
Lemma get_update {V} (key : string) (d other : list (string * V)) :
  Python.get key (Python.update d other)
  = from_option Some (Python.get key d) (Python.get key (reverse other)).
Proof.
  revert d. induction other as [|[k v] other IH] using rev_ind; intros d.
  - done.
  - unfold Python.update. rewrite foldl_app. cbn [foldl].
    fold (Python.update d other). rewrite get_set_item, reverse_snoc. cbn.
    destruct (decide (k = key)); [done | apply IH].
Qed.

Section update_task_facts.
Context `{UUIDReader}.

(** X20. [update_task] on a stored task changes the fields it is given and
    no other: the identifier, the agent, the status, the three times, the
    result and the error stay, [updated_at] included. In the metadata the
    given keys take the given values and the other keys keep theirs. The
    task returned is the task stored, and [get_task] returns it. *)
Theorem update_task_changes_what_is_given
    (st : gmap string Task) (task_id : string) (u : UUID) (t : Task)
    (name description : option string) (priority : option Priority)
    (metadata : option dict) :
  UUID_of task_id = Some u →
  st !! u = Some t →
  id t = mkTaskId u →
  ∃ t',
    TaskService.update_task task_id name description priority metadata st
    = (Return (Some t'), <[u := t']> st)
    ∧ TaskService.get_task task_id (<[u := t']> st)
      = (Return (Some t'), <[u := t']> st)
    ∧ (id t', agent_id t', status t', created_at t', updated_at t',
       completed_at t', result t', error t')
      = (id t, agent_id t, status t, created_at t, updated_at t,
         completed_at t, result t, error t)
    ∧ Domain.name t' = default (Domain.name t) name
    ∧ Domain.description t' = default (Domain.description t) description
    ∧ Domain.priority t' = default (Domain.priority t) priority
    ∧ (∀ key, Python.get key (Domain.metadata t')
              = from_option Some (Python.get key (Domain.metadata t))
                  (metadata ≫= fun d => Python.get key (reverse d))).
Proof.
  intros Hu Hst Hid. unfold TaskService.update_task.
  rewrite (get_task_stored st task_id u Hu), Hst.
  eexists. split_and!.
  - change (repo_save ?x st) with (imr_save x st).
    rewrite (imr_save_keyed _ u); [reflexivity|].
    destruct name, description, priority, metadata;
      unfold entity_key, Task_Entity; cbn; by rewrite Hid.
  - rewrite (get_task_stored _ task_id u Hu). by rewrite lookup_insert_eq.
  - by destruct name, description, priority, metadata.
  - by destruct name, description, priority, metadata.
  - by destruct name, description, priority, metadata.
  - by destruct name, description, priority, metadata.
  - intros key. destruct name, description, priority, metadata; cbn;
      try done; apply get_update.
Qed.

(** [update_task] for an identifier under which nothing is stored. *)
Lemma update_task_unknown
    (st : gmap string Task) (task_id : string)
    (name description : option string) (priority : option Priority)
    (metadata : option dict) :
  (∀ u, UUID_of task_id = Some u → st !! u = None) →
  TaskService.update_task task_id name description priority metadata st
  = (Return None, st).
Proof.
  intros Hnone. unfold TaskService.update_task.
  destruct (UUID_of task_id) as [u|] eqn:Hu.
  - by rewrite (get_task_stored st task_id u Hu), (Hnone u eq_refl).
  - unfold TaskService.get_task. by rewrite Hu.
Qed.

End update_task_facts.

Lemma update_task_changes_what_is_given_witness :
  let st : gmap string Task := {[ id1 := task_in COMPLETED ]} in
  ∃ t',
    TaskService.update_task id1 (Some "census") None (Some HIGH)
      (Some [("round", PyInt 2)]) st
    = (Return (Some t'), <[id1 := t']> st)
    ∧ TaskService.get_task id1 (<[id1 := t']> st)
      = (Return (Some t'), <[id1 := t']> st)
    ∧ (id t', agent_id t', status t', created_at t', updated_at t',
       completed_at t', result t', error t')
      = (mkTaskId id1, mkAgentId id2, COMPLETED, 0%Z, 0%Z, None, None, None)
    ∧ Domain.name t' = "census"
    ∧ Domain.description t' = ""
    ∧ Domain.priority t' = HIGH
    ∧ (∀ key, Python.get key (Domain.metadata t')
              = from_option Some None
                  (Python.get key (reverse [("round", PyInt 2)]))).
Proof.
  apply (update_task_changes_what_is_given
           ({[ id1 := task_in COMPLETED ]} : gmap string Task) id1 id1
           (task_in COMPLETED) (Some "census") None (Some HIGH)
           (Some [("round", PyInt 2)])); reflexivity.
Defined.

Section create_task_facts.
Context {B : Type} `{UUIDReader}.

Implicit Types (mg : Manager.AgentManager B (gmap string Task)).

(** X21. [create_task] for an agent the manager does not hold raises
    [ValueError] and changes nothing: no identifier is drawn and nothing is
    stored. For an agent it holds it returns a Pending task of that agent
    with a newly drawn identifier and no completion time, result or error,
    and stores it: [get_task] on the text of its identifier returns the
    task, and what is stored under other identifiers is untouched, as are the
    agents. *)
Theorem create_task_stores_pending_task mg
    (agent_id name description : string) (priority : Priority)
    (metadata : option dict) :
  (Manager._agents mg !! agent_id = None →
   ∃ e, TaskService.create_task agent_id name description priority metadata mg
        = (Raise e, mg)
        ∧ exn_class e = "ValueError")
  ∧ (∀ u, is_Some (Manager._agents mg !! agent_id) →
          UUID_of agent_id = Some u →
     ∃ task mg',
       TaskService.create_task agent_id name description priority metadata mg
       = (Return task, mg')
       ∧ id task = mkTaskId (random (Manager.manager_sys mg)
                                    (draws (Manager.manager_sys mg)))
       ∧ (Domain.agent_id task, Domain.name task, Domain.description task,
          Domain.priority task, Domain.metadata task)
         = (mkAgentId u, name, description, priority, default [] metadata)
       ∧ (status task, completed_at task, result task, error task)
         = (PENDING, None, None, None)
       ∧ Manager._agents mg' = Manager._agents mg
       ∧ (∀ key, key ≠ str_TaskId (id task) →
                 Manager.manager_task_repository mg' !! key
                 = Manager.manager_task_repository mg !! key)
       ∧ (UUID_of (str_TaskId (id task)) = Some (task_value (id task)) →
          TaskService.on_repository
            (TaskService.get_task (str_TaskId (id task))) mg'
          = (Return (Some task), mg'))).
Proof.
  unfold TaskService.create_task, Manager.get_agent. split.
  - intros ->. by eexists.
  - intros u [agent ->] ->. do 2 eexists.
    split_and!; try reflexivity.
    + intros key Hne. cbn. by rewrite lookup_insert_ne.
    + intros Hread. unfold TaskService.on_repository.
      rewrite (get_task_stored _ _ _ Hread). cbn.
      rewrite lookup_insert_eq. reflexivity.
Qed.

(** X22. [assign_task_to_agent] hands a stored task to another agent of the
    manager whatever the status of the task, a Completed one included: it
    returns true, and the stored task differs from the one before in its
    agent only. For an agent the manager does not hold it returns false and
    changes nothing. *)
Theorem assign_task_to_agent_moves_any_task mg
    (task_id agent_id : string) (u a : UUID) (t : Task) :
  UUID_of task_id = Some u →
  Manager.manager_task_repository mg !! u = Some t →
  id t = mkTaskId u →
  (Manager._agents mg !! agent_id = None →
   TaskService.assign_task_to_agent task_id agent_id mg = (Return false, mg))
  ∧ (is_Some (Manager._agents mg !! agent_id) →
     UUID_of agent_id = Some a →
     TaskService.assign_task_to_agent task_id agent_id mg
     = (Return true,
        Manager.set_task_repository
          (<[u := set_agent_id (mkAgentId a) t]>
             (Manager.manager_task_repository mg)) mg)).
Proof.
  intros Hu Hst Hid. unfold TaskService.assign_task_to_agent.
  assert (Hget : TaskService.on_repository (TaskService.get_task task_id) mg
                 = (Return (Some t), mg)).
  { unfold TaskService.on_repository.
    rewrite (get_task_stored _ task_id u Hu), Hst. by destruct mg. }
  rewrite Hget. unfold Manager.get_agent. split.
  - by intros ->.
  - intros [agent ->] ->. unfold TaskService.on_repository.
    change (repo_save ?x ?r) with (imr_save x r).
    rewrite (imr_save_keyed _ u).
    + by destruct t.
    + unfold entity_key, Task_Entity. cbn. by rewrite Hid.
Qed.

End create_task_facts.

Lemma assign_task_to_agent_moves_any_task_witness :
  let mg :=
    Manager.set_task_repository ({[ id1 := task_in COMPLETED ]}) registry in
  TaskService.assign_task_to_agent id1 id3 mg
  = (Return true,
     Manager.set_task_repository
       (<[id1 := set_agent_id (mkAgentId id3) (task_in COMPLETED)]>
          (Manager.manager_task_repository mg)) mg).
Proof.
  apply (assign_task_to_agent_moves_any_task
           (Manager.set_task_repository ({[ id1 := task_in COMPLETED ]})
              registry)
           id1 id3 id1 id3 (task_in COMPLETED)); try reflexivity.
  by eexists.
Defined.

(** ** The manager: finding, creating and halting agents *)

Section manager_facts.
Context {B R : Type} `{EventBus B callback}.

Implicit Types (m : Manager.AgentManager B R).

Lemma head_filter_none {A} (P : A → Prop) `{∀ x, Decision (P x)} (l : list A) :
  (∀ x, ¬ P x) → head (filter P l) = None.
Proof.
  intros Hno. induction l as [|x l IH]; [done|].
  rewrite filter_cons_False; [done | apply Hno].
Qed.

Lemma type_text_is_no_value (agent_type : option AgentType) (t : AgentType) :
  Python.lower (Manager.str_type agent_type)
  ≠ Python.lower (AgentType_value t).
Proof. by destruct agent_type as [[]|], t. Qed.

Lemma get_agent_by_type_value m (t : AgentType) :
  Manager.get_agent_by_type (AgentType_value t) m = None.
Proof.
  unfold Manager.get_agent_by_type.
  apply head_filter_none. intros agent. apply type_text_is_no_value.
Qed.

(** X23. [get_agent_by_type] finds an agent only under the lowered text of
    [str(agent.type)], which is the qualified name of the enumeration member
    ("AgentType.THEMIS" and the like). Called with the value of a type
    ("prometheus", "daedalus", "logos", "odysseus", "themis"), as every
    caller in the program calls it, it returns [None], whatever agents the
    manager holds. *)
Theorem get_agent_by_type_finds_no_value m :
  (∀ t, Manager.get_agent_by_type (AgentType_value t) m = None)
  ∧ (∀ agent_type agent,
       Manager.get_agent_by_type agent_type m = Some agent →
       (∃ key, Manager._agents m !! key = Some agent)
       ∧ Python.lower agent_type
         ∈ [ "agenttype.prometheus"; "agenttype.daedalus"; "agenttype.logos";
             "agenttype.odysseus"; "agenttype.themis"; "none" ]).
Proof.
  split.
  - apply get_agent_by_type_value.
  - intros agent_type agent Hfound. unfold Manager.get_agent_by_type in Hfound.
    apply head_Some_elem_of, list_elem_of_filter in Hfound as [Hlow Hin].
    split.
    + apply list_elem_of_fmap in Hin as ([key a] & -> & Hin).
      exists key. by apply elem_of_map_to_list.
    + rewrite <- Hlow. destruct (_type agent) as [[]|]; cbn;
        set_unfold; tauto.
Qed.

End manager_facts.

Section setup_shape.
Context {B R : Type} `{EventBus B callback}.

Implicit Types (m : Manager.AgentManager B R).

(** As no agent is found by the value of its type, [setup_agent_hierarchy]
    always takes the same way: it creates a coordinator and three agents
    under it, and does not get as far as creating Logos. *)
Lemma setup_agent_hierarchy_unfold m :
  Manager.setup_agent_hierarchy m
  = (await p <- Manager.create_agent PROMETHEUS ;
     await info <-
       Manager.create_under p DAEDALUS "daedalus" "cognitive_architect"
         (Manager.created p "prometheus" "master" (Manager.mkInfo [] [])) ;
     await info <-
       Manager.create_under p ODYSSEUS "odysseus" "embodied_explorer" info ;
     await info <-
       Manager.create_under p THEMIS "themis" "safety_overseer" info ;
     fun m => (Return info, Manager._build_hierarchy_cache m)) m.
Proof.
  unfold Manager.setup_agent_hierarchy, bind.
  rewrite (get_agent_by_type_value m PROMETHEUS : 
             Manager.get_agent_by_type "prometheus" m = None).
  destruct (Manager.create_agent PROMETHEUS m) as [[p| |] m0]; [|done|done].
  unfold ret. cbn [fold_each]. unfold bind.
  rewrite (get_agent_by_type_value m0 DAEDALUS).
  destruct (Manager.create_under p DAEDALUS _ _ _ m0) as [[info1| |] m1];
    [|done|done].
  rewrite (get_agent_by_type_value m1 ODYSSEUS).
  destruct (Manager.create_under p ODYSSEUS _ _ _ m1) as [[info2| |] m2];
    [|done|done].
  rewrite (get_agent_by_type_value m2 THEMIS).
  destruct (Manager.create_under p THEMIS _ _ _ m2) as [[info3| |] m3];
    [|done|done].
  unfold ret.
  rewrite (get_agent_by_type_value m3 LOGOS :
             Manager.get_agent_by_type "logos" m3 = None).
  rewrite (get_agent_by_type_value m3 DAEDALUS :
             Manager.get_agent_by_type "daedalus" m3 = None).
  reflexivity.
Qed.

End setup_shape.

Section setup_facts.
Context {R : Type}.

#[local] Abbreviation B := (Bus.InMemoryEventBus callback).

Implicit Types (m : Manager.AgentManager B R).

Lemma add_subordinate_new (subordinate_id : AgentId) (self : BaseAgent) :
  subordinate_id ∉ _subordinates self →
  add_subordinate subordinate_id self
  = set_subordinates (_subordinates self ++ [subordinate_id]) self.
Proof. intros Hnew. unfold add_subordinate. by rewrite decide_False. Qed.

Lemma read_clock_draws (n : nat) (s : Sys) :
  random (Manager.read_clock n s) = random s
  ∧ draws (Manager.read_clock n s) = draws s.
Proof.
  induction n as [|n [IH1 IH2]]; [done|]. cbn. by rewrite <- IH1, <- IH2.
Qed.

Lemma create_agent_in_memory (agent_type : AgentType) m :
  let i := Readings.next_id (Manager.manager_sys m) 0 in
  let agent :=
    set_is_active true (BaseAgent_init (mkAgentId i) (Some agent_type)) in
  Manager.create_agent agent_type m
  = (Return agent,
     Manager.mkManager
       (Manager.read_clock (Manager.role_start_reads agent_type)
          (uuid4 (Manager.manager_sys m)).2)
       (<[i := agent]> (Manager._agents m))
       (Bus.mkBus
          (<[i := _handle_message (mkAgentId i)]>
             (Bus._subscribers (Manager.manager_event_bus m)))
          (Bus._message_queue (Manager.manager_event_bus m))
          (Bus._running (Manager.manager_event_bus m)))
       (Manager.manager_task_repository m) (Manager._agent_hierarchy m)
       (Manager.manager_running m)).
Proof.
  intros i agent. subst i agent. unfold Readings.next_id. rewrite Nat.add_0_r.
  unfold Manager.create_agent, Manager.start_agent_object. cbn.
  rewrite lookup_insert_eq, insert_insert_eq. reflexivity.
Qed.

(** What creating an agent does to the manager. *)
Lemma create_agent_step (agent_type : AgentType) m :
  let i := Readings.next_id (Manager.manager_sys m) 0 in
  let agent :=
    set_is_active true (BaseAgent_init (mkAgentId i) (Some agent_type)) in
  ∃ m',
    Manager.create_agent agent_type m = (Return agent, m')
    ∧ random (Manager.manager_sys m') = random (Manager.manager_sys m)
    ∧ draws (Manager.manager_sys m') = S (draws (Manager.manager_sys m))
    ∧ Manager._agents m' = <[i := agent]> (Manager._agents m)
    ∧ Bus._subscribers (Manager.manager_event_bus m')
      = <[i := _handle_message (mkAgentId i)]>
          (Bus._subscribers (Manager.manager_event_bus m))
    ∧ Bus._message_queue (Manager.manager_event_bus m')
      = Bus._message_queue (Manager.manager_event_bus m).
Proof.
  intros i agent. eexists. split; [apply create_agent_in_memory|].
  cbn. split_and!; try reflexivity.
  - by rewrite (proj1 (read_clock_draws _ _)).
  - by rewrite (proj2 (read_clock_draws _ _)).
Qed.

Lemma create_under_step (parent : BaseAgent) (agent_type : AgentType)
    (type role : string) (info : Manager.hierarchy_info) m :
  let i := Readings.next_id (Manager.manager_sys m) 0 in
  let agent :=
    set_is_active true (BaseAgent_init (mkAgentId i) (Some agent_type)) in
  ∃ m',
    Manager.create_under parent agent_type type role info m
    = (Return (Manager.relate (str_AgentId (_id parent)) i
                 (Manager.mkInfo
                    (Manager.created_agents info ++ [(i, type, role)])
                    (Manager.relationships info))), m')
    ∧ random (Manager.manager_sys m') = random (Manager.manager_sys m)
    ∧ draws (Manager.manager_sys m') = S (draws (Manager.manager_sys m))
    ∧ Manager._agents m'
      = alter (set_supervisor (_id parent)) i
          (alter (add_subordinate (mkAgentId i)) (str_AgentId (_id parent))
             (<[i := agent]> (Manager._agents m)))
    ∧ Bus._subscribers (Manager.manager_event_bus m')
      = <[i := _handle_message (mkAgentId i)]>
          (Bus._subscribers (Manager.manager_event_bus m))
    ∧ Bus._message_queue (Manager.manager_event_bus m')
      = Bus._message_queue (Manager.manager_event_bus m).
Proof.
  intros i agent.
  destruct (create_agent_step agent_type m) as (m1 & Hc & Hr & Hd & Ha & Hs & Hq).
  eexists. split.
  { unfold Manager.create_under, bind. rewrite Hc. reflexivity. }
  cbn. rewrite Ha. by split_and!.
Qed.

(** X24. On a manager with the in-memory bus, whatever agents it holds
    already, [setup_agent_hierarchy] creates four new agents, a Prometheus,
    a Daedalus, an Odysseus and a Themis, and no Logos: it finds none of the
    agents it holds, a Daedalus included. The coordinator is active, without
    supervisor and lists the three others in that order; each of them is
    active, without subordinates and under the coordinator; each of the four
    is subscribed with its own callback, and the other agents are left as
    they were. The identifiers are the next four draws, taken to be distinct. *)
Theorem setup_agent_hierarchy_creates_four m :
  let i := Readings.next_id (Manager.manager_sys m) in
  NoDup [i 0; i 1; i 2; i 3] →
  ∃ m',
    Manager.setup_agent_hierarchy m
    = (Return (Manager.mkInfo
                 [ (i 0, "prometheus", "master");
                   (i 1, "daedalus", "cognitive_architect");
                   (i 2, "odysseus", "embodied_explorer");
                   (i 3, "themis", "safety_overseer") ]
                 [ (i 0, [i 1; i 2; i 3]) ]), m')
    ∧ Manager._agents m' !! i 0
      = Some (mkBaseAgent (mkAgentId (i 0)) (Some PROMETHEUS) true
                          (mkAgentId <$> [i 1; i 2; i 3]) None)
    ∧ (∀ k t, (k, t) ∈ [(1, DAEDALUS); (2, ODYSSEUS); (3, THEMIS)] →
         Manager._agents m' !! i k
         = Some (mkBaseAgent (mkAgentId (i k)) (Some t) true []
                             (Some (mkAgentId (i 0)))))
    ∧ (∀ key, key ∉ [i 0; i 1; i 2; i 3] →
              Manager._agents m' !! key = Manager._agents m !! key)
    ∧ (∀ k, k < 4 →
         Bus._subscribers (Manager.manager_event_bus m') !! i k
         = Some (_handle_message (mkAgentId (i k))))
    ∧ draws (Manager.manager_sys m') = draws (Manager.manager_sys m) + 4.
Proof.
  intros i Hnd. rewrite setup_agent_hierarchy_unfold. unfold bind.
  destruct (create_agent_step PROMETHEUS m)
    as (m0 & Hc0 & Hr0 & Hd0 & Ha0 & Hs0 & Hq0).
  rewrite Hc0.
  set (p := set_is_active true
              (BaseAgent_init (mkAgentId (Readings.next_id
                                            (Manager.manager_sys m) 0))
                              (Some PROMETHEUS))).
  assert (Hi0 : Readings.next_id (Manager.manager_sys m) 0 = i 0) by done.
  destruct (create_under_step p DAEDALUS "daedalus" "cognitive_architect"
              (Manager.created p "prometheus" "master" (Manager.mkInfo [] []))
              m0)
    as (m1 & Hc1 & Hr1 & Hd1 & Ha1 & Hs1 & Hq1).
  assert (Hi1 : Readings.next_id (Manager.manager_sys m0) 0 = i 1).
  { unfold i, Readings.next_id. rewrite Hr0, Hd0. f_equal. lia. }
  rewrite Hi1 in Hc1, Ha1, Hs1. rewrite Hc1.
  match type of Hc1 with _ = (Return ?x, _) => set (info1 := x) in * end.
  destruct (create_under_step p ODYSSEUS "odysseus" "embodied_explorer"
              info1 m1)
    as (m2 & Hc2 & Hr2 & Hd2 & Ha2 & Hs2 & Hq2).
  assert (Hi2 : Readings.next_id (Manager.manager_sys m1) 0 = i 2).
  { unfold i, Readings.next_id. rewrite Hr1, Hd1, Hr0, Hd0. f_equal. lia. }
  rewrite Hi2 in Hc2, Ha2, Hs2. rewrite Hc2.
  match type of Hc2 with _ = (Return ?x, _) => set (info2 := x) in * end.
  destruct (create_under_step p THEMIS "themis" "safety_overseer" info2 m2)
    as (m3 & Hc3 & Hr3 & Hd3 & Ha3 & Hs3 & Hq3).
  assert (Hi3 : Readings.next_id (Manager.manager_sys m2) 0 = i 3).
  { unfold i, Readings.next_id. rewrite Hr2, Hd2, Hr1, Hd1, Hr0, Hd0.
    f_equal. lia. }
  rewrite Hi3 in Hc3, Ha3, Hs3. rewrite Hc3.
  apply NoDup_cons in Hnd as [Hn0 Hnd].
  apply NoDup_cons in Hnd as [Hn1 Hnd].
  apply NoDup_cons in Hnd as [Hn2 _].
  assert (H01 : i 0 ≠ i 1) by (intros Heq; apply Hn0; rewrite Heq; set_unfold; tauto).
  assert (H02 : i 0 ≠ i 2) by (intros Heq; apply Hn0; rewrite Heq; set_unfold; tauto).
  assert (H03 : i 0 ≠ i 3) by (intros Heq; apply Hn0; rewrite Heq; set_unfold; tauto).
  assert (H12 : i 1 ≠ i 2) by (intros Heq; apply Hn1; rewrite Heq; set_unfold; tauto).
  assert (H13 : i 1 ≠ i 3) by (intros Heq; apply Hn1; rewrite Heq; set_unfold; tauto).
  assert (H23 : i 2 ≠ i 3) by (intros Heq; apply Hn2; rewrite Heq; set_unfold; tauto).
  change (str_AgentId (_id p)) with (i 0) in *.
  change (_id p) with (mkAgentId (i 0)) in *.
  exists (Manager._build_hierarchy_cache m3).
  change (Manager._agents (Manager._build_hierarchy_cache m3))
    with (Manager._agents m3).
  change (Manager.manager_event_bus (Manager._build_hierarchy_cache m3))
    with (Manager.manager_event_bus m3).
  change (Manager.manager_sys (Manager._build_hierarchy_cache m3))
    with (Manager.manager_sys m3).
  rewrite Hi0 in Ha0, Hs0.
  rewrite Ha3, Ha2, Ha1, Ha0, Hs3, Hs2, Hs1, Hs0.
  assert (Hsub : ∀ a b : UUID, a ≠ b → mkAgentId a ≠ mkAgentId b)
    by (intros a b Hab [= Heq]; by apply Hab).
  split_and!.
  - subst info2 info1. unfold Manager.relate, Manager.created. cbn.
    repeat (rewrite decide_True by done; cbn). reflexivity.
  - repeat (rewrite ?lookup_alter, ?lookup_insert;
            first [rewrite decide_True by done | rewrite decide_False by done]).
    pose proof (Hsub _ _ H12). pose proof (Hsub _ _ H13).
    pose proof (Hsub _ _ H23).
    cbn [fmap option_fmap option_map].
    rewrite (add_subordinate_new (mkAgentId (i 1)))
      by (subst p; cbn; apply not_elem_of_nil).
    rewrite (add_subordinate_new (mkAgentId (i 2)))
      by (subst p; cbn; set_unfold; intuition congruence).
    rewrite (add_subordinate_new (mkAgentId (i 3)))
      by (subst p; cbn; set_unfold; intuition congruence).
    reflexivity.
  - intros k t Hkt.
    repeat (apply elem_of_cons in Hkt as [[= -> ->]|Hkt]);
      [| | |by apply not_elem_of_nil in Hkt];
      repeat (rewrite ?lookup_alter, ?lookup_insert;
              first [rewrite decide_True by done
                    | rewrite decide_False by done]);
      reflexivity.
  - intros key Hkey.
    assert (i 0 ≠ key ∧ i 1 ≠ key ∧ i 2 ≠ key ∧ i 3 ≠ key)
      as (? & ? & ? & ?) by (set_unfold; naive_solver).
    repeat (rewrite ?lookup_alter, ?lookup_insert;
            first [rewrite decide_True by done | rewrite decide_False by done]).
    reflexivity.
  - intros k Hk.
    destruct k as [|[|[|[|k]]]]; [| | | |lia];
      repeat (rewrite ?lookup_insert;
              first [rewrite decide_True by done
                    | rewrite decide_False by done]);
      reflexivity.
  - rewrite Hd3, Hd2, Hd1, Hd0. lia.
Qed.

End setup_facts.

Lemma setup_agent_hierarchy_creates_four_witness :
  ∃ m',
    Manager.setup_agent_hierarchy registry
    = (Return (Manager.mkInfo
                 [ ("0", "prometheus", "master");
                   ("1", "daedalus", "cognitive_architect");
                   ("2", "odysseus", "embodied_explorer");
                   ("3", "themis", "safety_overseer") ]
                 [ ("0", ["1"; "2"; "3"]) ]), m')
    ∧ Manager._agents m' !! "0"
      = Some (mkBaseAgent (mkAgentId "0") (Some PROMETHEUS) true
                          (mkAgentId <$> ["1"; "2"; "3"]) None)
    ∧ Manager._agents m' !! id1 = Manager._agents registry !! id1.
Proof.
  destruct (setup_agent_hierarchy_creates_four registry)
    as (m' & Hrun & Hcoordinator & _ & Hothers & _).
  { vm_compute. repeat (constructor; [set_unfold; intuition discriminate|]).
    constructor. }
  exists m'. split_and!; [exact Hrun | exact Hcoordinator |].
  apply Hothers. vm_compute. set_unfold. intuition discriminate.
Defined.

(** ** Emergency halt *)

Lemma get_elem_of {V} (key : string) (v : V) (d : list (string * V)) :
  NoDup d.*1 → (key, v) ∈ d → Python.get key d = Some v.
Proof.
  induction d as [|[k w] d IH]; cbn; [by intros _ ?%not_elem_of_nil|].
  intros [Hk Hnd]%NoDup_cons [[= -> ->]|Hin]%elem_of_cons.
  - by rewrite decide_True.
  - rewrite decide_False; [by apply IH|].
    intros ->. apply Hk. apply list_elem_of_fmap. by exists (key, v).
Qed.

Lemma get_none {V} (key : string) (d : list (string * V)) :
  key ∉ d.*1 → Python.get key d = None.
Proof.
  induction d as [|[k w] d IH]; cbn; [done|].
  intros Hnot. rewrite decide_False.
  - apply IH. intros Hin. apply Hnot. by right.
  - intros ->. apply Hnot. by left.
Qed.

Section emergency_halt_facts.
Context {R : Type} `{UUIDReader}.

#[local] Abbreviation B := (Bus.InMemoryEventBus callback).

Implicit Types (m : Manager.AgentManager B R) (l : list (string * BaseAgent)).

Lemma stop_agent_object_in_memory (key : string) (agent : BaseAgent) m :
  Manager.stop_agent_object key agent m
  = (Return tt,
     Manager.mkManager (Manager.manager_sys m)
       (<[key := set_is_active false agent]> (Manager._agents m))
       (Bus.mkBus
          (delete (str_AgentId (_id agent))
                  (Bus._subscribers (Manager.manager_event_bus m)))
          (Bus._message_queue (Manager.manager_event_bus m))
          (Bus._running (Manager.manager_event_bus m)))
       (Manager.manager_task_repository m) (Manager._agent_hierarchy m)
       (Manager.manager_running m)).
Proof.
  unfold Manager.stop_agent_object.
  by rewrite (stop_in_memory agent _ (Manager.manager_event_bus m)).
Qed.

(** The first loop of [emergency_halt]. *)
Lemma halt_agents l m :
  ∃ m',
    for_each l (fun '(key, agent) => Manager.halt_agent key agent) m
    = (Return tt, m')
    ∧ Manager.manager_sys m' = Manager.manager_sys m
    ∧ (∀ key, Manager._agents m' !! key
              = from_option (fun agent => Some (set_is_active false agent))
                  (Manager._agents m !! key) (Python.get key (reverse l)))
    ∧ (∀ key, Bus._subscribers (Manager.manager_event_bus m') !! key
              = if decide (key ∈ (fun p => str_AgentId (_id p.2)) <$> l)
                then None
                else Bus._subscribers (Manager.manager_event_bus m) !! key)
    ∧ Bus._message_queue (Manager.manager_event_bus m')
      = Bus._message_queue (Manager.manager_event_bus m).
Proof.
  revert m. induction l as [|[k a] l IH]; intros m.
  - exists m. split_and!; try done.
  - cbn [for_each]. unfold bind. unfold Manager.halt_agent at 1.
    rewrite stop_agent_object_in_memory.
    edestruct IH as (m' & -> & Hsys & Hagents & Hsubs & Hq).
    exists m'. split_and!; [done | by rewrite Hsys | | | by rewrite Hq].
    + intros key. rewrite Hagents, reverse_cons. cbn [Manager._agents].
      destruct (Python.get key (reverse l)) as [agent|] eqn:Hl.
      * assert (Python.get key (reverse l ++ [(k, a)]) = Some agent) as ->;
          [|done].
        clear -Hl. induction (reverse l) as [|[k' a'] l' IH]; [done|].
        cbn in *. by destruct (decide (k' = key)); [|apply IH].
      * assert (Python.get key (reverse l ++ [(k, a)])
                = if decide (k = key) then Some a else None) as ->.
        { clear -Hl. induction (reverse l) as [|[k' a'] l' IH]; [done|].
          cbn in *. by destruct (decide (k' = key)); [|apply IH]. }
        rewrite lookup_insert. by destruct (decide (k = key)).
    + intros key. rewrite Hsubs. cbn.
      destruct (decide (key ∈ (fun p => str_AgentId (_id p.2)) <$> l))
        as [Hin|Hout].
      * rewrite decide_True; [done | by right].
      * destruct (decide (str_AgentId (_id a) = key)) as [<-|Hne].
        -- rewrite decide_True by by left. apply lookup_delete_eq.
        -- rewrite decide_False.
           ++ by apply lookup_delete_ne.
           ++ intros [?|?]%elem_of_cons; [by apply Hne | by apply Hout].
Qed.

Lemma notify_in_memory (reason : string) (key : string) m :
  UUID_of key = Some key →
  ∃ m' message,
    Manager.notify reason key m = (Return tt, m')
    ∧ Manager._agents m' = Manager._agents m
    ∧ Bus._subscribers (Manager.manager_event_bus m')
      = Bus._subscribers (Manager.manager_event_bus m)
    ∧ Bus._message_queue (Manager.manager_event_bus m')
      = Bus._message_queue (Manager.manager_event_bus m) ++ [message]
    ∧ receiver_id message = mkAgentId key
    ∧ message_type message = "emergency_halt"
    ∧ content message = Manager.halt_message reason.
Proof.
  intros Hkey. unfold Manager.notify. cbn. rewrite Hkey. cbn.
  do 2 eexists. split_and!; reflexivity.
Qed.

(** The second loop of [emergency_halt], over identifiers that read back. *)
Lemma notify_agents (reason : string) (keys : list string) m :
  Forall (fun key => UUID_of key = Some key) keys →
  ∃ m' sent,
    for_each keys (Manager.notify reason) m = (Return tt, m')
    ∧ Manager._agents m' = Manager._agents m
    ∧ Bus._subscribers (Manager.manager_event_bus m')
      = Bus._subscribers (Manager.manager_event_bus m)
    ∧ Bus._message_queue (Manager.manager_event_bus m')
      = Bus._message_queue (Manager.manager_event_bus m) ++ sent
    ∧ str_AgentId ∘ receiver_id <$> sent = keys
    ∧ Forall (fun message =>
                message_type message = "emergency_halt"
                ∧ content message = Manager.halt_message reason) sent.
Proof.
  intros Hkeys. revert m. induction Hkeys as [|key keys Hkey _ IH]; intros m.
  - exists m, []. split_and!; try done. by rewrite app_nil_r.
  - cbn [for_each]. unfold bind.
    destruct (notify_in_memory reason key m Hkey)
      as (m1 & message & -> & Ha1 & Hs1 & Hq1 & Hr1 & Ht1 & Hc1).
    destruct (IH m1) as (m' & sent & -> & Hagents & Hsubs & Hq & Hrecv & Hall).
    exists m', (message :: sent).
    split_and!; [done | by rewrite Hagents | by rewrite Hsubs | | |].
    + rewrite Hq, Hq1. by rewrite <- app_assoc.
    + cbn. by rewrite Hrecv, Hr1.
    + by constructor.
Qed.

(** X25. On a manager with the in-memory bus whose agents are filed under
    the text of their identifier, as [create_agent] files them:
    [emergency_halt] returns, every agent is inactive afterwards and none is
    subscribed any more, and then one [emergency_halt] message for each
    agent has joined the queue of the bus. So each of these messages is
    addressed to an agent that the call itself has just unsubscribed. *)
Theorem emergency_halt_notifies_the_unsubscribed (reason : string) m :
  (∀ key agent, Manager._agents m !! key = Some agent →
                str_AgentId (_id agent) = key ∧ UUID_of key = Some key) →
  ∃ m' sent,
    Manager.emergency_halt reason m = (Return tt, m')
    ∧ Manager._agents m' = set_is_active false <$> Manager._agents m
    ∧ (∀ key, Bus._subscribers (Manager.manager_event_bus m') !! key
              = if decide (is_Some (Manager._agents m !! key)) then None
                else Bus._subscribers (Manager.manager_event_bus m) !! key)
    ∧ Bus._message_queue (Manager.manager_event_bus m')
      = Bus._message_queue (Manager.manager_event_bus m) ++ sent
    ∧ str_AgentId ∘ receiver_id <$> sent = (map_to_list (Manager._agents m)).*1
    ∧ Forall (fun message =>
                message_type message = "emergency_halt"
                ∧ Bus._subscribers (Manager.manager_event_bus m')
                  !! str_AgentId (receiver_id message) = None) sent.
Proof.
  intros Hfiled. unfold Manager.emergency_halt.
  destruct (halt_agents (map_to_list (Manager._agents m)) m)
    as (m1 & -> & _ & Hagents & Hsubs & Hq).
  assert (Ha1 : Manager._agents m1 = set_is_active false <$> Manager._agents m).
  { apply map_eq. intros key. rewrite Hagents, lookup_fmap.
    destruct (Manager._agents m !! key) as [agent|] eqn:Hkey.
    - rewrite (get_elem_of key agent); [done | |].
      + rewrite fmap_reverse, reverse_Permutation.
        apply NoDup_fst_map_to_list.
      + apply elem_of_reverse. by apply elem_of_map_to_list.
    - rewrite get_none; [done|]. rewrite fmap_reverse, elem_of_reverse.
      intros ([k a] & -> & Hin%elem_of_map_to_list)%list_elem_of_fmap.
      cbn in Hkey. by rewrite Hin in Hkey. }
  assert (Hs1 : ∀ key,
             Bus._subscribers (Manager.manager_event_bus m1) !! key
             = if decide (is_Some (Manager._agents m !! key)) then None
               else Bus._subscribers (Manager.manager_event_bus m) !! key).
  { intros key. rewrite Hsubs.
    destruct (decide (is_Some (Manager._agents m !! key))) as [[a Ha]|Hno].
    - rewrite decide_True; [done|]. apply list_elem_of_fmap.
      exists (key, a). split; [|by apply elem_of_map_to_list].
      cbn. by destruct (Hfiled key a Ha) as [-> _].
    - rewrite decide_False; [done|].
      intros ([k a] & Hk & Hin%elem_of_map_to_list)%list_elem_of_fmap.
      cbn in Hk. destruct (Hfiled k a Hin) as [Hid _].
      apply Hno. exists a. by rewrite Hk, Hid. }
  destruct (notify_agents reason (map_to_list (Manager._agents m1)).*1 m1)
    as (m' & sent & -> & Hagents' & Hsubs' & Hq' & Hrecv & Hall).
  { apply Forall_forall. intros key.
    intros ([k a] & -> & Hin%elem_of_map_to_list)%list_elem_of_fmap.
    rewrite Ha1, lookup_fmap in Hin. cbn.
    destruct (Manager._agents m !! k) as [a0|] eqn:Hk; [|done].
    by destruct (Hfiled k a0 Hk). }
  exists m', sent.
  split_and!; [done | by rewrite Hagents' | | by rewrite Hq', Hq | |].
  - intros key. by rewrite Hsubs'.
  - rewrite Hrecv, Ha1. rewrite map_to_list_fmap, <- list_fmap_compose.
    apply list_fmap_ext. by intros ? [].
  - apply Forall_forall. intros message Hin.
    split; [by apply (proj1 (Forall_forall _ _) Hall message)|].
    rewrite Hsubs', Hs1. rewrite decide_True; [done|].
    assert (Hkey : (str_AgentId ∘ receiver_id) message
                   ∈ (map_to_list (Manager._agents m1)).*1).
    { rewrite <- Hrecv. apply list_elem_of_fmap. by exists message. }
    apply list_elem_of_fmap in Hkey as ([k a] & Hk & Hka%elem_of_map_to_list).
    cbn in Hk. rewrite Hk. rewrite Ha1, lookup_fmap in Hka.
    destruct (Manager._agents m !! k); [by eexists | done].
Qed.

End emergency_halt_facts.

Lemma emergency_halt_notifies_the_unsubscribed_witness :
  ∃ m' sent,
    Manager.emergency_halt "drill" registry = (Return tt, m')
    ∧ Manager._agents m' = set_is_active false <$> Manager._agents registry
    ∧ (∀ key, Bus._subscribers (Manager.manager_event_bus m') !! key
              = if decide (is_Some (Manager._agents registry !! key)) then None
                else Bus._subscribers (Manager.manager_event_bus registry)
                     !! key)
    ∧ Bus._message_queue (Manager.manager_event_bus m')
      = Bus._message_queue (Manager.manager_event_bus registry) ++ sent
    ∧ str_AgentId ∘ receiver_id <$> sent
      = (map_to_list (Manager._agents registry)).*1
    ∧ Forall (fun message =>
                message_type message = "emergency_halt"
                ∧ Bus._subscribers (Manager.manager_event_bus m')
                  !! str_AgentId (receiver_id message) = None) sent.
Proof.
  apply (emergency_halt_notifies_the_unsubscribed (H := reader) "drill"
           registry).
  change (map_Forall (fun key agent => str_AgentId (_id agent) = key
                                       ∧ UUID_of key = Some key)
                     (Manager._agents registry)).
  apply (bool_decide_unpack _). vm_compute. exact I.
Defined.

(** ** The safety overseer: test designs, audits, replies *)

Section themis_task_facts.
Context {B : Type} `{EventBus B callback} `{Themis.Analysis}
        `{Themis.Formatting} `{Python.Text}.

#[local] Existing Instance Themis.AgentThemis_Role.

Implicit Types (st : Themis.AgentThemis * Env B).

Lemma design_safety_test_raises (test_type : pyval) (target : AgentId) st :
  Themis.design_safety_test test_type target st
  = (Raise (mkExn "AttributeError"
              "'AgentThemis' object has no attribute '_design_resource_constraint_test'"),
     st).
Proof. reflexivity. Qed.

Lemma save_task_in_memory {W : Type} `{Role W} (task : Task)
    (x : Exec (gmap string Task) W) :
  (save_task task x).1 = Return tt.
Proof. unfold save_task. by destruct (_task_repository x). Qed.

(** X26. [design_safety_test] raises [AttributeError] for every test type,
    a known one included: the dictionary of designs it builds first names two
    methods the class does not define. So a Themis task whose name contains
    "safety_test" (and not "audit") and that names a target agent is never
    carried out: over the in-memory repository [execute_task] returns it
    Failed, with the text of that error. *)
Theorem safety_test_task_always_fails (task : Task)
    (x : Exec (gmap string Task) (Themis.AgentThemis * Env B)) :
  let missing :=
    "'AgentThemis' object has no attribute '_design_resource_constraint_test'" in
  (∀ test_type target st,
     Themis.design_safety_test test_type target st
     = (Raise (mkExn "AttributeError" missing), st))
  ∧ (Python.contains "audit" (Python.lower (name task)) = false →
     Python.contains "safety_test" (Python.lower (name task)) = true →
     Python.truthy (default PyNone (Python.get "target_agent" (metadata task)))
     = true →
     (execute_task task x).1.1 = Return tt
     ∧ status (execute_task task x).1.2 = FAILED
     ∧ error (execute_task task x).1.2 = Some missing
     ∧ result (execute_task task x).1.2 = result task).
Proof.
  intros missing. split; [intros; apply design_safety_test_raises|].
  intros Haudit Htest Htarget.
  assert (Hrun : ∃ x4,
    execute_task task x
    = ((save_task (with_sys (mark_failed missing) (started task x).1 x4).1
                  (with_sys (mark_failed missing) (started task x).1 x4).2).1,
       (with_sys (mark_failed missing) (started task x).1 x4).1,
       (save_task (with_sys (mark_failed missing) (started task x).1 x4).1
                  (with_sys (mark_failed missing) (started task x).1 x4).2).2)).
  { rewrite execute_task_unfold, execute_task_try_started. cbv zeta.
    pose proof (save_task_in_memory (started task x).1 (started task x).2)
      as Hs.
    destruct (save_task (started task x).1 (started task x).2) as [o x2].
    cbn [fst] in Hs. subst o.
    unfold in_world at 1.
    change (_perform_safety_checks (started task x).1 (world x2))
      with (Return (@nil SafetyCheck), world x2).
    cbn [existsb].
    assert (Hname : name (started task x).1 = name task
                    ∧ metadata (started task x).1 = metadata task).
    { unfold started.
      by destruct (with_sys_fields mark_in_progress task x) as [-> _]. }
    destruct Hname as (Hname & Hmeta).
    unfold in_world.
    change (Agent._execute_task_internal (started task x).1)
      with (Themis._execute_task_internal (started task x).1).
    unfold Themis._execute_task_internal.
    rewrite Hname, Hmeta, Haudit, Htest, Htarget.
    unfold bind. rewrite design_safety_test_raises.
    by eexists. }
  destruct Hrun as (x4 & ->). cbn [fst snd].
  split_and!.
  - apply save_task_in_memory.
  - apply with_sys_mark_failed_spec.
  - apply with_sys_mark_failed_spec.
  - destruct (with_sys_fields (mark_failed missing) (started task x).1 x4)
      as [-> _].
    unfold started.
    by destruct (with_sys_fields mark_in_progress task x) as [-> _].
Qed.

End themis_task_facts.

Section audit_facts.
Context `{Themis.Analysis} `{Themis.Formatting}.

#[local] Abbreviation B := (Bus.InMemoryEventBus callback).

Implicit Types (self : Themis.AgentThemis) (env : Env B).

Lemma sends_after_reading env env1 (sent : list Message) (s : Sys) :
  sends env env1 sent → sends env (mkEnv s (_event_bus env1)) sent.
Proof. intros (b & b1 & ? & ? & ? & ?). by exists b, b1. Qed.

Lemma new_SafetyCheck_reads (check_type status message severity : string)
    (metadata : dict) self env :
  ∃ c s,
    Themis.new_SafetyCheck check_type status message severity metadata
      (self, env)
    = (Return c, (self, mkEnv s (_event_bus env)))
    ∧ Domain.check_type c = check_type
    ∧ Domain.check_status c = status
    ∧ Domain.severity c = severity.
Proof. by do 2 eexists. Qed.

(** The two checks that ask the audited agent for material. *)
Lemma audit_behavioral_alignment_run self env (target : AgentId) :
  is_Some (_event_bus env) →
  ∃ c env' m,
    Themis._audit_behavioral_alignment target (self, env)
    = (Return c, (self, env'))
    ∧ sends env env' [m]
    ∧ view m = (_id (Themis.base self), target, "safety_audit",
                [ ("type", PyStr "behavior_audit_request");
                  ("audit_id", PyStr (str_AgentId target)) ])
    ∧ check_type c = "behavioral_alignment"
    ∧ Themis.is_critical c
      = Themis.Qltb (Themis._calculate_alignment_score target)
                    (Themis.critical (Themis._alert_thresholds self))
    ∧ check_status c
      = (if Themis.Qltb (Themis._calculate_alignment_score target)
                        (Themis.high (Themis._alert_thresholds self))
         then "failed"
         else if Themis.Qltb (Themis._calculate_alignment_score target)
                             (Themis.medium (Themis._alert_thresholds self))
         then "warning"
         else "passed").
Proof.
  intros Hb.
  destruct (send_message_sends (Themis.base self) target
              [ ("type", PyStr "behavior_audit_request");
                ("audit_id", PyStr (str_AgentId target)) ]
              "safety_audit" env Hb) as (env1 & m & Hsend & Hs & Hv).
  unfold Themis._audit_behavioral_alignment, bind, Themis.self_,
    Themis.in_env. rewrite Hsend. cbn [fst].
  destruct (Themis.Qltb _ (Themis.medium _)),
    (Themis.Qltb _ (Themis.high _)),
    (Themis.Qltb _ (Themis.critical _));
    (do 3 eexists; split_and!;
     [reflexivity | by apply sends_after_reading | exact Hv
     | reflexivity | reflexivity | reflexivity]).
Qed.

Lemma audit_interpretability_run self env (target : AgentId) :
  is_Some (_event_bus env) →
  ∃ c env' m,
    Themis._audit_interpretability target (self, env)
    = (Return c, (self, env'))
    ∧ sends env env' [m]
    ∧ view m = (_id (Themis.base self), target, "safety_audit",
                [ ("type", PyStr "interpretability_audit");
                  ("request_internal_state", PyBool true) ])
    ∧ check_type c = "interpretability"
    ∧ Themis.is_critical c = false.
Proof.
  intros Hb.
  destruct (send_message_sends (Themis.base self) target
              [ ("type", PyStr "interpretability_audit");
                ("request_internal_state", PyBool true) ]
              "safety_audit" env Hb) as (env1 & m & Hsend & Hs & Hv).
  unfold Themis._audit_interpretability, bind, Themis.self_, Themis.in_env.
  rewrite Hsend. cbn [fst].
  destruct (Themis.Qltb _ (Themis.medium _)), (Themis.Qltb _ (Themis.high _));
    (do 3 eexists; split_and!;
     [reflexivity | by apply sends_after_reading | exact Hv
     | reflexivity | reflexivity]).
Qed.

(** The three checks that send nothing. *)
Lemma audit_specification_gaming_run self env (target : AgentId) :
  ∃ c s,
    Themis._audit_specification_gaming target (self, env)
    = (Return c, (self, mkEnv s (_event_bus env)))
    ∧ check_type c = "specification_gaming"
    ∧ Themis.is_critical c = false.
Proof.
  unfold Themis._audit_specification_gaming.
  destruct (2 <? _)%nat, (4 <? _)%nat; by do 2 eexists.
Qed.

Lemma audit_goal_alignment_run self env (target : AgentId) :
  ∃ c s,
    Themis._audit_goal_alignment target (self, env)
    = (Return c, (self, mkEnv s (_event_bus env)))
    ∧ check_type c = "goal_alignment"
    ∧ Themis.is_critical c = false.
Proof.
  unfold Themis._audit_goal_alignment, bind, Themis.self_. cbn [fst].
  destruct (Themis.Qltb (Themis.medium _) _), (Themis.Qltb (Themis.high _) _);
    by do 2 eexists.
Qed.

Lemma audit_containment_run self env (target : AgentId) :
  ∃ c s,
    Themis._audit_containment target (self, env)
    = (Return c, (self, mkEnv s (_event_bus env)))
    ∧ check_type c = "containment"
    ∧ Themis.is_critical c
      = Themis.Qltb (Themis._assess_containment target)
                    (Themis.high (Themis._alert_thresholds self)).
Proof.
  unfold Themis._audit_containment, bind, Themis.self_. cbn [fst].
  destruct (Themis.Qltb _ (Themis.high _)); by do 2 eexists.
Qed.

Lemma filter_idemp {A} (P : A → Prop) `{∀ x, Decision (P x)} (l : list A) :
  filter P (filter P l) = filter P l.
Proof.
  induction l as [|x l IH]; [done|].
  destruct (decide (P x)) as [Hx|Hx].
  - rewrite (filter_cons_True P x l Hx), filter_cons_True by done.
    by rewrite IH.
  - by rewrite (filter_cons_False P x l Hx).
Qed.

(** What [_trigger_safety_alert] sends on the in-memory bus. *)
Lemma trigger_safety_alert_run self env (agent_id : AgentId)
    (violations : list SafetyCheck) :
  is_Some (_event_bus env) →
  ∃ env' sent,
    Themis._trigger_safety_alert violations agent_id (self, env)
    = (Return tt, (self, env'))
    ∧ sends env env' sent
    ∧ view <$> sent
      = match _supervisor (Themis.base self) with
        | Some supervisor =>
            [(_id (Themis.base self), supervisor, "safety_alert",
              Themis.alert_of self violations agent_id)]
        | None => []
        end
        ++ match filter (fun v => Themis.is_critical v = true) violations with
           | [] => []
           | critical_violations =>
               if Themis._veto_power_active self
               then
                 (_id (Themis.base self), agent_id, "emergency_command",
                  Themis.halt_directive critical_violations)
                 :: ((fun receiver =>
                        (_id (Themis.base self), receiver, "safety_alert",
                         Themis.veto_notification agent_id))
                       <$> _subordinates (Themis.base self))
               else []
           end.
Proof.
  intros Hb.
  assert (Hreport : ∃ env1 sent1,
    match _supervisor (Themis.base self) with
    | Some supervisor =>
        Themis.in_env (fun self0 =>
          send_message (Themis.base self0) supervisor
            (Themis.alert_of self violations agent_id) "safety_alert")
    | None => ret tt
    end (self, env) = (Return tt, (self, env1))
    ∧ sends env env1 sent1
    ∧ view <$> sent1
      = match _supervisor (Themis.base self) with
        | Some supervisor =>
            [(_id (Themis.base self), supervisor, "safety_alert",
              Themis.alert_of self violations agent_id)]
        | None => []
        end).
  { destruct (_supervisor (Themis.base self)) as [supervisor|].
    - destruct (send_message_sends (Themis.base self) supervisor
                  (Themis.alert_of self violations agent_id) "safety_alert"
                  env Hb) as (env1 & m & Hsend & Hs1 & Hv).
      exists env1, [m]. split_and!; [|done|by cbn; rewrite Hv].
      unfold Themis.in_env. by rewrite Hsend.
    - exists env, []. split_and!; [done| |done].
      destruct Hb as [b Hb]. by eapply sends_nothing. }
  destruct Hreport as (env1 & sent1 & Hrep & Hs1 & Hv1).
  unfold Themis._trigger_safety_alert, bind, Themis.self_. cbn [fst].
  rewrite Hrep.
  destruct (filter (fun v => Themis.is_critical v = true) violations)
    as [|v rest].
  - exists env1, sent1. rewrite app_nil_r. by split_and!.
  - destruct (Themis._veto_power_active self); cbn [andb].
    + destruct (exercise_veto_power_sends self env1 agent_id (v :: rest)
                  (sends_bus _ _ _ Hs1)) as (env2 & sent2 & Hveto & Hs2 & Hv2).
      exists env2, (sent1 ++ sent2). split_and!; [done | |].
      * by apply (sends_then env env1 env2).
      * by rewrite fmap_app, Hv1, Hv2.
    + exists env1, sent1. rewrite app_nil_r. by split_and!.
Qed.

(** The five checks of an audit, up to the point where the audit looks for
    critical failures. *)
Lemma audit_checks_run self env (target : AgentId) :
  is_Some (_event_bus env) →
  ∃ c1 c2 c3 c4 c5 env5 m1 m4,
    let checks := [c1; c2; c3; c4; c5] in
    let self' :=
      Themis.set_audit_history (Themis._audit_history self ++ checks) self in
    Themis.perform_comprehensive_audit target (self, env)
    = match filter (fun c => Themis.is_critical c = true) checks with
      | [] => (Return checks, (self', env5))
      | critical_failures =>
          match Themis._trigger_safety_alert critical_failures target
                  (self', env5) with
          | (Return _, st) => (Return checks, st)
          | (Raise e, st) => (Raise e, st)
          | (Suspend, st) => (Suspend, st)
          end
      end
    ∧ check_type <$> checks
      = [ "behavioral_alignment"; "specification_gaming"; "goal_alignment";
          "interpretability"; "containment" ]
    ∧ Themis.is_critical <$> checks
      = [ Themis.Qltb (Themis._calculate_alignment_score target)
                      (Themis.critical (Themis._alert_thresholds self));
          false; false; false;
          Themis.Qltb (Themis._assess_containment target)
                      (Themis.high (Themis._alert_thresholds self)) ]
    ∧ check_status c1
      = (if Themis.Qltb (Themis._calculate_alignment_score target)
                        (Themis.high (Themis._alert_thresholds self))
         then "failed"
         else if Themis.Qltb (Themis._calculate_alignment_score target)
                             (Themis.medium (Themis._alert_thresholds self))
         then "warning"
         else "passed")
    ∧ sends env env5 [m1; m4]
    ∧ view <$> [m1; m4]
      = [ (_id (Themis.base self), target, "safety_audit",
           [ ("type", PyStr "behavior_audit_request");
             ("audit_id", PyStr (str_AgentId target)) ]);
          (_id (Themis.base self), target, "safety_audit",
           [ ("type", PyStr "interpretability_audit");
             ("request_internal_state", PyBool true) ]) ].
Proof.
  intros Hb.
  destruct (audit_behavioral_alignment_run self env target Hb)
    as (c1 & env1 & m1 & Hrun1 & Hs1 & Hv1 & Ht1 & Hc1 & Hst1).
  destruct (audit_specification_gaming_run self env1 target)
    as (c2 & s2 & Hrun2 & Ht2 & Hc2).
  destruct (audit_goal_alignment_run self (mkEnv s2 (_event_bus env1)) target)
    as (c3 & s3 & Hrun3 & Ht3 & Hc3).
  cbn [_event_bus] in Hrun3.
  assert (Hs3 : sends env (mkEnv s3 (_event_bus env1)) [m1])
    by by apply sends_after_reading.
  destruct (audit_interpretability_run self (mkEnv s3 (_event_bus env1)) target
              (sends_bus _ _ _ Hs3))
    as (c4 & env4 & m4 & Hrun4 & Hs4 & Hv4 & Ht4 & Hc4).
  destruct (audit_containment_run self env4 target)
    as (c5 & s5 & Hrun5 & Ht5 & Hc5).
  exists c1, c2, c3, c4, c5, (mkEnv s5 (_event_bus env4)), m1, m4.
  cbv zeta. split_and!.
  - unfold Themis.perform_comprehensive_audit, bind.
    rewrite Hrun1, Hrun2, Hrun3, Hrun4, Hrun5. cbn [app].
    destruct (filter (fun c => Themis.is_critical c = true) [c1; c2; c3; c4; c5])
      as [|v rest]; [done|].
    by destruct (Themis._trigger_safety_alert (v :: rest) target _)
      as [[[]| |] st].
  - cbn. by rewrite Ht1, Ht2, Ht3, Ht4, Ht5.
  - cbn. by rewrite Hc1, Hc2, Hc3, Hc4, Hc5.
  - exact Hst1.
  - apply sends_after_reading.
    by apply (sends_then env (mkEnv s3 (_event_bus env1)) env4 [m1] [m4]).
  - cbn. by rewrite Hv1, Hv4.
Qed.

(** X27. An audit on the in-memory bus returns five checks, of the five
    types in the order of the program, and appends exactly these to the
    audit history; nothing else of the overseer changes. Only the first and
    the last can be of critical severity: the behavioural check when the
    alignment score is below the critical threshold, the containment check
    when the containment score is below the high threshold. The audit sends
    its two requests to the audited agent and then, when a check is
    critical, the alert to the supervisor if there is one and, with the veto
    active, the halt directive to the audited agent and a notification to each
    subordinate; nothing else. *)
Theorem perform_comprehensive_audit_run self env (target : AgentId) :
  is_Some (_event_bus env) →
  ∃ c1 c2 c3 c4 c5 env' sent,
    let checks := [c1; c2; c3; c4; c5] in
    let self' :=
      Themis.set_audit_history (Themis._audit_history self ++ checks) self in
    Themis.perform_comprehensive_audit target (self, env)
    = (Return checks, (self', env'))
    ∧ check_type <$> checks
      = [ "behavioral_alignment"; "specification_gaming"; "goal_alignment";
          "interpretability"; "containment" ]
    ∧ Themis.is_critical <$> checks
      = [ Themis.Qltb (Themis._calculate_alignment_score target)
                      (Themis.critical (Themis._alert_thresholds self));
          false; false; false;
          Themis.Qltb (Themis._assess_containment target)
                      (Themis.high (Themis._alert_thresholds self)) ]
    ∧ sends env env' sent
    ∧ view <$> sent
      = (_id (Themis.base self), target, "safety_audit",
         [ ("type", PyStr "behavior_audit_request");
           ("audit_id", PyStr (str_AgentId target)) ])
        :: (_id (Themis.base self), target, "safety_audit",
            [ ("type", PyStr "interpretability_audit");
              ("request_internal_state", PyBool true) ])
        :: match filter (fun c => Themis.is_critical c = true) checks with
           | [] => []
           | critical_failures =>
               match _supervisor (Themis.base self) with
               | Some supervisor =>
                   [(_id (Themis.base self), supervisor, "safety_alert",
                     Themis.alert_of self critical_failures target)]
               | None => []
               end
               ++ (if Themis._veto_power_active self
                   then
                     (_id (Themis.base self), target, "emergency_command",
                      Themis.halt_directive critical_failures)
                     :: ((fun receiver =>
                            (_id (Themis.base self), receiver, "safety_alert",
                             Themis.veto_notification target))
                           <$> _subordinates (Themis.base self))
                   else [])
           end.
Proof.
  intros Hb.
  destruct (audit_checks_run self env target Hb)
    as (c1 & c2 & c3 & c4 & c5 & env5 & m1 & m4
        & Hrun & Htypes & Hcrit & _ & Hs5 & Hv5).
  set (checks := [c1; c2; c3; c4; c5]) in *.
  set (self' :=
         Themis.set_audit_history (Themis._audit_history self ++ checks) self)
    in *.
  destruct (filter (fun c => Themis.is_critical c = true) checks)
    as [|v rest] eqn:Hf.
  - exists c1, c2, c3, c4, c5, env5, [m1; m4].
    cbv zeta. fold checks. rewrite Hf. by split_and!.
  - destruct (trigger_safety_alert_run self' env5 target (v :: rest)
                (sends_bus _ _ _ Hs5))
      as (env6 & sent & Hrun6 & Hs6 & Hv6).
    exists c1, c2, c3, c4, c5, env6, ([m1; m4] ++ sent).
    cbv zeta. fold checks. rewrite Hf. split_and!; [| done | done | |].
    + fold self'. by rewrite Hrun, Hrun6.
    + by apply (sends_then env env5 env6).
    + rewrite fmap_app, Hv6, Hv5. cbn [app].
      assert (Hff : filter (fun c => Themis.is_critical c = true) (v :: rest)
                    = v :: rest) by (rewrite <- Hf; apply filter_idemp).
      rewrite Hff. reflexivity.
Qed.

End audit_facts.

Section placeholder_facts.
Context `{Themis.Formatting}.

#[local] Abbreviation B := (Bus.InMemoryEventBus callback).

(** X28. With the analyses the program ships, which are placeholders that
    return fixed scores, and the thresholds [__init__] sets: every audit, of
    whatever agent, finds exactly one critical failure, the behavioural
    check, whose status is "passed"; and an overseer with the veto active
    that has a bus then sends the audited agent one halt directive. *)
Theorem placeholder_audit_always_vetoes
    (self : Themis.AgentThemis) (env : Env B) (target : AgentId) :
  is_Some (_event_bus env) →
  Themis._alert_thresholds self
  = Themis._alert_thresholds (Themis.AgentThemis_init (_id (Themis.base self))) →
  Themis._veto_power_active self = true →
  ∃ checks self' env' sent,
    Themis.perform_comprehensive_audit (H0 := Themis.placeholder) target
      (self, env)
    = (Return checks, (self', env'))
    ∧ length checks = 5
    ∧ (fun c => (check_type c, check_status c))
        <$> filter (fun c => Themis.is_critical c = true) checks
      = [("behavioral_alignment", "passed")]
    ∧ sends env env' sent
    ∧ receiver_id <$> filter is_halt sent = [target].
Proof.
  intros Hb Hlimits Hveto.
  destruct (audit_checks_run (H := Themis.placeholder) self env target Hb)
    as (c1 & c2 & c3 & c4 & c5 & env5 & m1 & m4
        & Hrun & Htypes & Hcrit & Hstatus & Hs5 & Hv5).
  rewrite Hlimits in Hcrit, Hstatus.
  injection Hcrit as Hc1 Hc2 Hc3 Hc4 Hc5.
  injection Htypes as Ht1 _.
  assert (Hf : filter (fun c => Themis.is_critical c = true)
                      [c1; c2; c3; c4; c5] = [c1]).
  { rewrite filter_cons_True by (rewrite Hc1; reflexivity).
    rewrite filter_cons_False by (rewrite Hc2; discriminate).
    rewrite filter_cons_False by (rewrite Hc3; discriminate).
    rewrite filter_cons_False by (rewrite Hc4; discriminate).
    rewrite filter_cons_False by (rewrite Hc5; discriminate).
    done. }
  rewrite Hf in Hrun.
  set (self' := Themis.set_audit_history
                  (Themis._audit_history self ++ [c1; c2; c3; c4; c5]) self)
    in *.
  destruct (trigger_safety_alert_run self' env5 target [c1]
              (sends_bus _ _ _ Hs5))
    as (env6 & sent & Hrun6 & Hs6 & Hv6).
  rewrite Hrun6 in Hrun.
  rewrite filter_cons_True in Hv6 by (rewrite Hc1; reflexivity).
  change (Themis._veto_power_active self') with (Themis._veto_power_active self)
    in Hv6.
  rewrite Hveto in Hv6.
  exists [c1; c2; c3; c4; c5], self', env6, ([m1; m4] ++ sent).
  split_and!; [exact Hrun | done | | by apply (sends_then env env5 env6) |].
  - rewrite Hf. cbn. by rewrite Ht1, Hstatus.
  - transitivity ((fun v : AgentId * AgentId * string * dict => v.1.1.2)
                    <$> (view <$> filter is_halt ([m1; m4] ++ sent))).
    { by rewrite <- list_fmap_compose. }
    rewrite filter_is_halt_view, fmap_app, Hv5, Hv6.
    rewrite !filter_app.
    rewrite filter_cons_False by (cbn; discriminate).
    rewrite filter_cons_False by (cbn; discriminate).
    assert (Hnone :
      filter (fun v : AgentId * AgentId * string * dict =>
                v.1.2 = "emergency_command")
        match _supervisor (Themis.base self') with
        | Some supervisor =>
            [(_id (Themis.base self'), supervisor, "safety_alert",
              Themis.alert_of self' [c1] target)]
        | None => []
        end = []).
    { destruct (_supervisor (Themis.base self')); [|done].
      rewrite filter_cons_False; [done | cbn; discriminate]. }
    rewrite Hnone.
    rewrite filter_cons_True by done.
    by rewrite filter_halt_among_alerts.
Qed.

End placeholder_facts.

Lemma perform_comprehensive_audit_run_witness :
  let self := overseer in
  let env := mkEnv world0 (Some (Bus.InMemoryEventBus_init (H := callback))) in
  ∃ c1 c2 c3 c4 c5 env' sent,
    Themis.perform_comprehensive_audit (H0 := passing) (H1 := formatting)
      (mkAgentId id4) (self, env)
    = (Return [c1; c2; c3; c4; c5],
       (Themis.set_audit_history [c1; c2; c3; c4; c5] self, env'))
    ∧ check_type <$> [c1; c2; c3; c4; c5]
      = [ "behavioral_alignment"; "specification_gaming"; "goal_alignment";
          "interpretability"; "containment" ]
    ∧ Themis.is_critical <$> [c1; c2; c3; c4; c5]
      = [true; false; false; false; false]
    ∧ sends env env' sent.
Proof.
  destruct (perform_comprehensive_audit_run (H := passing) (H0 := formatting)
              overseer
              (mkEnv world0 (Some (Bus.InMemoryEventBus_init (H := callback))))
              (mkAgentId id4))
    as (c1 & c2 & c3 & c4 & c5 & env' & sent & Hrun & Ht & Hc & Hs & _).
  { by eexists. }
  exists c1, c2, c3, c4, c5, env', sent. by split_and!.
Defined.

Lemma placeholder_audit_always_vetoes_witness :
  let env := mkEnv world0 (Some (Bus.InMemoryEventBus_init (H := callback))) in
  ∃ checks self' env' sent,
    Themis.perform_comprehensive_audit (H0 := Themis.placeholder)
      (H1 := formatting) (mkAgentId id4) (overseer, env)
    = (Return checks, (self', env'))
    ∧ length checks = 5
    ∧ (fun c => (check_type c, check_status c))
        <$> filter (fun c => Themis.is_critical c = true) checks
      = [("behavioral_alignment", "passed")]
    ∧ sends env env' sent
    ∧ receiver_id <$> filter is_halt sent = [mkAgentId id4].
Proof.
  apply (placeholder_audit_always_vetoes (H := formatting) overseer
           (mkEnv world0 (Some Bus.InMemoryEventBus_init)) (mkAgentId id4)).
  - by eexists.
  - reflexivity.
  - reflexivity.
Defined.

Section audit_request_facts.
Context `{Themis.Analysis} `{Themis.Formatting} `{Python.Text}.

#[local] Abbreviation B := (Bus.InMemoryEventBus callback).

#[local] Existing Instance Themis.AgentThemis_Responder.

Implicit Types (self : Themis.AgentThemis) (env : Env B).

(** On the in-memory bus an audit returns. *)
Lemma audit_returns self env (target : AgentId) :
  is_Some (_event_bus env) →
  ∃ checks env' sent,
    Themis.perform_comprehensive_audit target (self, env)
    = (Return checks,
       (Themis.set_audit_history (Themis._audit_history self ++ checks) self,
        env'))
    ∧ length checks = 5
    ∧ sends env env' sent.
Proof.
  intros Hb.
  destruct (audit_checks_run self env target Hb)
    as (c1 & c2 & c3 & c4 & c5 & env5 & m1 & m4 & Hrun & _ & _ & _ & Hs5 & _).
  destruct (filter (fun c => Themis.is_critical c = true) [c1; c2; c3; c4; c5])
    as [|v rest].
  - by exists [c1; c2; c3; c4; c5], env5, [m1; m4].
  - destruct (trigger_safety_alert_run
                (Themis.set_audit_history
                   (Themis._audit_history self ++ [c1; c2; c3; c4; c5]) self)
                env5 target (v :: rest) (sends_bus _ _ _ Hs5))
      as (env6 & sent & Hrun6 & Hs6 & _).
    exists [c1; c2; c3; c4; c5], env6, ([m1; m4] ++ sent).
    split_and!; [by rewrite Hrun, Hrun6 | done |].
    by apply (sends_then env env5 env6).
Qed.

(** X29. A Themis on the in-memory bus answers a message of type
    [audit_request]: it audits the agent the content names, which adds five
    checks to its history, and [_handle_message] then publishes one
    [audit_response] with these checks to the sender of the request, after
    whatever the audit itself sent. A message of any other type is dropped:
    nothing is sent and nothing changes. *)
Theorem audit_request_is_answered self env (message : Message) :
  is_Some (_event_bus env) →
  (message_type message ≠ "audit_request" →
   handle_message message (self, env) = (Return tt, (self, env)))
  ∧ (message_type message = "audit_request" →
     ∃ checks env' sent response,
       handle_message message (self, env)
       = (Return tt,
          (Themis.set_audit_history (Themis._audit_history self ++ checks)
             self, env'))
       ∧ length checks = 5
       ∧ sends env env' (sent ++ [response])
       ∧ view response
         = (_id (Themis.base self), sender_id message, "audit_response",
            [("audit_results", PyList (py_of_check <$> checks))])).
Proof.
  intros Hb. unfold handle_message, process_message.
  change (_process_message_internal message)
    with (Themis._process_message_internal message).
  unfold Themis._process_message_internal. split.
  - intros Hother. by rewrite decide_False.
  - intros Hrequest. rewrite decide_True by done. unfold bind.
    destruct (audit_returns self env
                (Themis.AgentId_of
                   (default PyNone
                      (Python.get "target_agent" (content message)))) Hb)
      as (checks & env1 & sent & -> & Hlen & Hs1).
    destruct (sends_bus _ _ _ Hs1) as [b1 Hb1].
    cbn. rewrite Hb1.
    change (bus_publish ?m b1) with (Bus.publish m b1).
    rewrite publish_returns.
    do 4 eexists. split; [reflexivity|]. split; [exact Hlen|]. split.
    + apply (sends_then env env1 _ sent [_]); [exact Hs1|].
      eexists b1, _. split_and!; [exact Hb1 | reflexivity | reflexivity | done].
    + reflexivity.
Qed.

End audit_request_facts.

Lemma safety_test_task_always_fails_witness :
  let x : Exec (gmap string Task)
               (Themis.AgentThemis * Env (Bus.InMemoryEventBus callback)) :=
    mkExec world0 (Some ∅) []
           (overseer, mkEnv world0 (Some Bus.InMemoryEventBus_init)) in
  let run :=
    execute_task
      (H0 := Themis.AgentThemis_Role (H0 := Themis.placeholder)
               (H1 := formatting) (H2 := text))
      safety_test x in
  run.1.1 = Return tt
  ∧ status run.1.2 = FAILED
  ∧ error run.1.2
    = Some "'AgentThemis' object has no attribute '_design_resource_constraint_test'"
  ∧ result run.1.2 = None.
Proof.
  apply (safety_test_task_always_fails (H0 := Themis.placeholder)
           (H1 := formatting) (H2 := text) safety_test
           (mkExec world0 (Some ∅) []
              (overseer, mkEnv world0 (Some Bus.InMemoryEventBus_init))));
    reflexivity.
Defined.

Lemma audit_request_is_answered_witness :
  let env := mkEnv world0 (Some (Bus.InMemoryEventBus_init (H := callback))) in
  ∃ checks env' sent response,
    handle_message
      (H0 := Themis.AgentThemis_Responder (H0 := Themis.placeholder)
               (H1 := formatting) (H2 := text))
      audit_request (overseer, env)
    = (Return tt, (Themis.set_audit_history checks overseer, env'))
    ∧ length checks = 5
    ∧ sends env env' (sent ++ [response])
    ∧ view response
      = (mkAgentId id1, mkAgentId id2, "audit_response",
         [("audit_results", PyList (py_of_check <$> checks))]).
Proof.
  apply (audit_request_is_answered (H := Themis.placeholder)
           (H0 := formatting) (H1 := text) overseer
           (mkEnv world0 (Some Bus.InMemoryEventBus_init)) audit_request).
  - by eexists.
  - reflexivity.
Defined.

(** ** Executing a task through the service *)

Section service_execution_facts.
Context {W : Type} `{UUIDReader}.
Context (agents : gmap string BaseAgent) (role : BaseAgent → Role W).

Implicit Types (s : Sys) (r : gmap string Task) (w : W).

(** Over the in-memory repository [BaseAgent.execute_task] returns unless
    the role leaves it suspended. *)
Lemma execute_task_in_memory_outcome (agent : BaseAgent) (task : Task)
    (x : Exec (gmap string Task) W) :
  (execute_task (H0 := role agent) task x).1.1 = Return tt
  ∨ (execute_task (H0 := role agent) task x).1.1 = Suspend.
Proof.
  rewrite execute_task_unfold, execute_task_try_started. cbv zeta.
  pose proof (@save_task_in_memory W (role agent)
                (started task x).1 (started task x).2) as Hs.
  destruct (save_task (started task x).1 (started task x).2) as [o x2].
  cbn [fst] in Hs. subst o.
  destruct (in_world (_perform_safety_checks (started task x).1) x2)
    as [[checks| |] x3]; cbn [fst snd].
  - destruct (existsb failed_check checks); [by left|].
    destruct (in_world (_execute_task_internal (started task x).1) x3)
      as [[result| |] x4]; cbn [fst snd].
    + left. apply (@save_task_in_memory W (role agent)).
    + left. apply (@save_task_in_memory W (role agent)).
    + by right.
  - left. apply (@save_task_in_memory W (role agent)).
  - by right.
Qed.

(** X30. [TaskService.execute_task] over the in-memory repository, for a
    task stored under the identifier its text denotes. When the manager
    does not hold the agent of the task, the task is returned Failed with
    "Agent not found". When it holds the agent, the call returns unless the
    role of the agent leaves it suspended, and the task it returns is the one
    the agent returned, Completed or Failed. Either way the repository then
    holds exactly the task returned, under the same identifier, and the task
    is the one that was stored in all that says what it is. For an
    identifier under which nothing is stored it returns [None] and changes
    nothing. *)
Theorem service_execute_task_stores_what_it_returns
    s r w (task_id : string) (u : UUID) :
  UUID_of task_id = Some u →
  (r !! u = None →
   TaskService.execute_task agents role task_id (s, r, w)
   = (Return None, (s, r, w)))
  ∧ (∀ t, r !! u = Some t → id t = mkTaskId u →
       match agents !! str_AgentId (agent_id t) with
       | None =>
           ∃ t' s',
             TaskService.execute_task agents role task_id (s, r, w)
             = (Return (Some t'), (s', <[u := t']> r, w))
             ∧ status t' = FAILED
             ∧ error t' = Some "Agent not found"
             ∧ Readings.frame t' = Readings.frame t
       | Some agent =>
           let run := TaskService.agent_execute_task role agent t (s, r, w) in
           (run.1.1 = Suspend
            ∧ (TaskService.execute_task agents role task_id (s, r, w)).1
              = Suspend)
           ∨ (run.1.1 = Return tt
              ∧ ∃ st',
                  TaskService.execute_task agents role task_id (s, r, w)
                  = (Return (Some run.1.2), st')
                  ∧ st'.1.2 !! u = Some run.1.2
                  ∧ status run.1.2 ∈ [COMPLETED; FAILED]
                  ∧ Readings.frame run.1.2 = Readings.frame t)
       end).
Proof.
  intros Hu. split.
  - intros Hnone. unfold TaskService.execute_task, TaskService.execute_task_try.
    unfold TaskService.on_shared.
    by rewrite (get_task_stored r task_id u Hu), Hnone.
  - intros t Ht Hid.
    unfold TaskService.execute_task, TaskService.execute_task_try.
    unfold TaskService.on_shared.
    rewrite (get_task_stored r task_id u Hu), Ht.
    destruct (agents !! str_AgentId (agent_id t)) as [agent|].
    + cbv zeta. unfold TaskService.agent_execute_task.
      pose proof (execute_task_in_memory_outcome agent t
                    (mkExec s (Some r) [] w)) as Hout.
      pose proof (execute_task_status (H0 := role agent) t
                    (mkExec s (Some r) [] w)) as [_ Hstatus].
      pose proof (execute_task_result (H0 := role agent) t
                    (mkExec s (Some r) [] w)) as Hresult.
      cbv zeta in Hresult.
      destruct (execute_task t (mkExec s (Some r) [] w)) as [[o t'] x'].
      cbn [fst snd] in *.
      destruct Hout as [-> | ->]; [right | by left].
      split; [done|].
      assert (Hframe : Readings.frame t' = Readings.frame t).
      { destruct Hresult as [[_ ?]|[(e & s0 & ->)|(res & s0 & ->)]]; done. }
      assert (Hkey : entity_key t' = Some u).
      { unfold entity_key, Task_Entity.
        apply (f_equal (fun f => f.1.1.1.1.1.1)) in Hframe. cbn in Hframe.
        by rewrite Hframe, Hid. }
      change (repo_save t' ?r0) with (imr_save t' r0).
      rewrite (imr_save_keyed t' u) by done.
      eexists. split_and!; [reflexivity | | by apply Hstatus | done].
      cbn. apply lookup_insert_eq.
    + unfold TaskService.fail_and_save, mark_failed, utcnow.
      cbn [fst snd]. change (repo_save ?t0 r) with (imr_save t0 r).
      rewrite (imr_save_keyed _ u).
      * do 2 eexists. split_and!; reflexivity.
      * unfold entity_key, Task_Entity. cbn. by rewrite Hid.
Qed.

End service_execution_facts.

Lemma service_execute_task_stores_what_it_returns_witness :
  let r : gmap string Task := {[ id1 := task_in PENDING ]} in
  ∃ t' st',
    TaskService.execute_task (H0 := reader) (Manager._agents registry)
      (fun _ => rejecting) id1 (world0, r, 0%nat)
    = (Return (Some t'), st')
    ∧ st'.1.2 !! id1 = Some t'
    ∧ status t' ∈ [COMPLETED; FAILED]
    ∧ Readings.frame t' = Readings.frame (task_in PENDING).
Proof.
  destruct (service_execute_task_stores_what_it_returns (H := reader)
              (Manager._agents registry) (fun _ => rejecting) world0
              ({[ id1 := task_in PENDING ]} : gmap string Task) 0%nat id1 id1
              eq_refl) as [_ Hfound].
  specialize (Hfound (task_in PENDING) eq_refl eq_refl).
  destruct (Manager._agents registry !! str_AgentId (agent_id (task_in PENDING)))
    as [agent|] eqn:Hagent; [|by vm_compute in Hagent].
  destruct Hfound as [[Hsuspended _]|(_ & st' & Hrun & Hstored & Hstatus & Hframe)].
  - vm_compute in Hsuspended. discriminate Hsuspended.
  - eexists _, st'. split_and!; [exact Hrun | exact Hstored | exact Hstatus
                                | exact Hframe].
Defined.
